(** * depman: a shallow embedding of the dependency engine

    The Go packages [pkg/depman], [internal/downloader] and
    [internal/environment] are embedded as Rocq functions.  Effects are
    explicit: every function that touches the file system, the process
    environment, the network, a subprocess or the logger takes a [World] and
    returns the next one.  What the Go standard library and the semver
    library compute is supplied by a [Host] record. *)

From Stdlib Require Import ZArith NArith Ascii String.
From stdpp Require Import base option list gmap strings.

Local Open Scope string_scope.
Local Open Scope list_scope.
Local Set Warnings "-register-all".

(** ** Strings, as the [strings] package is used by the sources *)

Module Str.

Definition is_digit (c : ascii) : bool :=
  let n := nat_of_ascii c in (48 <=? n)%nat && (n <=? 57)%nat.

Definition is_upper (c : ascii) : bool :=
  let n := nat_of_ascii c in (65 <=? n)%nat && (n <=? 90)%nat.

Definition lower_ascii (c : ascii) : ascii :=
  if is_upper c then ascii_of_nat (nat_of_ascii c + 32) else c.

(** [strings.ToLower], on the ASCII range. *)
Fixpoint ToLower (s : string) : string :=
  match s with
  | EmptyString => EmptyString
  | String c r => String (lower_ascii c) (ToLower r)
  end.

(** [strings.EqualFold], on the ASCII range: equality up to letter case. *)
Definition EqualFold (s t : string) : bool :=
  String.eqb (ToLower s) (ToLower t).

(** [strings.HasPrefix]. *)
Definition HasPrefix (s pre : string) : bool := String.prefix pre s.

(** [strings.CutPrefix]: what follows [pre] in [s], when [s] starts with
    it. *)
Fixpoint CutPrefix (s pre : string) : option string :=
  match pre, s with
  | EmptyString, _ => Some s
  | String a pre, String b s => if Ascii.eqb a b then CutPrefix s pre else None
  | String _ _, EmptyString => None
  end.

Fixpoint rev_string (s : string) : string :=
  match s with
  | EmptyString => EmptyString
  | String c r => rev_string r ++ String c EmptyString
  end.

(** [strings.HasSuffix]. *)
Definition HasSuffix (s suf : string) : bool :=
  String.prefix (rev_string suf) (rev_string s).

(** Scan of [strings.ReplaceAll] for a non-empty [old]: [skip] counts the
    bytes of a match that are still to be dropped. *)
Fixpoint replace_from (old new : string) (skip : nat) (s : string) : string :=
  match s with
  | EmptyString => EmptyString
  | String c r =>
      match skip with
      | S k => replace_from old new k r
      | O =>
          if String.prefix old s
          then new ++ replace_from old new (String.length old - 1) r
          else String c (replace_from old new O r)
      end
  end.

(** [strings.ReplaceAll s old new]; the sources only call it with a
    non-empty [old] (a brace-delimited token). *)
Definition ReplaceAll (s old new : string) : string :=
  match old with
  | EmptyString => s
  | _ => replace_from old new O s
  end.

(** [strings.Split s sep] for a one-byte separator: the fields between
    the separators, always at least one. *)
Fixpoint Split (sep : ascii) (s : string) : list string :=
  match s with
  | EmptyString => [EmptyString]
  | String c r =>
      if Ascii.eqb c sep then EmptyString :: Split sep r
      else match Split sep r with
           | f :: fs => String c f :: fs
           | [] => [String c EmptyString]
           end
  end.

(** [strings.Join]. *)
Fixpoint Join (l : list string) (sep : string) : string :=
  match l with
  | [] => EmptyString
  | [x] => x
  | x :: r => x ++ sep ++ Join r sep
  end.

Definition is_empty (s : string) : bool :=
  match s with EmptyString => true | _ => false end.

Definition is_space (c : ascii) : bool :=
  let n := nat_of_ascii c in
  ((9 <=? n)%nat && (n <=? 13)%nat) || (n =? 32)%nat.

Fixpoint trim_left (s : string) : string :=
  match s with
  | EmptyString => EmptyString
  | String c r => if is_space c then trim_left r else s
  end.

(** [strings.TrimSpace], on the ASCII range. *)
Definition TrimSpace (s : string) : string :=
  rev_string (trim_left (rev_string (trim_left s))).

End Str.

(** ** Semantic versions, as [Masterminds/semver/v3] represents them *)

Module Semver.

(** [semver.Version]: three unsigned 64-bit segments, a prerelease tag and
    build metadata. *)
Record Version := mkVersion {
  Major : N;
  Minor : N;
  Patch : N;
  Prerelease : string;
  Metadata : string
}.

Definition compareSegment (v o : N) : Z :=
  if (v <? o)%N then (-1)%Z else if (o <? v)%N then 1%Z else 0%Z.

(** [Version.Compare]: segments first, then the prerelease tags, a
    version without a tag being the newer one.  [cmp_pre] stands for the
    library's comparison of two non-empty tags. *)
Definition Compare (cmp_pre : string -> string -> Z) (v o : Version) : Z :=
  let d := compareSegment (Major v) (Major o) in
  if negb (d =? 0)%Z then d else
  let d := compareSegment (Minor v) (Minor o) in
  if negb (d =? 0)%Z then d else
  let d := compareSegment (Patch v) (Patch o) in
  if negb (d =? 0)%Z then d else
  if Str.is_empty (Prerelease v) && Str.is_empty (Prerelease o) then 0%Z
  else if Str.is_empty (Prerelease v) then 1%Z
  else if Str.is_empty (Prerelease o) then (-1)%Z
  else cmp_pre (Prerelease v) (Prerelease o).

(** [Version.Equal]. *)
Definition Equal (cmp_pre : string -> string -> Z) (v o : Version) : bool :=
  (Compare cmp_pre v o =? 0)%Z.

(** [current >= required] in semantic-version order. *)
Definition GreaterOrEqual (cmp_pre : string -> string -> Z) (v o : Version) : bool :=
  (0 <=? Compare cmp_pre v o)%Z.

End Semver.

(** ** Data model of package [depman] *)

(** [Version]: the required version and the optional constraint. *)
Record Version := mkVersionReq {
  Required : string;
  Constraint : string
}.

Record Installer := mkInstaller {
  InstallerType : string;
  URL : string;
  Checksum : string
}.

Record Commands := mkCommands {
  Install : list string;
  Verify : list string;
  Uninstall : list string
}.

Record PlatformConfig := mkPlatformConfig {
  pc_Installer : Installer;
  pc_Commands : Commands
}.

(** [Environment]: [Path] is a slice that may be nil, which the code tells
    from an empty slice; [None] is the nil slice. *)
Record Environment := mkEnvironment {
  Path : option (list string);
  Variables : gmap string string
}.

Record Dependency := mkDependency {
  Name : string;
  Description : string;
  dep_Version : Version;
  Platforms : gmap string PlatformConfig;
  dep_Environment : Environment;
  Dependencies : list string
}.

Record DependencyConfig := mkDependencyConfig {
  cfg_Version : string;
  cfg_Name : string;
  cfg_Description : string;
  cfg_Dependencies : list Dependency
}.

(** [Manager]: [Config] is a pointer that may be nil.  The logger and the
    environment manager it points to live in the [World]. *)
Record Manager := mkManager {
  Config : option DependencyConfig;
  ConfigPath : string;
  Platform : string
}.

Inductive UpdateType := NoUpdate | PatchUpdate | MinorUpdate | MajorUpdate.

(** Errors.  Each constructor is one [fmt.Errorf] or [errors.New] site of
    the sources and carries the values its message is formatted from;
    [ErrLib] is an error value handed back by a library call. *)
Inductive error :=
  | ErrLib (msg : string)
  (* config.go *)
  | ErrConfigNotFound
  | ErrInvalidCurrentVersion (v : string) (cause : error)
  | ErrInvalidRequiredVersion (v : string) (cause : error)
  | ErrInvalidVersion (v : string) (cause : error)
  | ErrInvalidConstraint (c : string) (cause : error)
  (* downloader.go *)
  | ErrCreateDestDir (cause : error)
  | ErrCreateDestFile (cause : error)
  | ErrDownloadFile (cause : error)
  | ErrBadStatus (status : string)
  | ErrChecksumFormat
  | ErrUnsupportedAlgorithm (algorithm : string)
  | ErrWriteFile (cause : error)
  | ErrChecksumMismatch (expected actual : string)
  (* environment.go *)
  | ErrSetenv (key : string) (cause : error)
  | ErrUpdatePath (cause : error)
  (* manager *)
  | ErrNoPlatform (platform : string)
  | ErrNoDependencies
  | ErrDepNoPlatform (name platform : string)
  | ErrDepNoRequired (name : string)
  | ErrDepBadConstraint (name constraint : string) (cause : error)
  | ErrTempDir (cause : error)
  | ErrDownloadDependency (cause : error)
  | ErrInstallFailed (cause : error) (output : string)
  | ErrNoVerifyCommand (name : string)
  | ErrVerifyTimeout
  | ErrVerifyFailed (cause : error) (output : string)
  (* ensure / check *)
  | ErrInvalidConfiguration (cause : error)
  | ErrConfigErrors (errs : list error)
  | ErrValidationErrors (errs : list error)
  | ErrNoConfigLoaded
  | ErrDepNotFound (name : string).

Record DependencyStatus := mkStatus {
  st_Name : string;
  Installed : bool;
  CurrentVersion : string;
  RequiredUpdate : UpdateType;
  Compatible : bool;
  Error : option error
}.

Definition UpdateType_eqb (a b : UpdateType) : bool :=
  match a, b with
  | NoUpdate, NoUpdate | PatchUpdate, PatchUpdate
  | MinorUpdate, MinorUpdate | MajorUpdate, MajorUpdate => true
  | _, _ => false
  end.

(** ** Package [downloader] *)

Record DownloadOptions := mkDownloadOptions {
  opt_URL : string;
  opt_Checksum : string;
  DestDir : string;
  Filename : string;
  ShowProgress : bool
}.

Record Result := mkResult {
  FilePath : string;
  Size : Z;
  res_Checksum : string
}.

(** What [http.Get] hands back on success: the status, and a body that
    delivers [Body] and then ends, or breaks with [BodyErr]. *)
Record Response := mkResponse {
  StatusCode : Z;
  Status : string;
  Body : string;
  BodyErr : option error
}.

Definition StatusOK : Z := 200.

(** ** Package [environment] *)

Record EnvManager := mkEnvManager {
  em_Variables : gmap string string;
  em_Paths : list string
}.

(** [environment.NewManager]. *)
Definition NewEnvManager : EnvManager :=
  {| em_Variables := ∅; em_Paths := [] |}.

(** ** The world the program runs in *)

Inductive Level := LevelDebug | LevelInfo | LevelWarn | LevelError.

Inductive LogArg :=
  | ArgS (s : string)
  | ArgN (n : Z)
  | ArgE (e : error)
  | ArgU (u : UpdateType).

(** What the program does to the outside, in the order it does it: a call
    of the logger (format and arguments), a subprocess run, an HTTP GET. *)
Inductive Event :=
  | EvLog (l : Level) (format : string) (args : list LogArg)
  | EvExec (argv : list string)
  | EvHttpGet (url : string).

Record World := mkWorld {
  w_fs : gmap string string;          (* files: path to content *)
  w_env : list (string * string);     (* the process environment *)
  w_envmgr : EnvManager;              (* the manager's environment.Manager *)
  w_trace : list Event                (* oldest first *)
}.

Definition emit (e : Event) (w : World) : World :=
  {| w_fs := w_fs w; w_env := w_env w; w_envmgr := w_envmgr w;
     w_trace := w_trace w ++ [e] |}.

Definition set_fs (fs : gmap string string) (w : World) : World :=
  {| w_fs := fs; w_env := w_env w; w_envmgr := w_envmgr w;
     w_trace := w_trace w |}.

Definition set_env (env : list (string * string)) (w : World) : World :=
  {| w_fs := w_fs w; w_env := env; w_envmgr := w_envmgr w;
     w_trace := w_trace w |}.

Definition set_envmgr (em : EnvManager) (w : World) : World :=
  {| w_fs := w_fs w; w_env := w_env w; w_envmgr := em;
     w_trace := w_trace w |}.

Definition logf (l : Level) (format : string) (args : list LogArg) : World -> World :=
  emit (EvLog l format args).

(** A Go call either returns or panics. *)
Inductive outcome (A : Type) :=
  | Returned (a : A)
  | Panicked (msg : string).
Arguments Returned {A} a.
Arguments Panicked {A} msg.

(** The three patterns of [extractVersion], in its order. *)
Inductive VersionPattern := PatPlain | PatVersionWord | PatWithSuffix.

(** What the run of a subprocess gives: whether the deadline of the context
    passed, the combined output, and the error of [CombinedOutput]. *)
Record CmdResult := mkCmdResult {
  DeadlineExceeded : bool;
  Output : string;
  CmdErr : option error
}.

(** What the standard library, the semver library and the machine supply.
    The calls that depend on the machine take the [World], whose trace
    holds everything the program did before. *)
Record Host := mkHost {
  (* runtime, os constants *)
  GOOS : string;
  PathListSeparator : string;
  (* path/filepath *)
  filepath_Base : string -> string;
  filepath_Join : list string -> string;
  filepath_Clean : string -> string;
  (* Masterminds/semver *)
  NewVersion : string -> error + Semver.Version;
  comparePrerelease : string -> string -> Z;
  NewConstraint : string -> error + (Semver.Version -> bool);
  (* regexp *)
  FindStringSubmatch : VersionPattern -> string -> list string;
  (* crypto/sha256 with encoding/hex *)
  sha256_hex : string -> string;
  (* os *)
  IsPathSeparator : ascii -> bool;
  os_MkdirAll : string -> World -> option error;
  os_MkdirTemp : string -> World -> error + string;
  os_Create : string -> World -> option error;
  os_Remove : string -> World -> option error;
  (* net/http *)
  http_Get : string -> World -> error + Response;
  (* os/exec *)
  exec_Run : list string -> World -> CmdResult
}.

(** ** Process environment: [os.Getenv], [os.Setenv], [os.Environ]

    The environment is a list of entries, and [Os] reads and writes it as
    every host but Windows does: names are compared byte for byte, and
    [Setenv] refuses what [syscall.Setenv] refuses there.  On Windows the
    names are compared without regard to letter case and the refusals are
    those of the system call; what is proved of a read or a write of the
    environment is stated for the hosts of [unix_environment]. *)

Definition unix_environment (H : Host) : Prop := GOOS H <> "windows".

Module Os.

(** [os.Getenv]: the value of the first entry with that key, the empty
    string when there is none. *)
Fixpoint Getenv (env : list (string * string)) (key : string) : string :=
  match env with
  | [] => EmptyString
  | (k, v) :: r => if String.eqb k key then v else Getenv r key
  end.

Fixpoint has_byte (p : ascii -> bool) (s : string) : bool :=
  match s with
  | EmptyString => false
  | String c r => p c || has_byte p r
  end.

(** The keys and values [syscall.Setenv] refuses with EINVAL: an empty
    key, a key holding an equals sign or a NUL byte, a value holding a
    NUL byte. *)
Definition setenv_refused (key value : string) : bool :=
  Str.is_empty key
  || has_byte (fun c => Ascii.eqb c "="%char || Ascii.eqb c "000"%char) key
  || has_byte (fun c => Ascii.eqb c "000"%char) value.

Fixpoint has_key (env : list (string * string)) (key : string) : bool :=
  match env with
  | [] => false
  | (k, _) :: r => String.eqb k key || has_key r key
  end.

Fixpoint replace_key (env : list (string * string)) (key value : string)
  : list (string * string) :=
  match env with
  | [] => []
  | (k, v) :: r =>
      if String.eqb k key then (k, value) :: r
      else (k, v) :: replace_key r key value
  end.

Definition put (env : list (string * string)) (key value : string)
  : list (string * string) :=
  if has_key env key then replace_key env key value
  else env ++ [(key, value)].

(** [os.Setenv]: the error, or the new environment. *)
Definition Setenv (env : list (string * string)) (key value : string)
  : error + list (string * string) :=
  if setenv_refused key value then inl (ErrLib "invalid argument")
  else inr (put env key value).

End Os.

(** ** The program *)

Section Program.

Variable H : Host.

(** The order in which a [range] loop visits a Go map is not fixed by the
    language.  [range_order] is the order of one run: any arrangement of
    the entries of the map. *)
Variable range_order : forall V : Type, gmap string V -> list (string * V).

(** [os.Stat] returning no error: the path is one the world holds. *)
Definition path_exists (w : World) (p : string) : bool :=
  bool_decide (is_Some (w_fs w !! p)).

(** *** config.go *)

(** The standard locations of [FindDependencyFile]. *)
Definition searchPaths (w : World) : list string :=
  [ "app-dependencies.yml";
    "config/app-dependencies.yml";
    "../app-dependencies.yml";
    "../config/app-dependencies.yml";
    filepath_Join H [Os.Getenv (w_env w) "HOME"; ".config/depman/app-dependencies.yml"] ]
  ++ (if String.eqb (GOOS H) "windows"
      then let appData := Os.Getenv (w_env w) "APPDATA" in
           if negb (Str.is_empty appData)
           then [filepath_Join H [appData; "depman"; "app-dependencies.yml"]]
           else []
      else []).

Fixpoint first_existing (w : World) (paths : list string) : option string :=
  match paths with
  | [] => None
  | p :: r => if path_exists w p then Some p else first_existing w r
  end.

(** What the block for a custom path returns, if it returns. *)
Definition custom_hit (w : World) (customPath : string) : option string :=
  if negb (Str.is_empty customPath) then
    if path_exists w customPath then Some customPath
    else if negb (Str.HasSuffix customPath ".yml")
            && negb (Str.HasSuffix customPath ".yaml")
    then let withExt := (customPath ++ ".yml")%string in
         if path_exists w withExt then Some withExt else None
    else None
  else None.

Definition FindDependencyFile (w : World) (customPath : string)
  : string * option error :=
  match custom_hit w customPath with
  | Some p => (p, None)
  | None =>
      match first_existing w (searchPaths w) with
      | Some p => (p, None)
      | None => (EmptyString, Some ErrConfigNotFound)
      end
  end.

Definition CheckVersionUpdate (currentVersion requiredVersion : string)
  : UpdateType * option error :=
  match NewVersion H currentVersion with
  | inl err => (NoUpdate, Some (ErrInvalidCurrentVersion currentVersion err))
  | inr current =>
      match NewVersion H requiredVersion with
      | inl err => (NoUpdate, Some (ErrInvalidRequiredVersion requiredVersion err))
      | inr required =>
          if Semver.Equal (comparePrerelease H) current required
          then (NoUpdate, None)
          else if (Semver.Major current <? Semver.Major required)%N
          then (MajorUpdate, None)
          else if (Semver.Minor current <? Semver.Minor required)%N
          then (MinorUpdate, None)
          else if (Semver.Patch current <? Semver.Patch required)%N
          then (PatchUpdate, None)
          else (NoUpdate, None)
      end
  end.

Definition IsVersionCompatible (currentVersion constraintStr : string)
  : bool * option error :=
  match NewVersion H currentVersion with
  | inl err => (false, Some (ErrInvalidVersion currentVersion err))
  | inr version =>
      match NewConstraint H constraintStr with
      | inl err => (false, Some (ErrInvalidConstraint constraintStr err))
      | inr check => (check version, None)
      end
  end.

(** *** downloader.go *)

(** [os.Remove] is called on the file while it is still open (the deferred
    [Close] has not run yet) and its result is dropped: the file is gone
    when the host removes it, as where an open file can be unlinked, and
    stays when the host refuses, as Windows does for a file that is open.
    The deferred [Close] calls change nothing that is modelled. *)
Definition Download (opts : DownloadOptions) (w : World)
  : option Result * option error * World :=
  match os_MkdirAll H (DestDir opts) w with
  | Some err => (None, Some (ErrCreateDestDir err), w)
  | None =>
  let filename :=
    if Str.is_empty (Filename opts) then filepath_Base H (opt_URL opts)
    else Filename opts in
  let destPath := filepath_Join H [DestDir opts; filename] in
  match os_Create H destPath w with
  | Some err => (None, Some (ErrCreateDestFile err), w)
  | None =>
  (* the file now exists and is empty *)
  let w := set_fs (<[destPath := EmptyString]> (w_fs w)) w in
  let resp := http_Get H (opt_URL opts) w in
  let w := emit (EvHttpGet (opt_URL opts)) w in
  match resp with
  | inl err => (None, Some (ErrDownloadFile err), w)
  | inr resp =>
  if negb (StatusCode resp =? StatusOK)%Z
  then (None, Some (ErrBadStatus (Status resp)), w)
  else
  let requested := negb (Str.is_empty (opt_Checksum opts)) in
  let parts := Str.Split ":"%char (opt_Checksum opts) in
  if requested && negb (length parts =? 2)%nat
  then (None, Some ErrChecksumFormat, w)
  else
  let algorithm := Str.ToLower (nth 0 parts EmptyString) in
  if requested && negb (String.eqb algorithm "sha256")
  then (None, Some (ErrUnsupportedAlgorithm algorithm), w)
  else
  (* io.Copy: the bytes delivered go to the file, and to the hasher *)
  let w := set_fs (<[destPath := Body resp]> (w_fs w)) w in
  let size := Z.of_nat (String.length (Body resp)) in
  match BodyErr resp with
  | Some err => (None, Some (ErrWriteFile err), w)
  | None =>
  if requested then
    let expectedChecksum := nth 1 parts EmptyString in
    let actualChecksum := sha256_hex H (Body resp) in
    if negb (Str.EqualFold actualChecksum expectedChecksum)
    then
      let w :=
        match os_Remove H destPath w with
        | None => set_fs (delete destPath (w_fs w)) w
        | Some _ => w (* the error of os.Remove is not read *)
        end in
      (None, Some (ErrChecksumMismatch expectedChecksum actualChecksum), w)
    else (Some {| FilePath := destPath; Size := size;
                  res_Checksum := actualChecksum |}, None, w)
  else (Some {| FilePath := destPath; Size := size;
                res_Checksum := EmptyString |}, None, w)
  end
  end
  end
  end.

(** The path [Download] writes to, and the world right after it has
    created the file there. *)
Definition destPath (opts : DownloadOptions) : string :=
  filepath_Join H
    [DestDir opts;
     if Str.is_empty (Filename opts) then filepath_Base H (opt_URL opts)
     else Filename opts].

Definition created (opts : DownloadOptions) (w : World) : World :=
  set_fs (<[destPath opts := EmptyString]> (w_fs w)) w.

(** The world once the request has been sent and [io.Copy] has written
    the bytes [body] to the file, which is still open. *)
Definition streamed (opts : DownloadOptions) (body : string) (w : World) : World :=
  let w := emit (EvHttpGet (opt_URL opts)) (created opts w) in
  set_fs (<[destPath opts := body]> (w_fs w)) w.

(** *** environment.go *)

Definition AddVariable (key value : string) (m : EnvManager) : EnvManager :=
  {| em_Variables := <[key := value]> (em_Variables m);
     em_Paths := em_Paths m |}.

Definition AddPath (path : string) (m : EnvManager) : EnvManager :=
  let path := filepath_Clean H path in
  if existsb (fun p => String.eqb p path) (em_Paths m) then m
  else {| em_Variables := em_Variables m;
          em_Paths := em_Paths m ++ [path] |}.

Definition brace (key : string) : string := ("{" ++ key ++ "}")%string.

Definition ExpandVariables (m : EnvManager) (env : list (string * string))
    (text : string) : string :=
  let result :=
    fold_left (fun result kv => Str.ReplaceAll result (brace kv.1) kv.2)
              (range_order _ (em_Variables m)) text in
  fold_left (fun result kv => Str.ReplaceAll result (brace kv.1) kv.2)
            env result.

(** The first loop of [ApplyToCurrentProcess]. *)
Fixpoint setenv_all (vars : list (string * string)) (env : list (string * string))
  : option error * list (string * string) :=
  match vars with
  | [] => (None, env)
  | (key, value) :: r =>
      match Os.Setenv env key value with
      | inl err => (Some (ErrSetenv key err), env)
      | inr env' => setenv_all r env'
      end
  end.

Definition ApplyToCurrentProcess (m : EnvManager) (env : list (string * string))
  : option error * list (string * string) :=
  match setenv_all (range_order _ (em_Variables m)) env with
  | (Some err, env) => (Some err, env)
  | (None, env) =>
      if (0 <? length (em_Paths m))%nat then
        let pathVar := "PATH" in
        let currentPath := Os.Getenv env pathVar in
        let pathsToAdd := Str.Join (em_Paths m) (PathListSeparator H) in
        let newPath :=
          if negb (Str.is_empty currentPath)
          then (pathsToAdd ++ PathListSeparator H ++ currentPath)%string
          else pathsToAdd in
        match Os.Setenv env pathVar newPath with
        | inl err => (Some (ErrUpdatePath err), env)
        | inr env' => (None, env')
        end
      else (None, env)
  end.

(** *** manager *)

Definition GetPlatformConfig (m : Manager) (dep : Dependency)
  : option PlatformConfig * option error :=
  match Platforms dep !! Platform m with
  | Some platform => (Some platform, None)
  | None => (None, Some (ErrNoPlatform (Platform m)))
  end.

(** The body of the loop of [validateDependencies]: the errors one
    dependency adds. *)
Definition version_errors (dep : Dependency) : list error :=
  (if Str.is_empty (Required (dep_Version dep))
   then [ErrDepNoRequired (Name dep)] else [])
  ++ (if negb (Str.is_empty (Constraint (dep_Version dep)))
      then match NewConstraint H (Constraint (dep_Version dep)) with
           | inl err => [ErrDepBadConstraint (Name dep)
                           (Constraint (dep_Version dep)) err]
           | inr _ => []
           end
      else []).

Definition validate_dep (m : Manager) (dep : Dependency) : list error :=
  match Platforms dep !! Platform m with
  | None => [ErrDepNoPlatform (Name dep) (Platform m)]
  | Some _ => version_errors dep
  end.

Definition validate_list (m : Manager) (deps : list Dependency) : list error :=
  match deps with
  | [] => [ErrNoDependencies]
  | _ => flat_map (validate_dep m) deps
  end.

(** [validateDependencies] reads [m.Config.Dependencies] without a nil
    check. *)
Definition validateDependencies (m : Manager) : outcome (list error) :=
  match Config m with
  | None => Panicked "invalid memory address or nil pointer dereference"
  | Some cfg => Returned (validate_list m (cfg_Dependencies cfg))
  end.

Definition validateConfiguration (m : Manager) : option error :=
  match Config m with
  | None => Some ErrNoConfigLoaded
  | Some cfg =>
      let errors := validate_list m (cfg_Dependencies cfg) in
      if (0 <? length errors)%nat then Some (ErrValidationErrors errors)
      else None
  end.

Fixpoint first_match (patterns : list VersionPattern) (output : string)
  : option string :=
  match patterns with
  | [] => None
  | pattern :: r =>
      let m := FindStringSubmatch H pattern output in
      if (2 <=? length m)%nat then Some (nth 1 m EmptyString)
      else first_match r output
  end.

Definition extractVersion (output : string) : string :=
  match first_match [PatPlain; PatVersionWord; PatWithSuffix] output with
  | Some v => v
  | None => output
  end.

(** The version [classify] works with: the extracted one unless it is
    empty. *)
Definition current_of (outputStr : string) : string :=
  if negb (Str.is_empty (extractVersion outputStr))
  then extractVersion outputStr else outputStr.

Definition with_error (e : option error) (s : DependencyStatus) : DependencyStatus :=
  {| st_Name := st_Name s; Installed := Installed s;
     CurrentVersion := CurrentVersion s; RequiredUpdate := RequiredUpdate s;
     Compatible := Compatible s; Error := e |}.

Definition with_installed (b : bool) (s : DependencyStatus) : DependencyStatus :=
  {| st_Name := st_Name s; Installed := b;
     CurrentVersion := CurrentVersion s; RequiredUpdate := RequiredUpdate s;
     Compatible := Compatible s; Error := Error s |}.

Definition with_version (v : string) (s : DependencyStatus) : DependencyStatus :=
  {| st_Name := st_Name s; Installed := Installed s;
     CurrentVersion := v; RequiredUpdate := RequiredUpdate s;
     Compatible := Compatible s; Error := Error s |}.

Definition with_update (u : UpdateType) (s : DependencyStatus) : DependencyStatus :=
  {| st_Name := st_Name s; Installed := Installed s;
     CurrentVersion := CurrentVersion s; RequiredUpdate := u;
     Compatible := Compatible s; Error := Error s |}.

Definition with_compatible (b : bool) (s : DependencyStatus) : DependencyStatus :=
  {| st_Name := st_Name s; Installed := Installed s;
     CurrentVersion := CurrentVersion s; RequiredUpdate := RequiredUpdate s;
     Compatible := b; Error := Error s |}.

(** The part of [VerifyDependency] after the verify command has
    succeeded with the trimmed output [outputStr]. *)
Definition classify (dep : Dependency) (outputStr : string)
    (status : DependencyStatus) (w : World) : DependencyStatus * World :=
  let status := with_installed true status in
  let w := logf LevelInfo "Dependency %s is installed" [ArgS (Name dep)] w in
  let status := with_version outputStr status in
  let version := extractVersion outputStr in
  let status :=
    if negb (Str.is_empty version) then with_version version status
    else status in
  let '(status, w) :=
    if negb (Str.is_empty (Required (dep_Version dep))) then
      match CheckVersionUpdate (CurrentVersion status) (Required (dep_Version dep)) with
      | (_, Some err) =>
          (with_error (Some err) status,
           logf LevelError "Failed to check version update: %v" [ArgE err] w)
      | (updateType, None) =>
          (with_update updateType status,
           if negb (UpdateType_eqb updateType NoUpdate)
           then logf LevelInfo
                  "Dependency %s requires a %s (current: %s, required: %s)"
                  [ArgS (Name dep); ArgU updateType;
                   ArgS (CurrentVersion status);
                   ArgS (Required (dep_Version dep))] w
           else w)
      end
    else (status, w) in
  if negb (Str.is_empty (Constraint (dep_Version dep))) then
    match IsVersionCompatible (CurrentVersion status) (Constraint (dep_Version dep)) with
    | (_, Some err) =>
        (with_error (Some err) status,
         logf LevelError "Failed to check version compatibility: %v" [ArgE err] w)
    | (compatible, None) =>
        (with_compatible compatible status,
         if negb compatible
         then logf LevelInfo
                "Dependency %s version %s is not compatible with constraint %s"
                [ArgS (Name dep); ArgS (CurrentVersion status);
                 ArgS (Constraint (dep_Version dep))] w
         else w)
    end
  else (with_compatible true status, w).

Definition VerifyDependency (m : Manager) (dep : Dependency) (w : World)
  : DependencyStatus * option error * World :=
  let status :=
    {| st_Name := Name dep; Installed := false; CurrentVersion := EmptyString;
       RequiredUpdate := NoUpdate; Compatible := false; Error := None |} in
  match GetPlatformConfig m dep with
  | (_, Some err) => (with_error (Some err) status, Some err, w)
  | (None, None) => (status, None, w) (* not returned by GetPlatformConfig *)
  | (Some platformConfig, None) =>
      let verify := Verify (pc_Commands platformConfig) in
      if (length verify =? 0)%nat then
        let err := ErrNoVerifyCommand (Name dep) in
        (with_error (Some err) status, Some err, w)
      else
        let w := logf LevelInfo "Verifying dependency: %s" [ArgS (Name dep)] w in
        let r := exec_Run H verify w in
        let w := emit (EvExec verify) w in
        let outputStr := Str.TrimSpace (Output r) in
        if DeadlineExceeded r then
          (with_error (Some ErrVerifyTimeout) status, Some ErrVerifyTimeout, w)
        else match CmdErr r with
        | Some err =>
            let e := ErrVerifyFailed err outputStr in
            (with_error (Some e) status, Some e, w)
        | None =>
            let '(status, w) := classify dep outputStr status w in
            (status, None, w)
        end
  end.

Definition CheckDependency (m : Manager) (dep : Dependency) (w : World)
  : DependencyStatus * option error * World :=
  VerifyDependency m dep w.

(** [path] names the directory [dir] or something below it: it is [dir],
    or [dir] followed by a path separator and more.  [dir] is a clean path
    with no separator at its end, as [os.MkdirTemp] returns it. *)
Definition within (dir path : string) : bool :=
  match Str.CutPrefix path dir with
  | Some EmptyString => true
  | Some (String c _) => IsPathSeparator H c
  | None => false
  end.

(** [os.RemoveAll dir]: the files at or below [dir] are gone, the others
    stay. *)
Definition RemoveAll (dir : string) (w : World) : World :=
  set_fs (filter (fun kv => within dir kv.1 = false) (w_fs w)) w.

(** The options [installDependency] downloads with.  [opts.Checksum] is
    the zero value unless the checksum is given, in which case it is that
    checksum. *)
Definition download_options (platformConfig : PlatformConfig) (tempDir : string)
  : DownloadOptions :=
  {| opt_URL := URL (pc_Installer platformConfig);
     opt_Checksum := Checksum (pc_Installer platformConfig);
     DestDir := tempDir; Filename := EmptyString; ShowProgress := true |}.

(** The rest of [installDependency] once the temporary directory exists;
    the deferred [os.RemoveAll] is run by the caller on every way out. *)
Definition install_in (dep : Dependency) (platformConfig : PlatformConfig)
    (tempDir : string) (w : World) : outcome (option error) * World :=
  let url := URL (pc_Installer platformConfig) in
  let '(downloadPath, failed, w) :=
    if negb (Str.is_empty url) then
      let w := logf LevelInfo "Downloading %s from %s"
                 [ArgS (Name dep); ArgS url] w in
      match Download (download_options platformConfig tempDir) w with
      | (Some result, None, w) =>
          (FilePath result, None,
           logf LevelInfo "Downloaded %s (%d bytes)"
             [ArgS (Name dep); ArgN (Size result)] w)
      | (_, Some err, w) => (EmptyString, Some (ErrDownloadDependency err), w)
      | (None, None, w) => (EmptyString, None, w) (* not returned by Download *)
      end
    else (EmptyString, None, w) in
  match failed with
  | Some err => (Returned (Some err), w)
  | None =>
      let installCmd :=
        map (fun arg => Str.ReplaceAll arg "{download_path}" downloadPath)
            (Install (pc_Commands platformConfig)) in
      let w := logf LevelInfo "Installing %s using command: %s"
                 [ArgS (Name dep); ArgS (Str.Join installCmd " ")] w in
      match installCmd with
      | [] => (Panicked "index out of range [0] with length 0", w)
      | _ :: _ =>
          let r := exec_Run H installCmd w in
          let w := emit (EvExec installCmd) w in
          match CmdErr r with
          | Some err => (Returned (Some (ErrInstallFailed err (Output r))), w)
          | None =>
              (Returned None,
               logf LevelInfo "Successfully installed %s" [ArgS (Name dep)] w)
          end
      end
  end.

Definition installDependency (m : Manager) (dep : Dependency) (w : World)
  : outcome (option error) * World :=
  match GetPlatformConfig m dep with
  | (_, Some err) => (Returned (Some err), w)
  | (None, None) => (Returned None, w) (* not returned by GetPlatformConfig *)
  | (Some platformConfig, None) =>
      match os_MkdirTemp H "depman-download-*" w with
      | inl err => (Returned (Some (ErrTempDir err)), w)
      | inr tempDir =>
          let '(r, w) := install_in dep platformConfig tempDir w in
          (r, RemoveAll tempDir w)
      end
  end.

Definition setupDependencyEnvironment (dep : Dependency) (w : World)
  : option error * World :=
  let e := dep_Environment dep in
  if bool_decide (Path e = None) && (size (Variables e) =? 0)%nat
  then (None, w)
  else
    let w :=
      fold_left
        (fun w path =>
           let expandedPath := ExpandVariables (w_envmgr w) (w_env w) path in
           let w := set_envmgr (AddPath expandedPath (w_envmgr w)) w in
           logf LevelDebug "Added %s to PATH for dependency %s"
             [ArgS expandedPath; ArgS (Name dep)] w)
        (default [] (Path e)) w in
    let w :=
      fold_left
        (fun w kv =>
           let expandedValue := ExpandVariables (w_envmgr w) (w_env w) kv.2 in
           let w := set_envmgr (AddVariable kv.1 expandedValue (w_envmgr w)) w in
           logf LevelDebug "Set environment variable %s=%s for dependency %s"
             [ArgS kv.1; ArgS expandedValue; ArgS (Name dep)] w)
        (range_order _ (Variables e)) w in
    (None, w).

(** The loop of [CheckAllDependencies]. *)
Fixpoint check_each (m : Manager) (deps : list Dependency)
    (results : gmap string DependencyStatus) (w : World)
  : gmap string DependencyStatus * World :=
  match deps with
  | [] => (results, w)
  | dep :: r =>
      let '(status, _, w) := CheckDependency m dep w in
      check_each m r (<[Name dep := status]> results) w
  end.

Definition CheckAllDependencies (m : Manager) (w : World)
  : outcome (option (gmap string DependencyStatus) * option error) * World :=
  match validateDependencies m, Config m with
  | Returned errors, Some cfg =>
      if (0 <? length errors)%nat
      then (Returned (None, Some (ErrConfigErrors errors)), w)
      else
        let '(results, w) := check_each m (cfg_Dependencies cfg) ∅ w in
        (Returned (Some results, None), w)
  | Panicked msg, _ => (Panicked msg, w)
  | Returned _, None => (Panicked "invalid memory address or nil pointer dereference", w)
  end.

(** The search of the [Ensure] loop for the definition of [name]: the
    first dependency of that name. *)
Fixpoint find_dep (deps : list Dependency) (name : string) : option Dependency :=
  match deps with
  | [] => None
  | d :: r => if String.eqb (Name d) name then Some d else find_dep r name
  end.

Definition up_to_date (status : DependencyStatus) : bool :=
  Installed status && Compatible status
  && UpdateType_eqb (RequiredUpdate status) NoUpdate.

(** How the install loop of [EnsureDependencies] ends: it runs to its end,
    or a [return] inside it leaves the function with an error. *)
Inductive loop_end :=
  | LoopDone
  | LoopReturn (err : error)
  | LoopPanic (msg : string).

(** The install loop over the entries in the order of this run.  Each
    [status] is the pointer stored under [name]: writing through it
    changes the entry of the map. *)
Fixpoint ensure_each (m : Manager) (deps : list Dependency)
    (entries : list (string * DependencyStatus))
    (statuses : gmap string DependencyStatus) (w : World)
  : loop_end * gmap string DependencyStatus * World :=
  match entries with
  | [] => (LoopDone, statuses, w)
  | (name, status) :: r =>
      if up_to_date status then ensure_each m deps r statuses w
      else
        match find_dep deps name with
        | None => (LoopReturn (ErrDepNotFound name), statuses, w)
        | Some dep =>
            match installDependency m dep w with
            | (Panicked msg, w) => (LoopPanic msg, statuses, w)
            | (Returned (Some err), w) =>
                (LoopReturn err,
                 <[name := with_installed false (with_error (Some err) status)]> statuses,
                 w)
            | (Returned None, w) =>
                let '(err, w) := setupDependencyEnvironment dep w in
                let w :=
                  match err with
                  | Some err =>
                      logf LevelWarn
                        "Failed to set up environment for dependency %s: %v"
                        [ArgS (Name dep); ArgE err] w
                  | None => w
                  end in
                match CheckDependency m dep w with
                | (_, Some err, w) => (LoopReturn err, statuses, w)
                | (updatedStatus, None, w) =>
                    ensure_each m deps r (<[name := updatedStatus]> statuses) w
                end
            end
        end
  end.

(** The world in which the install loop checks [dep] again: the one its
    install and the set-up of its environment leave. *)
Definition installed_world (m : Manager) (dep : Dependency) (w : World) : World :=
  let '(_, w) := installDependency m dep w in
  let '(err, w) := setupDependencyEnvironment dep w in
  match err with
  | Some err =>
      logf LevelWarn
        "Failed to set up environment for dependency %s: %v"
        [ArgS (Name dep); ArgE err] w
  | None => w
  end.

(** The end of [EnsureDependencies]: the changes are applied to the
    process, and a failure to apply them is logged. *)
Definition apply_and_log (w : World) : World :=
  let '(err, env) := ApplyToCurrentProcess (w_envmgr w) (w_env w) in
  let w := set_env env w in
  match err with
  | Some err =>
      logf LevelWarn "Failed to apply environment changes: %v" [ArgE err] w
  | None => w
  end.

Definition EnsureDependencies (m : Manager) (w : World)
  : outcome (option (gmap string DependencyStatus) * option error) * World :=
  match validateConfiguration m with
  | Some err => (Returned (None, Some (ErrInvalidConfiguration err)), w)
  | None =>
      match CheckAllDependencies m w with
      | (Panicked msg, w) => (Panicked msg, w)
      | (Returned (statuses, Some err), w) => (Returned (statuses, Some err), w)
      | (Returned (None, None), w) => (Returned (None, None), w)
          (* not returned by CheckAllDependencies *)
      | (Returned (Some statuses, None), w) =>
          let deps := default [] (cfg_Dependencies <$> Config m) in
          match ensure_each m deps (range_order _ statuses) statuses w with
          | (LoopPanic msg, _, w) => (Panicked msg, w)
          | (LoopReturn err, statuses, w) => (Returned (Some statuses, Some err), w)
          | (LoopDone, statuses, w) =>
              (Returned (Some statuses, None), apply_and_log w)
          end
      end
  end.

(** *** Reading the trace *)

(** The dependency named by a log line of the given format. *)
Definition announced (format : string) (e : Event) : option string :=
  match e with
  | EvLog LevelInfo f (ArgS name :: _) =>
      if String.eqb f format then Some name else None
  | _ => None
  end.

(** The dependencies whose verify command was run, oldest first. *)
Definition verifications (t : list Event) : list string :=
  omap (announced "Verifying dependency: %s") t.

(** The dependencies whose install command was reached, oldest first. *)
Definition installations (t : list Event) : list string :=
  omap (announced "Installing %s using command: %s") t.

(** [quiet w w']: from [w] to [w'] the process environment is the same
    and no verification or installation was announced. *)
Definition quiet (w w' : World) : Prop :=
  w_env w' = w_env w
  /\ verifications (w_trace w') = verifications (w_trace w)
  /\ installations (w_trace w') = installations (w_trace w).

(** A dependency [VerifyDependency] has a command to run for. *)
Definition verifiable (m : Manager) (dep : Dependency) : bool :=
  match Platforms dep !! Platform m with
  | Some platformConfig =>
      negb (length (Verify (pc_Commands platformConfig)) =? 0)%nat
  | None => false
  end.

(** The entries the install loop does not skip. *)
Definition needing_install (entries : list (string * DependencyStatus))
  : list string :=
  map fst (filter (fun kv => up_to_date kv.2 = false) entries).

End Program.

(** ** More of the packages *)

Module Text.

Definition is_lower (c : ascii) : bool :=
  let n := nat_of_ascii c in (97 <=? n)%nat && (n <=? 122)%nat.

Definition upper_ascii (c : ascii) : ascii :=
  if is_lower c then ascii_of_nat (nat_of_ascii c - 32) else c.

(** [strings.ToUpper], on the ASCII range. *)
Fixpoint ToUpper (s : string) : string :=
  match s with
  | EmptyString => EmptyString
  | String c r => String (upper_ascii c) (ToUpper r)
  end.

(** [strings.SplitN s sep 2] for a one-byte separator: the text before the
    first separator and, when there is one, the text after it. *)
Fixpoint SplitN2 (sep : ascii) (s : string) : string * option string :=
  match s with
  | EmptyString => (EmptyString, None)
  | String c r =>
      if Ascii.eqb c sep then (EmptyString, Some r)
      else let '(a, b) := SplitN2 sep r in (String c a, b)
  end.

(** The text holds no opening brace. *)
Definition no_brace (s : string) : bool :=
  negb (Os.has_byte (fun c => Ascii.eqb c "{"%char) s).

(** The text holds no equals sign. *)
Definition no_equals (k : string) : Prop :=
  Os.has_byte (fun c => Ascii.eqb c "="%char) k = false.

End Text.

(** Errors of [LoadDependencyConfig]: that of the search for the file, or a
    wrapped read or parse error. *)
Inductive load_error :=
  | LoadFind (e : error)
  | LoadRead (cause : error)
  | LoadParse (cause : error).

Section MoreProgram.

Variable H : Host.
Variable range_order : forall V : Type, gmap string V -> list (string * V).

(** [yaml.Unmarshal] into a [DependencyConfig]. *)
Variable yaml_Unmarshal : string -> error + DependencyConfig.

(** [os.ReadFile]: the content of a file the world holds. *)
Definition os_ReadFile (w : World) (path : string) : error + string :=
  match w_fs w !! path with
  | Some data => inr data
  | None => inl (ErrLib "no such file or directory")
  end.

Definition LoadDependencyConfig (w : World) (path : string)
  : option DependencyConfig * option load_error :=
  let located :=
    if Str.is_empty path then
      match FindDependencyFile H w EmptyString with
      | (_, Some err) => inl err
      | (found, None) => inr found
      end
    else inr path in
  match located with
  | inl err => (None, Some (LoadFind err))
  | inr path =>
      match os_ReadFile w path with
      | inl err => (None, Some (LoadRead err))
      | inr data =>
          match yaml_Unmarshal data with
          | inl err => (None, Some (LoadParse err))
          | inr config => (Some config, None)
          end
      end
  end.

(** [os.Environ]: the entries of the environment, each a key, an equals
    sign and a value. *)
Definition Environ (env : list (string * string)) : list string :=
  map (fun kv => (kv.1 ++ "=" ++ kv.2)%string) env.

(** The search of [GetUpdatedEnvironment] on Windows for the name the
    PATH variable is spelled with. *)
Fixpoint actual_path_var (environ : list string) : string :=
  match environ with
  | [] => "PATH"
  | e :: r =>
      if Str.HasPrefix (Text.ToUpper e) "PATH=" then (Text.SplitN2 "="%char e).1
      else actual_path_var r
  end.

(** The last loop of [GetUpdatedEnvironment]: the entries that were not
    updated. *)
Fixpoint remaining (updated : gset string) (environ : list string) : list string :=
  match environ with
  | [] => []
  | e :: r =>
      match Text.SplitN2 "="%char e with
      | (_, None) => remaining updated r
      | (key, Some _) =>
          if bool_decide (key ∈ updated) then remaining updated r
          else e :: remaining updated r
      end
  end.

(** The name [GetUpdatedEnvironment] gives the PATH variable. *)
Definition path_var (environ : list string) : string :=
  if String.eqb (GOOS H) "windows" then actual_path_var environ else "PATH".

Definition GetUpdatedEnvironment (m : EnvManager) (env : list (string * string))
  : list string :=
  let environ := Environ env in
  let '(result, updated) :=
    if (0 <? length (em_Paths m))%nat then
      let pathVar := path_var environ in
      let currentPath := Os.Getenv env pathVar in
      let newPaths := Str.Join (em_Paths m) (PathListSeparator H) in
      let newPaths :=
        if negb (Str.is_empty currentPath)
        then (newPaths ++ PathListSeparator H ++ currentPath)%string
        else newPaths in
      ([(pathVar ++ "=" ++ newPaths)%string], ({[ pathVar ]} : gset string))
    else ([], (∅ : gset string)) in
  let vars := range_order _ (em_Variables m) in
  let result := result ++ map (fun kv => (kv.1 ++ "=" ++ kv.2)%string) vars in
  let updated := fold_left (fun u kv => {[ kv.1 ]} ∪ u) vars updated in
  result ++ remaining updated environ.

(** A variable [os.Setenv] refuses. *)
Definition refused (kv : string * string) : Prop :=
  Os.setenv_refused kv.1 kv.2 = true.

(** The subprocesses run, oldest first. *)
Definition commands (t : list Event) : list (list string) :=
  omap (fun e => match e with EvExec argv => Some argv | _ => None end) t.

(** The command [VerifyDependency] runs for a dependency, if any. *)
Definition verify_command (m : Manager) (dep : Dependency) : list (list string) :=
  match Platforms dep !! Platform m with
  | Some platformConfig =>
      if (length (Verify (pc_Commands platformConfig)) =? 0)%nat then []
      else [Verify (pc_Commands platformConfig)]
  | None => []
  end.

(** From [w] to [w'] only the trace has changed, and it has only grown. *)
Definition only_traced (w w' : World) : Prop :=
  w_fs w' = w_fs w /\ w_env w' = w_env w /\ w_envmgr w' = w_envmgr w
  /\ w_trace w `prefix_of` w_trace w'.

(** From [w] to [w'] the accumulator has only grown: files, process
    environment and trace of commands are the same, the paths it had come
    first among those it has, without repetition if they had none, and
    every variable it had is still there. *)
Definition accumulated (w w' : World) : Prop :=
  w_fs w' = w_fs w /\ w_env w' = w_env w
  /\ commands (w_trace w') = commands (w_trace w)
  /\ em_Paths (w_envmgr w) `prefix_of` em_Paths (w_envmgr w')
  /\ (NoDup (em_Paths (w_envmgr w)) -> NoDup (em_Paths (w_envmgr w')))
  /\ (forall k, is_Some (em_Variables (w_envmgr w) !! k) ->
        is_Some (em_Variables (w_envmgr w') !! k)).

(** An order of visiting maps that a run can have: the entries of the map,
    each once. *)
Definition visits_entries : Prop :=
  forall (V : Type) (m : gmap string V), range_order V m ≡ₚ map_to_list m.

End MoreProgram.

(** *** The registry of package [manager] *)

Module Registry.

Record Dependency := mkDependency {
  Name : string;
  Version : string
}.

(** [NewManager]: no dependency.  The mutex of the manager orders the
    calls; each call is modelled as it runs alone. *)
Definition NewManager : gmap string Dependency := ∅.

Definition Add (dep : Dependency) (deps : gmap string Dependency)
  : option error * gmap string Dependency :=
  match deps !! Name dep with
  | Some _ => (Some (ErrLib "dependency already exists"), deps)
  | None => (None, <[Name dep := dep]> deps)
  end.

Definition Remove (name : string) (deps : gmap string Dependency)
  : option error * gmap string Dependency :=
  match deps !! name with
  | None => (Some (ErrLib "dependency not found"), deps)
  | Some _ => (None, delete name deps)
  end.

Definition List (range_order : forall V : Type, gmap string V -> list (string * V))
    (deps : gmap string Dependency) : list Dependency :=
  map snd (range_order _ deps).

(** Every entry is stored under its own name. *)
Definition keyed_by_name (deps : gmap string Dependency) : Prop :=
  forall key dep, deps !! key = Some dep -> Name dep = key.

End Registry.

(** ** A concrete host and sample manifests

    One machine the program can run on, for running the definitions above:
    a reading of the version syntax of the semver library, of the three
    patterns of [extractVersion], and of slash-separated paths. *)

Module Sample.

Fixpoint take_digits (s : string) : string * string :=
  match s with
  | String c r =>
      if Str.is_digit c
      then let '(d, rest) := take_digits r in (String c d, rest)
      else (EmptyString, s)
  | EmptyString => (EmptyString, EmptyString)
  end.

Fixpoint digits_value (acc : N) (s : string) : N :=
  match s with
  | EmptyString => acc
  | String c r => digits_value (acc * 10 + N.of_nat (nat_of_ascii c - 48))%N r
  end.

Fixpoint split_at (sep : ascii) (s : string) : string * option string :=
  match s with
  | EmptyString => (EmptyString, None)
  | String c r =>
      if Ascii.eqb c sep then (EmptyString, Some r)
      else let '(a, b) := split_at sep r in (String c a, b)
  end.

Definition strip_v (s : string) : string :=
  match s with
  | String "v"%char r => r
  | _ => s
  end.

(** One more dotted segment, 0 when the text does not go on with a dot. *)
Definition next_segment (s : string) : option (N * string) :=
  match s with
  | String "."%char r =>
      let '(d, rest) := take_digits r in
      if Str.is_empty d then None else Some (digits_value 0 d, rest)
  | _ => Some (0%N, s)
  end.

Definition uint64_max : N := 18446744073709551615.

Definition bad_version : error + Semver.Version :=
  inl (ErrLib "Invalid Semantic Version").

(** Versions as the semver library reads them: an optional [v], one to
    three dotted numbers, an optional [-prerelease], an optional
    [+metadata]. *)
Definition parse_version (s : string) : error + Semver.Version :=
  let '(d1, r1) := take_digits (strip_v s) in
  if Str.is_empty d1 then bad_version else
  match next_segment r1 with
  | None => bad_version
  | Some (mi, r2) =>
      match next_segment r2 with
      | None => bad_version
      | Some (pa, r3) =>
          let ma := digits_value 0 d1 in
          if (uint64_max <? ma)%N || (uint64_max <? mi)%N || (uint64_max <? pa)%N
          then bad_version else
          match r3 with
          | EmptyString => inr (Semver.mkVersion ma mi pa EmptyString EmptyString)
          | String "-"%char r =>
              let '(pre, meta) := split_at "+"%char r in
              if Str.is_empty pre then bad_version
              else inr (Semver.mkVersion ma mi pa pre (default EmptyString meta))
          | String "+"%char r =>
              if Str.is_empty r then bad_version
              else inr (Semver.mkVersion ma mi pa EmptyString r)
          | _ => bad_version
          end
      end
  end.

Definition compare_tags (a b : string) : Z :=
  match String.compare a b with
  | Lt => (-1)%Z
  | Eq => 0%Z
  | Gt => 1%Z
  end.

(** Constraints with one comparator: [=], [>=] or [^] before a version. *)
Definition parse_constraint (s : string) : error + (Semver.Version -> bool) :=
  let bad := inl (ErrLib "improper constraint") in
  match s with
  | String "^"%char r =>
      match parse_version r with
      | inr x => inr (fun v => Semver.GreaterOrEqual compare_tags v x
                               && (Semver.Major v =? Semver.Major x)%N)
      | inl _ => bad
      end
  | String ">"%char (String "="%char r) =>
      match parse_version r with
      | inr x => inr (fun v => Semver.GreaterOrEqual compare_tags v x)
      | inl _ => bad
      end
  | String "="%char r =>
      match parse_version r with
      | inr x => inr (fun v => Semver.Equal compare_tags v x)
      | inl _ => bad
      end
  | _ => bad
  end.

(** A match of digits, dot, digits, dot, digits at the start of [s]: the
    matched text and what follows it. *)
Definition core_here (s : string) : option (string * string) :=
  let '(d1, r1) := take_digits s in
  if Str.is_empty d1 then None else
  match r1 with
  | String "."%char r1 =>
      let '(d2, r2) := take_digits r1 in
      if Str.is_empty d2 then None else
      match r2 with
      | String "."%char r2 =>
          let '(d3, r3) := take_digits r2 in
          if Str.is_empty d3 then None
          else Some ((d1 ++ "." ++ d2 ++ "." ++ d3)%string, r3)
      | _ => None
      end
  | _ => None
  end.

Definition is_tag_char (c : ascii) : bool :=
  let n := nat_of_ascii c in
  Str.is_digit c || ((65 <=? n)%nat && (n <=? 90)%nat)
  || ((97 <=? n)%nat && (n <=? 122)%nat) || (n =? 45)%nat.

Fixpoint take_tag (s : string) : string :=
  match s with
  | String c r => if is_tag_char c then String c (take_tag r) else EmptyString
  | EmptyString => EmptyString
  end.

Fixpoint skip_spaces (s : string) : string * bool :=
  match s with
  | String c r =>
      if Str.is_space c then ((skip_spaces r).1, true) else (s, false)
  | EmptyString => (EmptyString, false)
  end.

(** One pattern tried at the start of [s]: the submatches, from 1 on. *)
Definition match_here (pattern : VersionPattern) (s : string) : option (list string) :=
  match pattern with
  | PatPlain =>
      match core_here (strip_v s) with
      | Some (core, _) => Some [core]
      | None => None
      end
  | PatVersionWord =>
      if String.prefix "version" s then
        let '(r, some) := skip_spaces (String.substring 7 (String.length s - 7) s) in
        if some then
          match core_here (strip_v r) with
          | Some (core, _) => Some [core]
          | None => None
          end
        else None
      else None
  | PatWithSuffix =>
      match core_here (strip_v s) with
      | Some (core, String c r) =>
          if Ascii.eqb c "-"%char || Ascii.eqb c "+"%char then
            let tag := take_tag r in
            if Str.is_empty tag then None else Some [core; tag]
          else None
      | _ => None
      end
  end.

(** [FindStringSubmatch]: the leftmost match; the whole match, which the
    program does not read, is left empty. *)
Fixpoint find_submatch (pattern : VersionPattern) (s : string) : list string :=
  match match_here pattern s with
  | Some groups => EmptyString :: groups
  | None =>
      match s with
      | EmptyString => []
      | String _ r => find_submatch pattern r
      end
  end.

Fixpoint last_segment (acc : string) (s : string) : string :=
  match s with
  | EmptyString => acc
  | String c r =>
      if Ascii.eqb c "/"%char then last_segment EmptyString r
      else last_segment (acc ++ String c EmptyString)%string r
  end.

Definition join_paths (l : list string) : string :=
  Str.Join (filter (fun s => s <> EmptyString) l) "/".

(** Digests of the bodies the samples download. *)
Definition digest (body : string) : string :=
  if String.eqb body "hello"
  then "2cf24dba5fb0a30e26e83b2ac5b9e29e1b161e5c1fa7425e73043362938b9824"
  else "e3b0c44298fc1c149afbf4c8996fb92427ae41e4649b934ca495991b7852b855".

(** A Linux machine whose directories can be written; the network and
    the installed programs are given by [get] and [run]. *)
Definition host (get : string -> World -> error + Response)
    (run : list string -> World -> CmdResult) : Host :=
  {| GOOS := "linux";
     PathListSeparator := ":";
     filepath_Base := last_segment EmptyString;
     filepath_Join := join_paths;
     filepath_Clean := fun p => p;
     NewVersion := parse_version;
     comparePrerelease := compare_tags;
     NewConstraint := parse_constraint;
     FindStringSubmatch := find_submatch;
     sha256_hex := digest;
     IsPathSeparator := fun c => Ascii.eqb c "/"%char;
     os_MkdirAll := fun _ _ => None;
     os_MkdirTemp := fun _ _ => inr "/tmp/depman-download-1";
     os_Create := fun _ _ => None;
     os_Remove := fun _ _ => None;
     http_Get := get;
     exec_Run := run |}.

(** A Windows machine: paths are joined with a backslash, and a file
    that is open cannot be removed.  The program removes one file only,
    the download it still holds open. *)
Fixpoint last_segment_windows (acc : string) (s : string) : string :=
  match s with
  | EmptyString => acc
  | String c r =>
      if Ascii.eqb c "/"%char || Ascii.eqb c "\"%char
      then last_segment_windows EmptyString r
      else last_segment_windows (acc ++ String c EmptyString)%string r
  end.

Definition sharing_violation : error :=
  ErrLib "The process cannot access the file because it is being used by another process.".

Definition windows_host (get : string -> World -> error + Response)
    (run : list string -> World -> CmdResult) : Host :=
  {| GOOS := "windows";
     PathListSeparator := ";";
     filepath_Base := last_segment_windows EmptyString;
     filepath_Join := fun l => Str.Join (filter (fun s => s <> EmptyString) l) "\";
     filepath_Clean := fun p => p;
     NewVersion := parse_version;
     comparePrerelease := compare_tags;
     NewConstraint := parse_constraint;
     FindStringSubmatch := find_submatch;
     sha256_hex := digest;
     IsPathSeparator := fun c => Ascii.eqb c "/"%char || Ascii.eqb c "\"%char;
     os_MkdirAll := fun _ _ => None;
     os_MkdirTemp := fun _ _ => inr "C:\Temp\depman-download-1";
     os_Create := fun _ _ => None;
     os_Remove := fun _ _ => Some sharing_violation;
     http_Get := get;
     exec_Run := run |}.

(** The two orders of visiting a map used by the samples. *)
Definition range_fwd (V : Type) (m : gmap string V) : list (string * V) :=
  map_to_list m.

Definition range_rev (V : Type) (m : gmap string V) : list (string * V) :=
  rev (map_to_list m).

Definition no_network (url : string) (w : World) : error + Response :=
  inl (ErrLib "dial tcp: connection refused").

Definition serve (code : Z) (status body : string) (url : string) (w : World)
  : error + Response :=
  inr {| StatusCode := code; Status := status; Body := body; BodyErr := None |}.

Definition ok (output : string) : CmdResult :=
  {| DeadlineExceeded := false; Output := output; CmdErr := None |}.

Definition failed (output : string) : CmdResult :=
  {| DeadlineExceeded := false; Output := output;
     CmdErr := Some (ErrLib "exit status 1") |}.

(** The machine with no network on which every command prints nothing. *)
Definition quiet_host : Host := host no_network (fun _ _ => ok "").

Definition empty_world : World :=
  {| w_fs := ∅; w_env := [("HOME", "/home/u"); ("PATH", "/usr/bin")];
     w_envmgr := NewEnvManager; w_trace := [] |}.

(** The machine on which every GET is answered with the given status
    and body. *)
Definition web_host (code : Z) (status body : string) : Host :=
  host (serve code status body) (fun _ _ => ok "").

(** A download of a file whose body is [hello], with its SHA-256 digest
    written in capitals, and the same with a digest that is not its own. *)
Definition dl_opts : DownloadOptions :=
  {| opt_URL := "https://example.com/tool.tar.gz";
     opt_Checksum :=
       "SHA256:2CF24DBA5FB0A30E26E83B2AC5B9E29E1B161E5C1FA7425E73043362938B9824";
     DestDir := "/tmp/dl"; Filename := EmptyString; ShowProgress := false |}.

Definition dl_opts_wrong : DownloadOptions :=
  {| opt_URL := "https://example.com/tool.tar.gz";
     opt_Checksum :=
       "sha256:0000000000000000000000000000000000000000000000000000000000000000";
     DestDir := "/tmp/dl"; Filename := EmptyString; ShowProgress := false |}.

(** The download with the wrong digest, into a directory of a Windows
    machine. *)
Definition dl_opts_wrong_windows : DownloadOptions :=
  {| opt_URL := "https://example.com/tool.tar.gz";
     opt_Checksum :=
       "sha256:0000000000000000000000000000000000000000000000000000000000000000";
     DestDir := "C:\Temp\dl"; Filename := EmptyString; ShowProgress := false |}.

(** A tool for Linux with no download: [install name] installs it and
    [name --version] prints its version. *)
Definition tool (name : string) (install : list string) (env : Environment)
  : Dependency :=
  {| Name := name; Description := EmptyString;
     dep_Version := {| Required := "1.0.0"; Constraint := "^1.0.0" |};
     Platforms :=
       {[ "linux" :=
            {| pc_Installer :=
                 {| InstallerType := "binary"; URL := EmptyString;
                    Checksum := EmptyString |};
               pc_Commands :=
                 {| Install := install; Verify := [name; "--version"];
                    Uninstall := [] |} |} ]};
     dep_Environment := env; Dependencies := [] |}.

Definition no_env : Environment := {| Path := None; Variables := ∅ |}.

Definition env_a : Environment :=
  {| Path := Some ["/opt/a/bin"]; Variables := {[ "A_HOME" := "/opt/a" ]} |}.

Definition tool_a : Dependency := tool "a" ["install"; "a"] env_a.
Definition tool_b : Dependency := tool "b" ["install"; "b"] no_env.

(** A tool whose install template is empty. *)
Definition tool_bare : Dependency := tool "bare" [] no_env.

Definition manager_of (deps : list Dependency) : Manager :=
  {| Config := Some {| cfg_Version := "1.0"; cfg_Name := "app";
                       cfg_Description := EmptyString;
                       cfg_Dependencies := deps |};
     ConfigPath := "app-dependencies.yml"; Platform := "linux" |}.

Definition ran (argv : list string) (w : World) : bool :=
  existsb (fun e => match e with
                    | EvExec a => bool_decide (a = argv)
                    | _ => false
                    end) (w_trace w).

(** The programs of a machine on which [install name] fails for the
    names in [broken], and [name --version] prints the version once
    [install name] has been run. *)
Definition run_tools (broken : list string) (argv : list string) (w : World)
  : CmdResult :=
  match argv with
  | [name; second] =>
      if String.eqb second "--version" then
        if ran ["install"; name] w then ok (name ++ " version 1.0.0")%string
        else failed "command not found"
      else if String.eqb name "install" then
        if existsb (String.eqb second) broken then failed "cannot install"
        else ok "done"
      else ok EmptyString
  | _ => ok EmptyString
  end.

Definition tools_host (broken : list string) : Host :=
  host no_network (run_tools broken).

(** The machine on which every command prints a text with no version. *)
Definition dev_host : Host :=
  host no_network (fun _ _ => ok "development build").

(** Three runs of [EnsureDependencies] on the manifest of [a] and [b]:
    with every install working and the map visited in the order [a], [b];
    the same with the map visited in the order [b], [a]; and with the
    install of [b] failing after that of [a] has worked. *)
Definition run_in_order :=
  EnsureDependencies (tools_host []) range_fwd
    (manager_of [tool_a; tool_b]) empty_world.

Definition run_reversed :=
  EnsureDependencies (tools_host []) range_rev
    (manager_of [tool_a; tool_b]) empty_world.

Definition run_aborted :=
  EnsureDependencies (tools_host ["b"]) range_fwd
    (manager_of [tool_a; tool_b]) empty_world.


(** A world in which [install b] has been run before: [b] is installed
    and [a] is not. *)
Definition world_with_b : World := emit (EvExec ["install"; "b"]) empty_world.

(** The working directory of the test of [FindDependencyFile]: it holds
    [app-dependencies.yml] and [config/app-dependencies.yml]. *)
Definition world_with_manifest : World :=
  set_fs (<["app-dependencies.yml" := "version: 1.0"]>
           (<["config/app-dependencies.yml" := "version: 1.0"]> ∅))
         empty_world.

(** An accumulator holding what [a] declares, and one holding a variable
    whose name the environment refuses. *)
Definition acc_a : EnvManager :=
  {| em_Variables := {[ "A_HOME" := "/opt/a" ]}; em_Paths := ["/opt/a/bin"] |}.

Definition acc_bad : EnvManager :=
  {| em_Variables := {[ "A=B" := "x" ]}; em_Paths := [] |}.

Definition applied_env : list (string * string) :=
  [("HOME", "/home/u"); ("PATH", "/opt/a/bin:/usr/bin"); ("A_HOME", "/opt/a")].

(** A parser that accepts no document. *)
Definition no_yaml (data : string) : error + DependencyConfig :=
  inl (ErrLib "yaml: unmarshal errors").

(** Downloads with an MD5 checksum and with none. *)
Definition dl_opts_md5 : DownloadOptions :=
  {| opt_URL := "https://example.com/tool.tar.gz";
     opt_Checksum := "md5:5d41402abc4b2a76b9719d911017c592";
     DestDir := "/tmp/dl"; Filename := EmptyString; ShowProgress := false |}.

Definition dl_opts_plain : DownloadOptions :=
  {| opt_URL := "https://example.com/tool.tar.gz"; opt_Checksum := EmptyString;
     DestDir := "/tmp/dl"; Filename := EmptyString; ShowProgress := false |}.

(** The machine whose server breaks off after three bytes. *)
Definition broken_response : Response :=
  {| StatusCode := 200; Status := "200 OK"; Body := "hel";
     BodyErr := Some (ErrLib "unexpected EOF") |}.

Definition broken_host : Host :=
  host (fun _ _ => inr broken_response) (fun _ _ => ok "").

(** The machine on which every command prints the version 1.0.0. *)
Definition ready_host : Host := host no_network (fun _ _ => ok "1.0.0").

(** A tool whose required version is not a version, with no constraint;
    a tool that is downloaded; a second declaration of the name [a]. *)
Definition tool_latest : Dependency :=
  {| Name := "latest"; Description := EmptyString;
     dep_Version := {| Required := "latest"; Constraint := EmptyString |};
     Platforms := Platforms (tool "latest" ["install"; "latest"] no_env);
     dep_Environment := no_env; Dependencies := [] |}.

Definition pc_net : PlatformConfig :=
  {| pc_Installer :=
       {| InstallerType := "binary"; URL := "https://example.com/net.tar.gz";
          Checksum := EmptyString |};
     pc_Commands :=
       {| Install := ["tar"; "-xzf"; "{download_path}"];
          Verify := ["net"; "--version"]; Uninstall := [] |} |}.

Definition tool_net : Dependency :=
  {| Name := "net"; Description := EmptyString;
     dep_Version := {| Required := "1.0.0"; Constraint := EmptyString |};
     Platforms := {[ "linux" := pc_net ]};
     dep_Environment := no_env; Dependencies := [] |}.

Definition tool_a_again : Dependency := tool "a" ["install"; "a2"] no_env.

(** The platform bundle of [tool name install env]. *)
Definition pc_of (name : string) (install : list string) : PlatformConfig :=
  {| pc_Installer :=
       {| InstallerType := "binary"; URL := EmptyString; Checksum := EmptyString |};
     pc_Commands :=
       {| Install := install; Verify := [name; "--version"]; Uninstall := [] |} |}.

Definition manifest_of (deps : list Dependency) : DependencyConfig :=
  {| cfg_Version := "1.0"; cfg_Name := "app"; cfg_Description := EmptyString;
     cfg_Dependencies := deps |}.

(** The check of [a] and [b] on the machine where both are installed. *)
Definition ready_check :=
  CheckAllDependencies ready_host (manager_of [tool_a; tool_b]) empty_world.

Definition ready_statuses : gmap string DependencyStatus :=
  match ready_check.1 with
  | Returned (Some statuses, _) => statuses
  | _ => ∅
  end.

(** The status of a dependency that is not declared. *)
Definition no_status : DependencyStatus :=
  {| st_Name := EmptyString; Installed := false; CurrentVersion := EmptyString;
     RequiredUpdate := NoUpdate; Compatible := false; Error := None |}.

(** The statuses the aborted run returns. *)
Definition aborted_statuses : gmap string DependencyStatus :=
  match run_aborted.1 with
  | Returned (Some statuses, _) => statuses
  | _ => ∅
  end.

(** A registry holding one dependency. *)
Definition git : Registry.Dependency :=
  {| Registry.Name := "git"; Registry.Version := "2.44.0" |}.

Definition one_registry : gmap string Registry.Dependency := {[ "git" := git ]}.

End Sample.

(** * Properties *)

(** ** Version classification *)

Lemma compareSegment_gt (a b : N) : (b < a)%N -> Semver.compareSegment a b = 1%Z.
Proof.
  intros Hlt. unfold Semver.compareSegment.
  destruct (N.ltb_spec a b) as [Hab|Hab]; [lia|].
  destruct (N.ltb_spec b a) as [Hba|Hba]; [reflexivity|lia].
Qed.

(** C2: a current version with a greater major and a smaller minor number
    than the required one is the newer version, and [CheckVersionUpdate]
    answers [MinorUpdate] for it. *)
Theorem CheckVersionUpdate_newer_major_minor_update
    (H : Host) (cur req : string) (c r : Semver.Version) :
  NewVersion H cur = inr c ->
  NewVersion H req = inr r ->
  (Semver.Major r < Semver.Major c)%N ->
  (Semver.Minor c < Semver.Minor r)%N ->
  Semver.GreaterOrEqual (comparePrerelease H) c r = true
  /\ CheckVersionUpdate H cur req = (MinorUpdate, None).
Proof.
  intros Hc Hr Hmaj Hmin.
  assert (Hcmp : Semver.Compare (comparePrerelease H) c r = 1%Z).
  { unfold Semver.Compare. rewrite (compareSegment_gt _ _ Hmaj). reflexivity. }
  split.
  - unfold Semver.GreaterOrEqual. rewrite Hcmp. reflexivity.
  - unfold CheckVersionUpdate, Semver.Equal. rewrite Hc, Hr, Hcmp. simpl.
    destruct (N.ltb_spec (Semver.Major c) (Semver.Major r)) as [Hlt|_]; [lia|].
    destruct (N.ltb_spec (Semver.Minor c) (Semver.Minor r)) as [_|Hge]; [reflexivity|lia].
Qed.

Lemma CheckVersionUpdate_newer_major_minor_update_witness :
  Semver.GreaterOrEqual (comparePrerelease Sample.quiet_host)
    (Semver.mkVersion 2 0 0 "" "") (Semver.mkVersion 1 5 0 "" "") = true
  /\ CheckVersionUpdate Sample.quiet_host "2.0.0" "1.5.0" = (MinorUpdate, None).
Proof.
  apply (CheckVersionUpdate_newer_major_minor_update Sample.quiet_host "2.0.0" "1.5.0");
    [reflexivity | reflexivity | simpl; lia | simpl; lia].
Defined.

(** ** Locating the manifest *)

(** C6: with a custom path that does not exist, alone or with [.yml]
    added, [FindDependencyFile] goes on to the standard locations and
    returns the first of them that exists, without an error. *)
Theorem FindDependencyFile_custom_missing_falls_back
    (H : Host) (w : World) (customPath p : string) :
  customPath <> EmptyString ->
  path_exists w customPath = false ->
  path_exists w (customPath ++ ".yml")%string = false ->
  first_existing w (searchPaths H w) = Some p ->
  FindDependencyFile H w customPath = (p, None).
Proof.
  intros Hne Hmiss Hext Hstd.
  unfold FindDependencyFile, custom_hit.
  destruct customPath as [|c rest]; [congruence|].
  cbn [Str.is_empty negb]. rewrite Hmiss, Hext, Hstd.
  destruct (negb _ && negb _); reflexivity.
Qed.

Lemma FindDependencyFile_custom_missing_falls_back_witness :
  FindDependencyFile Sample.quiet_host Sample.world_with_manifest "not-exists.yml"
  = ("app-dependencies.yml", None).
Proof.
  apply (FindDependencyFile_custom_missing_falls_back Sample.quiet_host);
    [discriminate | vm_compute; reflexivity | vm_compute; reflexivity
    | vm_compute; reflexivity].
Defined.

(** ** The downloader *)

Section DownloadFacts.

Variable H : Host.
Variables (opts : DownloadOptions) (w : World).

Hypothesis mkdir_ok : os_MkdirAll H (DestDir opts) w = None.
Hypothesis create_ok : os_Create H (destPath H opts) w = None.

(** The world once the request has been issued. *)
Let requested : World := emit (EvHttpGet (opt_URL opts)) (created H opts w).

Lemma Download_request_error (e : error) :
  http_Get H (opt_URL opts) (created H opts w) = inl e ->
  Download H opts w = (None, Some (ErrDownloadFile e), requested).
Proof.
  intros Hget. unfold created, destPath in *. unfold Download.
  rewrite mkdir_ok, create_ok, Hget. reflexivity.
Qed.

Lemma Download_status_rejected (resp : Response) :
  http_Get H (opt_URL opts) (created H opts w) = inr resp ->
  StatusCode resp <> StatusOK ->
  Download H opts w = (None, Some (ErrBadStatus (Status resp)), requested).
Proof.
  intros Hget Hcode. unfold created, destPath in *. unfold Download.
  rewrite mkdir_ok, create_ok, Hget.
  destruct (Z.eqb_spec (StatusCode resp) StatusOK) as [Heq|_]; [contradiction|].
  reflexivity.
Qed.

(** What [Download] returns for a response with status 200. *)
Lemma Download_status_ok (resp : Response) :
  http_Get H (opt_URL opts) (created H opts w) = inr resp ->
  StatusCode resp = StatusOK ->
  let parts := Str.Split ":"%char (opt_Checksum opts) in
  let wanted := negb (Str.is_empty (opt_Checksum opts)) in
  let algorithm := Str.ToLower (nth 0 parts EmptyString) in
  let streamed := streamed H opts (Body resp) w in
  let expected := nth 1 parts EmptyString in
  let actual := sha256_hex H (Body resp) in
  Download H opts w =
    if wanted && negb (length parts =? 2)%nat
    then (None, Some ErrChecksumFormat, requested)
    else if wanted && negb (String.eqb algorithm "sha256")
    then (None, Some (ErrUnsupportedAlgorithm algorithm), requested)
    else match BodyErr resp with
         | Some err => (None, Some (ErrWriteFile err), streamed)
         | None =>
             if wanted then
               if negb (Str.EqualFold actual expected)
               then (None, Some (ErrChecksumMismatch expected actual),
                     match os_Remove H (destPath H opts) streamed with
                     | None => set_fs (delete (destPath H opts) (w_fs streamed)) streamed
                     | Some _ => streamed
                     end)
               else (Some {| FilePath := destPath H opts;
                             Size := Z.of_nat (String.length (Body resp));
                             res_Checksum := actual |}, None, streamed)
             else (Some {| FilePath := destPath H opts;
                           Size := Z.of_nat (String.length (Body resp));
                           res_Checksum := EmptyString |}, None, streamed)
         end.
Proof.
  intros Hget Hcode. unfold streamed, requested, created, destPath in *.
  unfold Download. rewrite mkdir_ok, create_ok, Hget, Hcode. reflexivity.
Qed.

Lemma requested_file_empty :
  w_fs requested !! destPath H opts = Some EmptyString.
Proof. unfold requested, created. simpl. apply lookup_insert_eq. Qed.

(** C10: the file is created before the request is sent.  When the
    request fails, or the status of the response is refused, the call
    returns with the empty file at the destination path; and whenever
    the call returns with no file there, it returns a checksum
    mismatch. *)
Theorem Download_failure_leaves_empty_file :
  (forall e, http_Get H (opt_URL opts) (created H opts w) = inl e ->
     exists w', Download H opts w = (None, Some (ErrDownloadFile e), w')
                /\ w_fs w' !! destPath H opts = Some EmptyString)
  /\ (forall resp, http_Get H (opt_URL opts) (created H opts w) = inr resp ->
        StatusCode resp <> StatusOK ->
        exists w', Download H opts w = (None, Some (ErrBadStatus (Status resp)), w')
                   /\ w_fs w' !! destPath H opts = Some EmptyString)
  /\ (forall r e w', Download H opts w = (r, e, w') ->
        w_fs w' !! destPath H opts = None ->
        exists expected actual, e = Some (ErrChecksumMismatch expected actual)).
Proof.
  split; [|split].
  - intros e Hget. exists requested. split.
    + apply Download_request_error, Hget.
    + apply requested_file_empty.
  - intros resp Hget Hcode. exists requested. split.
    + apply Download_status_rejected; assumption.
    + apply requested_file_empty.
  - intros r e w' Hrun Hgone.
    destruct (http_Get H (opt_URL opts) (created H opts w)) as [e0|resp] eqn:Hget.
    { rewrite (Download_request_error e0 Hget) in Hrun.
      inversion Hrun; subst. rewrite requested_file_empty in Hgone. discriminate. }
    destruct (Z.eq_dec (StatusCode resp) StatusOK) as [Hcode|Hcode].
    2:{ rewrite (Download_status_rejected resp Hget Hcode) in Hrun.
        inversion Hrun; subst. rewrite requested_file_empty in Hgone. discriminate. }
    rewrite (Download_status_ok resp Hget Hcode) in Hrun. cbv zeta in Hrun.
    repeat match type of Hrun with
           | (if ?c then _ else _) = _ => destruct c
           | match ?x with Some _ => _ | None => _ end = _ => destruct x
           end;
      inversion Hrun; subst; clear Hrun;
      try (rewrite requested_file_empty in Hgone; discriminate);
      try (simpl in Hgone; rewrite lookup_insert_eq in Hgone; discriminate).
    eauto.
Qed.

(** C7 (amended): once the response is there, [Download] fails with the
    bad-status error exactly when the status code is not 200. *)
Theorem Download_bad_status_iff_not_200 (resp : Response) :
  http_Get H (opt_URL opts) (created H opts w) = inr resp ->
  (exists status, (Download H opts w).1.2 = Some (ErrBadStatus status))
  <-> StatusCode resp <> StatusOK.
Proof.
  intros Hget. split.
  - intros [status Herr] Hcode.
    rewrite (Download_status_ok resp Hget Hcode) in Herr. cbv zeta in Herr.
    repeat match type of Herr with
           | context [if ?c then _ else _] => destruct c
           | context [match ?x with Some _ => _ | None => _ end] => destruct x
           end; simpl in Herr; discriminate.
  - intros Hcode. exists (Status resp).
    rewrite (Download_status_rejected resp Hget Hcode). reflexivity.
Qed.

(** C4: a download with a checksum whose stream has completed.  The
    digest of the body is compared with the expected one up to letter
    case.  When they differ the call fails with both digests, and the
    file, which [os.Remove] is asked to delete while it is still open, is
    gone only if the host removes it: where the host refuses, the error
    is dropped and the file stays with the body in it.  When they agree
    the call returns the path, the number of bytes and the digest, and
    the file holds the body. *)
Theorem Download_checksum_verdict (resp : Response) (alg expected : string) :
  opt_Checksum opts <> EmptyString ->
  http_Get H (opt_URL opts) (created H opts w) = inr resp ->
  StatusCode resp = StatusOK ->
  Str.Split ":"%char (opt_Checksum opts) = [alg; expected] ->
  Str.ToLower alg = "sha256" ->
  BodyErr resp = None ->
  let actual := sha256_hex H (Body resp) in
  let removal := os_Remove H (destPath H opts) (streamed H opts (Body resp) w) in
  (Str.ToLower actual <> Str.ToLower expected ->
     exists w', Download H opts w
                = (None, Some (ErrChecksumMismatch expected actual), w')
                /\ (removal = None -> w_fs w' !! destPath H opts = None)
                /\ (removal <> None ->
                    w_fs w' !! destPath H opts = Some (Body resp)))
  /\ (Str.ToLower actual = Str.ToLower expected ->
        exists w', Download H opts w
                   = (Some {| FilePath := destPath H opts;
                              Size := Z.of_nat (String.length (Body resp));
                              res_Checksum := actual |}, None, w')
                   /\ w_fs w' !! destPath H opts = Some (Body resp)).
Proof.
  intros Hwanted Hget Hcode Hparts Halg Hbody actual removal.
  pose proof (Download_status_ok resp Hget Hcode) as Hrun. cbv zeta in Hrun.
  rewrite Hparts, Hbody in Hrun. cbn [length nth Nat.eqb negb andb] in Hrun.
  rewrite Halg, String.eqb_refl in Hrun.
  destruct (opt_Checksum opts) as [|c0 cs] eqn:Hsum; [congruence|].
  cbn [Str.is_empty negb andb] in Hrun. unfold Str.EqualFold in Hrun.
  split; intros Hcmp.
  - apply String.eqb_neq in Hcmp. fold actual in Hrun. rewrite Hcmp in Hrun.
    fold removal in Hrun.
    eexists. split; [exact Hrun|]. split; intros Hrem.
    + rewrite Hrem. simpl. apply lookup_delete_eq.
    + destruct removal; [|congruence]. simpl. apply lookup_insert_eq.
  - apply String.eqb_eq in Hcmp. fold actual in Hrun. rewrite Hcmp in Hrun.
    eexists. split; [exact Hrun|]. simpl. apply lookup_insert_eq.
Qed.

End DownloadFacts.

Lemma Download_failure_leaves_empty_file_witness :
  exists w', Download Sample.quiet_host Sample.dl_opts Sample.empty_world
             = (None, Some (ErrDownloadFile (ErrLib "dial tcp: connection refused")), w')
             /\ w_fs w' !! "/tmp/dl/tool.tar.gz" = Some EmptyString.
Proof.
  destruct (Download_failure_leaves_empty_file Sample.quiet_host Sample.dl_opts
              Sample.empty_world eq_refl eq_refl) as [Hreq _].
  apply Hreq. reflexivity.
Defined.

(** C7, as stated, fails: a response with status 203 is in the success
    class, and [Download] refuses it with the bad-status error, leaving
    the file empty. *)
Lemma Download_rejects_203 :
  (200 <= 203 < 300)%Z
  /\ exists w',
       Download (Sample.web_host 203 "203 Non-Authoritative Information" "hello")
         Sample.dl_opts Sample.empty_world
       = (None, Some (ErrBadStatus "203 Non-Authoritative Information"), w')
       /\ w_fs w' !! "/tmp/dl/tool.tar.gz" = Some EmptyString.
Proof.
  split; [lia|]. eexists. split; [vm_compute; reflexivity|]. vm_compute. reflexivity.
Qed.

Lemma Download_bad_status_iff_not_200_witness :
  (exists status,
     (Download (Sample.web_host 203 "203 Non-Authoritative Information" "hello")
        Sample.dl_opts Sample.empty_world).1.2 = Some (ErrBadStatus status))
  <-> 203%Z <> StatusOK.
Proof.
  apply (Download_bad_status_iff_not_200
           (Sample.web_host 203 "203 Non-Authoritative Information" "hello")
           Sample.dl_opts Sample.empty_world eq_refl eq_refl
           {| StatusCode := 203; Status := "203 Non-Authoritative Information";
              Body := "hello"; BodyErr := None |}).
  reflexivity.
Defined.

Lemma Download_checksum_verdict_witness :
  exists w',
    Download (Sample.windows_host (Sample.serve 200 "200 OK" "hello") (fun _ _ => Sample.ok ""))
      Sample.dl_opts_wrong_windows Sample.empty_world
    = (None,
       Some (ErrChecksumMismatch
               "0000000000000000000000000000000000000000000000000000000000000000"
               "2cf24dba5fb0a30e26e83b2ac5b9e29e1b161e5c1fa7425e73043362938b9824"),
       w')
    /\ w_fs w' !! "C:\Temp\dl\tool.tar.gz" = Some "hello".
Proof.
  destruct (Download_checksum_verdict
              (Sample.windows_host (Sample.serve 200 "200 OK" "hello")
                 (fun _ _ => Sample.ok ""))
              Sample.dl_opts_wrong_windows Sample.empty_world eq_refl eq_refl
              {| StatusCode := 200; Status := "200 OK";
                 Body := "hello"; BodyErr := None |}
              "sha256"
              "0000000000000000000000000000000000000000000000000000000000000000")
    as [Hbad _];
    [discriminate | reflexivity | reflexivity | reflexivity | reflexivity
    | reflexivity |].
  destruct Hbad as (w' & Hrun & _ & Hstays); [vm_compute; discriminate|].
  exists w'. split; [exact Hrun|]. apply Hstays. discriminate.
Defined.

(** On the Linux machine the same download leaves no file. *)
Example Download_mismatch_removes_file :
  exists w',
    Download (Sample.web_host 200 "200 OK" "hello") Sample.dl_opts_wrong
      Sample.empty_world
    = (None,
       Some (ErrChecksumMismatch
               "0000000000000000000000000000000000000000000000000000000000000000"
               "2cf24dba5fb0a30e26e83b2ac5b9e29e1b161e5c1fa7425e73043362938b9824"),
       w')
    /\ w_fs w' !! "/tmp/dl/tool.tar.gz" = None.
Proof. eexists. split; vm_compute; reflexivity. Qed.

(** A digest written in capitals is accepted: the comparison is up to
    letter case. *)
Example Download_accepts_capitals :
  (Download (Sample.web_host 200 "200 OK" "hello") Sample.dl_opts
     Sample.empty_world).1
  = (Some {| FilePath := "/tmp/dl/tool.tar.gz"; Size := 5;
             res_Checksum :=
               "2cf24dba5fb0a30e26e83b2ac5b9e29e1b161e5c1fa7425e73043362938b9824" |},
     None).
Proof. vm_compute. reflexivity. Qed.

(** ** Verification of one dependency *)

Section VerifyFacts.

Variable H : Host.

Lemma classify_spec (dep : Dependency) (outputStr : string)
    (status0 : DependencyStatus) (w : World) :
  let cur := current_of H outputStr in
  let req := Required (dep_Version dep) in
  let con := Constraint (dep_Version dep) in
  let status := (classify H dep outputStr status0 w).1 in
  Installed status = true
  /\ CurrentVersion status = cur
  /\ (forall u e, req <> EmptyString ->
        CheckVersionUpdate H cur req = (u, Some e) ->
        is_Some (Error status)
        /\ ((IsVersionCompatible H cur con).2 = None \/ con = EmptyString ->
            Error status = Some e))
  /\ (forall b e, con <> EmptyString ->
        IsVersionCompatible H cur con = (b, Some e) -> Error status = Some e)
  /\ (con = EmptyString -> Compatible status = true).
Proof.
  intros cur req con status. subst status. unfold classify.
  fold (current_of H outputStr). fold cur. fold req. fold con.
  assert (Hcur : CurrentVersion
                   (if negb (Str.is_empty (extractVersion H outputStr))
                    then with_version (extractVersion H outputStr)
                           (with_version outputStr (with_installed true status0))
                    else with_version outputStr (with_installed true status0))
                 = cur).
  { unfold cur, current_of.
    destruct (negb (Str.is_empty (extractVersion H outputStr))); reflexivity. }
  assert (Hinst : Installed
                   (if negb (Str.is_empty (extractVersion H outputStr))
                    then with_version (extractVersion H outputStr)
                           (with_version outputStr (with_installed true status0))
                    else with_version outputStr (with_installed true status0))
                 = true).
  { destruct (negb (Str.is_empty (extractVersion H outputStr))); reflexivity. }
  set (s1 := if negb (Str.is_empty (extractVersion H outputStr)) then _ else _) in *.
  rewrite Hcur.
  destruct req as [|rc rr] eqn:Hreq; cbn [Str.is_empty negb];
    [|destruct (CheckVersionUpdate H cur (String rc rr)) as [u [e|]] eqn:Hupd];
    (destruct con as [|cc cr] eqn:Hcon; cbn [Str.is_empty negb];
     [|cbn [CurrentVersion with_error with_update]; rewrite ?Hcur;
       destruct (IsVersionCompatible H cur (String cc cr)) as [b [e'|]] eqn:Hcompat]);
    cbn; rewrite ?Hinst, ?Hcur;
    (split; [reflexivity|]); (split; [reflexivity|]);
    (split; [|split]); intros; simplify_eq; eauto;
    try (split; [eauto|]; intros [?|?]; simplify_eq; eauto).
Qed.

(** C8 (amended): once the verify command has succeeded,
    [VerifyDependency] returns no error.  A failure of
    [IsVersionCompatible] is in the [Error] field of the status it
    returns; a failure of [CheckVersionUpdate] is in that field when the
    compatibility check is not made or does not fail, and is overwritten
    by the error of the compatibility check when both fail; without a
    constraint the status is compatible. *)
Theorem VerifyDependency_records_version_failures
    (m : Manager) (dep : Dependency) (w : World) (pc : PlatformConfig) :
  Platforms dep !! Platform m = Some pc ->
  Verify (pc_Commands pc) <> [] ->
  let r := exec_Run H (Verify (pc_Commands pc))
             (logf LevelInfo "Verifying dependency: %s" [ArgS (Name dep)] w) in
  DeadlineExceeded r = false ->
  CmdErr r = None ->
  let cur := current_of H (Str.TrimSpace (Output r)) in
  let req := Required (dep_Version dep) in
  let con := Constraint (dep_Version dep) in
  exists status w',
    VerifyDependency H m dep w = (status, None, w')
    /\ Installed status = true
    /\ CurrentVersion status = cur
    /\ (forall u e, req <> EmptyString ->
          CheckVersionUpdate H cur req = (u, Some e) ->
          is_Some (Error status)
          /\ ((IsVersionCompatible H cur con).2 = None \/ con = EmptyString ->
              Error status = Some e))
    /\ (forall b e, con <> EmptyString ->
          IsVersionCompatible H cur con = (b, Some e) -> Error status = Some e)
    /\ (con = EmptyString -> Compatible status = true).
Proof.
  intros Hpc Hverify r Hdeadline Hcmd cur req con.
  unfold VerifyDependency, GetPlatformConfig. rewrite Hpc.
  destruct (Verify (pc_Commands pc)) as [|v0 vs] eqn:Hv; [congruence|].
  cbn [length Nat.eqb]. fold r. rewrite Hdeadline, Hcmd.
  destruct (classify H dep (Str.TrimSpace (Output r)) _ _) as [status w'] eqn:Hcl.
  exists status, w'. split; [reflexivity|].
  pose proof (classify_spec dep (Str.TrimSpace (Output r))
                {| st_Name := Name dep; Installed := false;
                   CurrentVersion := EmptyString; RequiredUpdate := NoUpdate;
                   Compatible := false; Error := None |}
                (emit (EvExec (v0 :: vs))
                   (logf LevelInfo "Verifying dependency: %s" [ArgS (Name dep)] w)))
    as Hspec.
  cbv zeta in Hspec. rewrite Hcl in Hspec. exact Hspec.
Qed.

End VerifyFacts.

(** ** Installation of one dependency *)

Section InstallFacts.

Variable H : Host.

(** C9: a dependency whose install template for the platform is empty.
    Validation reports for it only what it reports about its version,
    whatever the template; [installDependency] never returns success for
    it, and panics on the first element of the empty argument vector
    whenever it gets as far as the command, that is when the temporary
    directory and the download, if there is one, succeed; an empty
    verify template makes [VerifyDependency] return an error. *)
Theorem installDependency_empty_template_panics
    (m : Manager) (dep : Dependency) (w : World) (pc : PlatformConfig) :
  Platforms dep !! Platform m = Some pc ->
  Install (pc_Commands pc) = [] ->
  validate_dep H m dep = version_errors H dep
  /\ (forall w', installDependency H m dep w <> (Returned None, w'))
  /\ (forall tempDir,
        os_MkdirTemp H "depman-download-*" w = inr tempDir ->
        (URL (pc_Installer pc) = EmptyString
         \/ exists result w1,
              Download H (download_options pc tempDir)
                (logf LevelInfo "Downloading %s from %s"
                   [ArgS (Name dep); ArgS (URL (pc_Installer pc))] w)
              = (Some result, None, w1)) ->
        exists w', installDependency H m dep w
                   = (Panicked "index out of range [0] with length 0", w'))
  /\ (Verify (pc_Commands pc) = [] ->
      exists status,
        VerifyDependency H m dep w
        = (status, Some (ErrNoVerifyCommand (Name dep)), w)
        /\ Error status = Some (ErrNoVerifyCommand (Name dep))
        /\ Installed status = false).
Proof.
  intros Hpc Hinstall. split; [|split; [|split]].
  - unfold validate_dep. rewrite Hpc. reflexivity.
  - intros w'. unfold installDependency, GetPlatformConfig. rewrite Hpc.
    destruct (os_MkdirTemp H _ w) as [e|tempDir]; [discriminate|].
    unfold install_in. rewrite Hinstall.
    destruct (negb (Str.is_empty (URL (pc_Installer pc)))).
    + destruct (Download H _ _) as [[[result|] [e|]] w1]; simpl; discriminate.
    + simpl. discriminate.
  - intros tempDir Htemp Hreach.
    unfold installDependency, GetPlatformConfig. rewrite Hpc, Htemp.
    unfold install_in. rewrite Hinstall.
    destruct Hreach as [Hurl|(result & w1 & Hdl)].
    + rewrite Hurl. simpl. eauto.
    + destruct (negb (Str.is_empty (URL (pc_Installer pc)))).
      * rewrite Hdl. simpl. eauto.
      * simpl. eauto.
  - intros Hverify. unfold VerifyDependency, GetPlatformConfig.
    rewrite Hpc, Hverify. simpl. eauto.
Qed.

End InstallFacts.

(** ** What each function leaves alone *)

Section Frames.

Variable H : Host.
Variable range_order : forall V : Type, gmap string V -> list (string * V).

Lemma quiet_refl (w : World) : quiet w w.
Proof. repeat split. Qed.

Lemma quiet_trans (w1 w2 w3 : World) : quiet w1 w2 -> quiet w2 w3 -> quiet w1 w3.
Proof. intros (?&?&?) (?&?&?). repeat split; congruence. Qed.

Lemma quiet_set_fs (fs : gmap string string) (w : World) : quiet w (set_fs fs w).
Proof. repeat split. Qed.

Lemma quiet_set_envmgr (em : EnvManager) (w : World) : quiet w (set_envmgr em w).
Proof. repeat split. Qed.

Lemma quiet_emit (e : Event) (w : World) :
  announced "Verifying dependency: %s" e = None ->
  announced "Installing %s using command: %s" e = None ->
  quiet w (emit e w).
Proof.
  intros Hv Hi. unfold quiet, verifications, installations. simpl.
  rewrite !omap_app. simpl. rewrite Hv, Hi, !app_nil_r. repeat split.
Qed.

Lemma verifications_emit (e : Event) (w : World) :
  verifications (w_trace (emit e w))
  = verifications (w_trace w)
    ++ option_list (announced "Verifying dependency: %s" e).
Proof.
  unfold verifications. simpl. rewrite omap_app. simpl.
  destruct (announced _ e); reflexivity.
Qed.

Lemma installations_emit (e : Event) (w : World) :
  installations (w_trace (emit e w))
  = installations (w_trace w)
    ++ option_list (announced "Installing %s using command: %s" e).
Proof.
  unfold installations. simpl. rewrite omap_app. simpl.
  destruct (announced _ e); reflexivity.
Qed.

Lemma quiet_Download (opts : DownloadOptions) (w : World) :
  quiet w (Download H opts w).2.
Proof.
  unfold Download.
  repeat match goal with
         | |- context [match ?x with _ => _ end] => destruct x
         end; cbn [snd];
    repeat (first [ apply quiet_refl
                  | eapply quiet_trans; [|apply quiet_set_fs]
                  | eapply quiet_trans; [|apply quiet_emit; reflexivity] ]).
Qed.

Ltac split_matches :=
  repeat match goal with
         | |- context [match ?x with _ => _ end] => destruct x
         end.

Ltac quiet_steps :=
  repeat (first [ apply quiet_refl
                | eapply quiet_trans; [|apply quiet_set_fs]
                | eapply quiet_trans; [|apply quiet_set_envmgr]
                | eapply quiet_trans; [|apply quiet_emit; reflexivity] ]).

Lemma quiet_classify (dep : Dependency) (outputStr : string)
    (status : DependencyStatus) (w : World) :
  quiet w (classify H dep outputStr status w).2.
Proof.
  unfold classify, logf.
  match goal with
  | |- context [match ?p with _ => _ end] =>
      assert (Hmid : quiet w p.2);
      [|destruct p as [status1 w1]; cbn [snd] in Hmid]
  end.
  - split_matches; cbn [snd]; quiet_steps.
  - split_matches; cbn [snd];
      (eapply quiet_trans; [exact Hmid|]); quiet_steps.
Qed.

Lemma VerifyDependency_frame (m : Manager) (dep : Dependency) (w : World) :
  let w' := (VerifyDependency H m dep w).2 in
  w_env w' = w_env w
  /\ installations (w_trace w') = installations (w_trace w)
  /\ verifications (w_trace w')
     = verifications (w_trace w) ++ (if verifiable m dep then [Name dep] else []).
Proof.
  unfold VerifyDependency, GetPlatformConfig, verifiable.
  destruct (Platforms dep !! Platform m) as [pc|]; cbn [snd];
    [|rewrite app_nil_r; repeat split].
  destruct (length (Verify (pc_Commands pc)) =? 0)%nat; cbn [snd negb];
    [rewrite app_nil_r; repeat split|].
  set (w1 := emit (EvExec _) (logf _ _ _ w)).
  assert (Hw1 : w_env w1 = w_env w
                /\ installations (w_trace w1) = installations (w_trace w)
                /\ verifications (w_trace w1)
                   = verifications (w_trace w) ++ [Name dep]).
  { subst w1. unfold logf. repeat split.
    - rewrite !installations_emit. simpl. rewrite !app_nil_r. reflexivity.
    - rewrite !verifications_emit. simpl. rewrite !app_nil_r. reflexivity. }
  destruct Hw1 as (He & Hi & Hv).
  destruct (DeadlineExceeded _); cbn [snd]; [repeat split; assumption|].
  destruct (CmdErr _); cbn [snd]; [repeat split; assumption|].
  pose proof (quiet_classify dep
                (Str.TrimSpace (Output (exec_Run H (Verify (pc_Commands pc))
                   (logf LevelInfo "Verifying dependency: %s" [ArgS (Name dep)] w))))
                {| st_Name := Name dep; Installed := false;
                   CurrentVersion := EmptyString; RequiredUpdate := NoUpdate;
                   Compatible := false; Error := None |} w1) as (Qe & Qv & Qi).
  destruct (classify H dep _ _ w1) as [status w2]. cbn [snd] in *.
  repeat split; congruence.
Qed.

Lemma fold_left_quiet {A : Type} (f : World -> A -> World) (l : list A) :
  (forall w a, quiet w (f w a)) -> forall w, quiet w (fold_left f l w).
Proof.
  intros Hf. induction l as [|a l IH]; intros w; simpl.
  - apply quiet_refl.
  - eapply quiet_trans; [apply Hf|apply IH].
Qed.

Lemma quiet_setupDependencyEnvironment (dep : Dependency) (w : World) :
  quiet w (setupDependencyEnvironment H range_order dep w).2.
Proof.
  unfold setupDependencyEnvironment.
  destruct (bool_decide _ && _); cbn [snd]; [apply quiet_refl|].
  eapply quiet_trans;
    [|apply fold_left_quiet; intros w0 a; unfold logf; quiet_steps].
  apply fold_left_quiet; intros w0 a; unfold logf; quiet_steps.
Qed.

Lemma quiet_RemoveAll (dir : string) (w : World) : quiet w (RemoveAll H dir w).
Proof. apply quiet_set_fs. Qed.

(** What [install_in] announces: at most the installation of [dep], and
    exactly that unless it returns an error. *)
Lemma install_in_frame (dep : Dependency) (pc : PlatformConfig)
    (tempDir : string) (w : World) :
  let r := (install_in H dep pc tempDir w).1 in
  let w' := (install_in H dep pc tempDir w).2 in
  w_env w' = w_env w
  /\ verifications (w_trace w') = verifications (w_trace w)
  /\ exists l, installations (w_trace w') = installations (w_trace w) ++ l
               /\ (l = [] \/ l = [Name dep])
               /\ ((forall e, r <> Returned (Some e)) -> l = [Name dep]).
Proof.
  unfold install_in.
  set (dl := if negb (Str.is_empty (URL (pc_Installer pc))) then _ else _).
  assert (Hdl : quiet w dl.2).
  { subst dl. destruct (negb _); cbn [snd]; [|apply quiet_refl].
    pose proof (quiet_Download (download_options pc tempDir)
                  (logf LevelInfo "Downloading %s from %s"
                     [ArgS (Name dep); ArgS (URL (pc_Installer pc))] w)) as Hq.
    destruct (Download H _ _) as [[[result|] [e|]] w1]; cbn [snd] in *;
      unfold logf in *;
      (eapply quiet_trans;
       [|eapply quiet_trans; [exact Hq|quiet_steps]]);
      apply quiet_emit; reflexivity. }
  destruct dl as [[downloadPath failed] w1]. cbn [snd] in Hdl.
  destruct Hdl as (He & Hv & Hi).
  destruct failed as [e|]; cbn [fst snd].
  { repeat split; try assumption. exists []. rewrite app_nil_r.
    repeat split; [assumption|left; reflexivity|].
    intros Hno. exfalso. exact (Hno _ eq_refl). }
  set (cmd := map _ (Install (pc_Commands pc))).
  set (w2 := logf LevelInfo "Installing %s using command: %s" _ w1).
  assert (Hw2 : w_env w2 = w_env w
                /\ verifications (w_trace w2) = verifications (w_trace w)
                /\ installations (w_trace w2)
                   = installations (w_trace w) ++ [Name dep]).
  { subst w2. unfold logf. repeat split; try assumption.
    - rewrite verifications_emit. simpl. rewrite app_nil_r. assumption.
    - rewrite installations_emit. simpl. rewrite Hi. reflexivity. }
  destruct Hw2 as (He2 & Hv2 & Hi2).
  destruct cmd as [|c0 cs]; cbn [fst snd].
  { repeat split; try assumption. exists [Name dep]. auto. }
  destruct (CmdErr _); cbn [fst snd].
  - repeat split; try assumption.
    + rewrite verifications_emit. simpl. rewrite app_nil_r. assumption.
    + exists [Name dep]. rewrite installations_emit. simpl. rewrite app_nil_r.
      auto.
  - unfold logf. repeat split; try assumption.
    + rewrite !verifications_emit. simpl. rewrite !app_nil_r. assumption.
    + exists [Name dep]. rewrite !installations_emit. simpl. rewrite !app_nil_r.
      auto.
Qed.

Lemma installDependency_frame (m : Manager) (dep : Dependency) (w : World) :
  let r := (installDependency H m dep w).1 in
  let w' := (installDependency H m dep w).2 in
  w_env w' = w_env w
  /\ verifications (w_trace w') = verifications (w_trace w)
  /\ exists l, installations (w_trace w') = installations (w_trace w) ++ l
               /\ (l = [] \/ l = [Name dep])
               /\ ((forall e, r <> Returned (Some e)) -> l = [Name dep]).
Proof.
  unfold installDependency, GetPlatformConfig.
  destruct (Platforms dep !! Platform m) as [pc|]; cbn [fst snd].
  2:{ repeat split. exists []. rewrite app_nil_r. repeat split; [auto|].
      intros Hno. exfalso. exact (Hno _ eq_refl). }
  destruct (os_MkdirTemp H _ w) as [e|tempDir]; cbn [fst snd].
  { repeat split. exists []. rewrite app_nil_r. repeat split; [auto|].
    intros Hno. exfalso. exact (Hno _ eq_refl). }
  pose proof (install_in_frame dep pc tempDir w) as Hin. cbv zeta in Hin.
  destruct (install_in H dep pc tempDir w) as [r w1]. cbn [fst snd] in *.
  exact Hin.
Qed.

Lemma check_each_frame (m : Manager) (deps : list Dependency)
    (results : gmap string DependencyStatus) (w : World) :
  let w' := (check_each H m deps results w).2 in
  w_env w' = w_env w
  /\ installations (w_trace w') = installations (w_trace w)
  /\ verifications (w_trace w')
     = verifications (w_trace w)
       ++ map Name (filter (fun d => verifiable m d = true) deps).
Proof.
  revert results w. induction deps as [|dep deps IH]; intros results w; simpl.
  - rewrite app_nil_r. repeat split.
  - unfold CheckDependency.
    pose proof (VerifyDependency_frame m dep w) as (He & Hi & Hv).
    destruct (VerifyDependency H m dep w) as [[status err] w1]. cbn [snd] in *.
    destruct (IH (<[Name dep := status]> results) w1) as (He' & Hi' & Hv').
    repeat split; [congruence|congruence|].
    rewrite Hv', Hv, filter_cons.
    destruct (decide (verifiable m dep = true)) as [Hyes|Hno].
    + rewrite Hyes. simpl. rewrite <- app_assoc. reflexivity.
    + destruct (verifiable m dep); [congruence|]. rewrite app_nil_r. reflexivity.
Qed.

(** The map [check_each] builds: what was there stays or is replaced,
    every dependency gets an entry, and every new entry is a status
    [CheckDependency] returned for a dependency of that name. *)
Lemma check_each_results (m : Manager) (deps : list Dependency)
    (results : gmap string DependencyStatus) (w : World) :
  let results' := (check_each H m deps results w).1 in
  (forall name, is_Some (results !! name) -> is_Some (results' !! name))
  /\ (forall dep, dep ∈ deps -> is_Some (results' !! Name dep))
  /\ (forall name status, results' !! name = Some status ->
        results !! name = Some status
        \/ exists dep w1, dep ∈ deps /\ Name dep = name
                          /\ status = (CheckDependency H m dep w1).1.1).
Proof.
  revert results w. induction deps as [|dep deps IH]; intros results w; simpl.
  - split; [auto|]. split; [|auto]. intros dep Hin. inversion Hin.
  - destruct (CheckDependency H m dep w) as [[status err] w1] eqn:Hcheck.
    destruct (IH (<[Name dep := status]> results) w1) as (Hkeep & Hall & Hfrom).
    split; [|split].
    + intros name Hsome. apply Hkeep.
      destruct (decide (Name dep = name)) as [->|Hne].
      * rewrite lookup_insert_eq. eauto.
      * rewrite lookup_insert_ne by assumption. assumption.
    + intros d Hin. apply elem_of_cons in Hin as [->|Hin].
      * apply Hkeep. rewrite lookup_insert_eq. eauto.
      * apply Hall, Hin.
    + intros name st Hlook. destruct (Hfrom name st Hlook) as [Hold|Hnew].
      * destruct (decide (Name dep = name)) as [Heq|Hne].
        -- subst name. rewrite lookup_insert_eq in Hold. inversion Hold; subst st.
           right. exists dep, w. split; [apply list_elem_of_here|].
           split; [reflexivity|]. rewrite Hcheck. reflexivity.
        -- rewrite lookup_insert_ne in Hold by assumption. left. assumption.
      * destruct Hnew as (d & w2 & Hin & Hname & Hst).
        right. exists d, w2. split; [apply list_elem_of_further, Hin|]. auto.
Qed.

Lemma check_each_app (m : Manager) (l1 l2 : list Dependency)
    (results : gmap string DependencyStatus) (w : World) :
  check_each H m (l1 ++ l2) results w
  = check_each H m l2 (check_each H m l1 results w).1 (check_each H m l1 results w).2.
Proof.
  revert results w. induction l1 as [|d l1 IH]; intros results w; [reflexivity|].
  cbn [app check_each].
  destruct (CheckDependency H m d w) as [[status err] w1]. apply IH.
Qed.

Lemma check_each_untouched (m : Manager) (deps : list Dependency)
    (results : gmap string DependencyStatus) (w : World) (k : string) :
  (forall x, x ∈ deps -> Name x <> k) ->
  (check_each H m deps results w).1 !! k = results !! k.
Proof.
  revert results w. induction deps as [|d deps IH]; intros results w Hfresh;
    [reflexivity|].
  cbn [check_each]. destruct (CheckDependency H m d w) as [[status err] w1].
  rewrite IH.
  - apply lookup_insert_ne, Hfresh, list_elem_of_here.
  - intros x Hin. apply Hfresh, list_elem_of_further, Hin.
Qed.

(** A failed check is in the status: the error [VerifyDependency]
    returns is the one in the [Error] field of the status it returns. *)
Lemma VerifyDependency_error_in_status (m : Manager) (dep : Dependency)
    (w : World) (e : error) :
  (VerifyDependency H m dep w).1.2 = Some e ->
  Error (VerifyDependency H m dep w).1.1 = Some e.
Proof.
  unfold VerifyDependency, GetPlatformConfig.
  destruct (Platforms dep !! Platform m) as [pc|]; cbn [fst snd]; [|auto].
  destruct (length (Verify (pc_Commands pc)) =? 0)%nat; cbn [fst snd]; [auto|].
  destruct (DeadlineExceeded _); cbn [fst snd]; [auto|].
  destruct (CmdErr _); cbn [fst snd]; [auto|].
  destruct (classify H dep _ _ _) as [status w']. cbn [fst snd]. discriminate.
Qed.

Lemma validate_list_nil (m : Manager) (deps : list Dependency) :
  validate_list H m deps = []
  <-> deps <> []
      /\ forall dep, dep ∈ deps ->
           is_Some (Platforms dep !! Platform m)
           /\ Required (dep_Version dep) <> EmptyString
           /\ (Constraint (dep_Version dep) = EmptyString
               \/ exists check,
                    NewConstraint H (Constraint (dep_Version dep)) = inr check).
Proof.
  assert (Hdep : forall dep,
             validate_dep H m dep = []
             <-> is_Some (Platforms dep !! Platform m)
                 /\ Required (dep_Version dep) <> EmptyString
                 /\ (Constraint (dep_Version dep) = EmptyString
                     \/ exists check,
                          NewConstraint H (Constraint (dep_Version dep)) = inr check)).
  { intros dep. unfold validate_dep, version_errors.
    destruct (Platforms dep !! Platform m) as [pc|].
    2:{ split; [discriminate|]. intros [[x Hx] _]. discriminate. }
    destruct (Required (dep_Version dep)) as [|rc rr]; cbn [Str.is_empty].
    { split; [discriminate|]. intros (_ & Hreq & _). congruence. }
    destruct (Constraint (dep_Version dep)) as [|cc cr] eqn:Hcon;
      cbn [Str.is_empty negb app].
    { split; [|reflexivity]. intros _. split; [eauto|]. split; [discriminate|].
      left. reflexivity. }
    destruct (NewConstraint H (String cc cr)) as [e|check].
    - split; [discriminate|]. intros (_ & _ & [Hc|[c Hc]]); discriminate.
    - split; [|reflexivity]. intros _. split; [eauto|]. split; [discriminate|].
      right. eauto. }
  unfold validate_list. destruct deps as [|d deps].
  { split; [discriminate|]. intros [Hne _]. congruence. }
  split.
  - intros Hnil. split; [discriminate|]. intros dep Hin.
    apply Hdep. revert Hnil Hin. generalize (d :: deps) as l.
    induction l as [|x l IH]; intros Hnil Hin; [inversion Hin|].
    simpl in Hnil. apply app_eq_nil in Hnil as [Hx Hl].
    apply elem_of_cons in Hin as [->|Hin]; [assumption|]. apply IH; assumption.
  - intros [_ Hall]. revert Hall. generalize (d :: deps) as l.
    induction l as [|x l IH]; intros Hall; [reflexivity|].
    simpl. rewrite (proj2 (Hdep x) (Hall x (list_elem_of_here x l))).
    simpl. apply IH. intros dep Hin. apply Hall, list_elem_of_further, Hin.
Qed.

(** What the check of one dependency puts in its status, by what its
    verify command does in the world of the check. *)
Lemma CheckDependency_outcome (m : Manager) (dep : Dependency) (w : World)
    (pc : PlatformConfig) :
  Platforms dep !! Platform m = Some pc ->
  let verify := Verify (pc_Commands pc) in
  let r := exec_Run H verify
             (logf LevelInfo "Verifying dependency: %s" [ArgS (Name dep)] w) in
  let status := (CheckDependency H m dep w).1.1 in
  (verify = [] ->
   Installed status = false /\ Error status = Some (ErrNoVerifyCommand (Name dep)))
  /\ (verify <> [] -> DeadlineExceeded r = true ->
      Installed status = false /\ Error status = Some ErrVerifyTimeout)
  /\ (verify <> [] -> DeadlineExceeded r = false ->
      forall cause, CmdErr r = Some cause ->
        Installed status = false
        /\ Error status = Some (ErrVerifyFailed cause (Str.TrimSpace (Output r))))
  /\ (verify <> [] -> DeadlineExceeded r = false -> CmdErr r = None ->
      Installed status = true).
Proof.
  intros Hpc verify r status. subst status.
  unfold CheckDependency, VerifyDependency, GetPlatformConfig. rewrite Hpc.
  fold verify. destruct verify as [|v0 vs] eqn:Hv.
  { cbn. repeat split; congruence. }
  cbn [length Nat.eqb]. fold r.
  split; [congruence|].
  destruct (DeadlineExceeded r).
  { cbn. repeat split; congruence. }
  destruct (CmdErr r) as [cause|].
  { cbn. repeat split; congruence. }
  pose proof (classify_spec H dep (Str.TrimSpace (Output r))
                {| st_Name := Name dep; Installed := false;
                   CurrentVersion := EmptyString; RequiredUpdate := NoUpdate;
                   Compatible := false; Error := None |}
                (emit (EvExec (v0 :: vs))
                   (logf LevelInfo "Verifying dependency: %s" [ArgS (Name dep)] w)))
    as (Hinst & _).
  destruct (classify H dep _ _ _) as [status w']. cbn [fst] in *.
  repeat split; congruence.
Qed.

(** C5: when validation finds an error, [CheckAllDependencies] returns
    that error and no status map, with the world untouched; validation
    passes exactly when the list is not empty and every dependency has a
    bundle for the platform, a required version, and a constraint that is
    empty or parses.  When it passes, the call returns no error and a map
    with an entry for every declared dependency and for no other name;
    the entry of a dependency is the status its check returned in this
    run, in the world the checks of the dependencies before it left (for
    a name declared more than once, the last declaration); and the
    verify commands of all dependencies that have one were run, in the
    order of the manifest.  A check that fails puts its error in the
    status: a dependency with no verify command, one whose command runs
    out of time, and one whose command fails are marked not installed
    with that error, whatever the checks before them did. *)
Theorem CheckAllDependencies_isolates_failures
    (m : Manager) (cfg : DependencyConfig) (w : World) :
  Config m = Some cfg ->
  let deps := cfg_Dependencies cfg in
  let errors := validate_list H m deps in
  (errors <> [] ->
     CheckAllDependencies H m w
     = (Returned (None, Some (ErrConfigErrors errors)), w))
  /\ (errors = []
      <-> deps <> []
          /\ forall dep, dep ∈ deps ->
               is_Some (Platforms dep !! Platform m)
               /\ Required (dep_Version dep) <> EmptyString
               /\ (Constraint (dep_Version dep) = EmptyString
                   \/ exists check,
                        NewConstraint H (Constraint (dep_Version dep)) = inr check))
  /\ (errors = [] ->
      exists results w',
        CheckAllDependencies H m w = (Returned (Some results, None), w')
        /\ (forall dep, dep ∈ deps -> is_Some (results !! Name dep))
        /\ (forall name, is_Some (results !! name) ->
              exists dep, dep ∈ deps /\ Name dep = name)
        /\ (forall pre dep post, deps = pre ++ dep :: post ->
              (forall later, later ∈ post -> Name later <> Name dep) ->
              results !! Name dep
              = Some (CheckDependency H m dep (check_each H m pre ∅ w).2).1.1)
        /\ verifications (w_trace w')
           = verifications (w_trace w)
             ++ map Name (filter (fun d => verifiable m d = true) deps))
  /\ (forall dep w1 pc,
        Platforms dep !! Platform m = Some pc ->
        let verify := Verify (pc_Commands pc) in
        let r := exec_Run H verify
                   (logf LevelInfo "Verifying dependency: %s" [ArgS (Name dep)] w1) in
        let status := (CheckDependency H m dep w1).1.1 in
        (verify = [] ->
         Installed status = false
         /\ Error status = Some (ErrNoVerifyCommand (Name dep)))
        /\ (verify <> [] -> DeadlineExceeded r = true ->
            Installed status = false /\ Error status = Some ErrVerifyTimeout)
        /\ (verify <> [] -> DeadlineExceeded r = false ->
            forall cause, CmdErr r = Some cause ->
              Installed status = false
              /\ Error status
                 = Some (ErrVerifyFailed cause (Str.TrimSpace (Output r))))
        /\ (verify <> [] -> DeadlineExceeded r = false -> CmdErr r = None ->
            Installed status = true))
  /\ (forall dep w1 e,
        (CheckDependency H m dep w1).1.2 = Some e ->
        Error (CheckDependency H m dep w1).1.1 = Some e).
Proof.
  intros Hcfg deps errors. split; [|split; [|split; [|split]]].
  - intros Herr. unfold CheckAllDependencies, validateDependencies.
    rewrite Hcfg. fold deps. fold errors.
    destruct errors as [|e0 es]; [congruence|]. reflexivity.
  - apply validate_list_nil.
  - intros Hok. unfold CheckAllDependencies, validateDependencies.
    rewrite Hcfg. fold deps. fold errors. rewrite Hok. cbn [length Nat.ltb Nat.leb].
    pose proof (check_each_results m deps ∅ w) as (_ & Hall & Hfrom).
    pose proof (check_each_frame m deps ∅ w) as (_ & _ & Hv).
    assert (Hrun : forall pre dep post, deps = pre ++ dep :: post ->
              (forall later, later ∈ post -> Name later <> Name dep) ->
              (check_each H m deps ∅ w).1 !! Name dep
              = Some (CheckDependency H m dep (check_each H m pre ∅ w).2).1.1).
    { intros pre dep post Hsplit Hlast. rewrite Hsplit, check_each_app.
      cbn [check_each].
      destruct (CheckDependency H m dep (check_each H m pre ∅ w).2)
        as [[status err] w1].
      rewrite (check_each_untouched m post _ w1 (Name dep) Hlast).
      apply lookup_insert_eq. }
    destruct (check_each H m deps ∅ w) as [results w']. cbn [fst snd] in *.
    exists results, w'. split; [reflexivity|]. split; [exact Hall|].
    split; [|split; [exact Hrun|exact Hv]].
    intros name [status Hlook]. destruct (Hfrom name status Hlook) as [Hold|Hnew].
    + rewrite lookup_empty in Hold. discriminate.
    + destruct Hnew as (dep & _ & Hin & Hname & _). eauto.
  - intros dep w1 pc Hpc. apply CheckDependency_outcome, Hpc.
  - intros dep w1 e. unfold CheckDependency.
    apply VerifyDependency_error_in_status.
Qed.

Lemma find_dep_name (deps : list Dependency) (name : string) (dep : Dependency) :
  find_dep deps name = Some dep -> Name dep = name.
Proof.
  induction deps as [|d deps IH]; simpl; [discriminate|].
  destruct (String.eqb_spec (Name d) name) as [Heq|_]; [|exact IH].
  intros Hd. inversion Hd; subst. reflexivity.
Qed.

Lemma needing_install_cons (name : string) (status : DependencyStatus)
    (entries : list (string * DependencyStatus)) :
  needing_install ((name, status) :: entries)
  = if up_to_date status then needing_install entries
    else name :: needing_install entries.
Proof.
  unfold needing_install. rewrite filter_cons. simpl.
  destruct (up_to_date status); simpl.
  - destruct (decide (true = false)); [discriminate|reflexivity].
  - destruct (decide (false = false)); [reflexivity|congruence].
Qed.

(** The install loop leaves the process environment alone, and the
    installations it announces are, in order, the first of the entries
    it does not skip: all of them when it runs to its end. *)
Lemma ensure_each_frame (m : Manager) (deps : list Dependency)
    (entries : list (string * DependencyStatus))
    (statuses : gmap string DependencyStatus) (w : World) :
  let e := (ensure_each H range_order m deps entries statuses w).1.1 in
  let w' := (ensure_each H range_order m deps entries statuses w).2 in
  w_env w' = w_env w
  /\ exists l, installations (w_trace w') = installations (w_trace w) ++ l
               /\ l `prefix_of` needing_install entries
               /\ (e = LoopDone -> l = needing_install entries).
Proof.
  revert statuses w.
  induction entries as [|[name status] entries IH]; intros statuses w.
  { simpl. split; [reflexivity|]. exists []. rewrite app_nil_r.
    split; [reflexivity|]. split; [apply prefix_nil|reflexivity]. }
  cbn [ensure_each]. rewrite needing_install_cons.
  destruct (up_to_date status); [apply IH|].
  destruct (find_dep deps name) as [dep|] eqn:Hfind; cbn [fst snd].
  2:{ split; [reflexivity|]. exists []. rewrite app_nil_r.
      split; [reflexivity|]. split; [apply prefix_nil|discriminate]. }
  apply find_dep_name in Hfind. subst name.
  pose proof (installDependency_frame m dep w) as (He & _ & l0 & Hi & Hl0 & Hfull).
  destruct (installDependency H m dep w) as [r w1]. cbn [fst snd] in *.
  destruct r as [[err|]|msg]; cbn [fst snd].
  - split; [assumption|]. exists l0. split; [assumption|].
    split; [|discriminate].
    destruct Hl0 as [->| ->]; [apply prefix_nil|apply prefix_cons, prefix_nil].
  - rewrite Hfull in Hi by discriminate.
    pose proof (quiet_setupDependencyEnvironment dep w1) as Hq.
    destruct (setupDependencyEnvironment H range_order dep w1) as [serr w2].
    cbn [snd] in Hq.
    set (w3 := match serr with Some _ => _ | None => w2 end).
    assert (Hq3 : quiet w1 w3).
    { subst w3. destruct serr; [|assumption].
      eapply quiet_trans; [exact Hq|]. unfold logf. apply quiet_emit; reflexivity. }
    destruct Hq3 as (He3 & _ & Hi3).
    unfold CheckDependency.
    pose proof (VerifyDependency_frame m dep w3) as (He4 & Hi4 & _).
    destruct (VerifyDependency H m dep w3) as [[updated verr] w4]. cbn [snd] in *.
    destruct verr as [verr|]; cbn [fst snd].
    + split; [congruence|]. exists [Name dep].
      split; [congruence|]. split; [apply prefix_cons, prefix_nil|discriminate].
    + destruct (IH (<[Name dep := updated]> statuses) w4) as (He5 & l & Hi5 & Hpre & Hdone).
      split; [congruence|]. exists (Name dep :: l).
      split; [|split].
      * rewrite Hi5, Hi4, Hi3, Hi, <- app_assoc. reflexivity.
      * apply prefix_cons, Hpre.
      * intros Hend. rewrite (Hdone Hend). reflexivity.
  - rewrite Hfull in Hi by discriminate.
    split; [assumption|]. exists [Name dep].
    split; [assumption|]. split; [apply prefix_cons, prefix_nil|discriminate].
Qed.

End Frames.

(** ** The engine *)

Section EngineFacts.

Variable H : Host.
Variable range_order : forall V : Type, gmap string V -> list (string * V).
Variables (m : Manager) (w : World).

Lemma CheckAllDependencies_run (cfg : DependencyConfig)
    (statuses : gmap string DependencyStatus) (w0 : World) :
  Config m = Some cfg ->
  CheckAllDependencies H m w = (Returned (Some statuses, None), w0) ->
  validate_list H m (cfg_Dependencies cfg) = []
  /\ check_each H m (cfg_Dependencies cfg) ∅ w = (statuses, w0).
Proof.
  intros Hcfg. unfold CheckAllDependencies, validateDependencies. rewrite Hcfg.
  destruct (validate_list H m (cfg_Dependencies cfg)) as [|e0 es];
    cbn [length Nat.ltb Nat.leb]; [|discriminate].
  destruct (check_each H m (cfg_Dependencies cfg) ∅ w) as [results w1].
  intros Hrun. inversion Hrun; subst. split; reflexivity.
Qed.

Lemma CheckAllDependencies_env :
  w_env (CheckAllDependencies H m w).2 = w_env w.
Proof.
  unfold CheckAllDependencies, validateDependencies.
  destruct (Config m) as [cfg|]; [|reflexivity].
  destruct (0 <? length (validate_list H m (cfg_Dependencies cfg)))%nat;
    [reflexivity|].
  pose proof (check_each_frame H m (cfg_Dependencies cfg) ∅ w) as (He & _).
  destruct (check_each H m (cfg_Dependencies cfg) ∅ w). exact He.
Qed.

Lemma EnsureDependencies_run (cfg : DependencyConfig)
    (statuses : gmap string DependencyStatus) (w0 : World) :
  Config m = Some cfg ->
  CheckAllDependencies H m w = (Returned (Some statuses, None), w0) ->
  EnsureDependencies H range_order m w
  = match ensure_each H range_order m (cfg_Dependencies cfg)
            (range_order _ statuses) statuses w0 with
    | (LoopPanic msg, _, w1) => (Panicked msg, w1)
    | (LoopReturn err, statuses', w1) => (Returned (Some statuses', Some err), w1)
    | (LoopDone, statuses', w1) =>
        (Returned (Some statuses', None), apply_and_log H range_order w1)
    end.
Proof.
  intros Hcfg Hcheck.
  destruct (CheckAllDependencies_run cfg statuses w0 Hcfg Hcheck) as [Hvalid _].
  unfold EnsureDependencies, validateConfiguration.
  rewrite Hcfg, Hvalid, Hcheck. reflexivity.
Qed.

Lemma apply_and_log_spec (w1 : World) :
  let r := ApplyToCurrentProcess H range_order (w_envmgr w1) (w_env w1) in
  w_env (apply_and_log H range_order w1) = r.2
  /\ w_envmgr (apply_and_log H range_order w1) = w_envmgr w1
  /\ w_trace (apply_and_log H range_order w1)
     = w_trace w1
       ++ match r.1 with
          | Some err =>
              [EvLog LevelWarn "Failed to apply environment changes: %v" [ArgE err]]
          | None => []
          end.
Proof.
  unfold apply_and_log.
  destruct (ApplyToCurrentProcess H range_order (w_envmgr w1) (w_env w1))
    as [[err|] env]; simpl; rewrite ?app_nil_r; repeat split.
Qed.

(** The install loop over two runs of entries is the loop over the
    first, followed, when that one runs to its end, by the loop over the
    second from the map and the world it left. *)
Lemma ensure_each_app (deps : list Dependency)
    (l1 l2 : list (string * DependencyStatus))
    (statuses : gmap string DependencyStatus) (w0 : World) :
  ensure_each H range_order m deps (l1 ++ l2) statuses w0
  = match ensure_each H range_order m deps l1 statuses w0 with
    | (LoopDone, statuses1, w1) => ensure_each H range_order m deps l2 statuses1 w1
    | other => other
    end.
Proof.
  revert statuses w0.
  induction l1 as [|[name status] l1 IH]; intros statuses w0; [reflexivity|].
  cbn [app ensure_each]. destruct (up_to_date status); [apply IH|].
  destruct (find_dep deps name) as [dep|]; [|reflexivity].
  destruct (installDependency H m dep w0) as [[[err|]|msg] w1]; try reflexivity.
  destruct (setupDependencyEnvironment H range_order dep w1) as [serr w2].
  destruct (CheckDependency H m dep _) as [[updated [verr|]] w4];
    [reflexivity|apply IH].
Qed.

(** The install loop writes only under the names it visits. *)
Lemma ensure_each_untouched (deps : list Dependency)
    (entries : list (string * DependencyStatus))
    (statuses : gmap string DependencyStatus) (w0 : World) (name : string) :
  name ∉ entries.*1 ->
  (ensure_each H range_order m deps entries statuses w0).1.2 !! name
  = statuses !! name.
Proof.
  revert statuses w0.
  induction entries as [|[k status] entries IH]; intros statuses w0 Hfresh;
    [reflexivity|].
  cbn [fmap list_fmap fst] in Hfresh. apply not_elem_of_cons in Hfresh as [Hk Hrest].
  cbn [ensure_each]. destruct (up_to_date status); [apply IH, Hrest|].
  destruct (find_dep deps k) as [dep|]; [|reflexivity].
  destruct (installDependency H m dep w0) as [[[err|]|msg] w1]; cbn [fst snd];
    [apply lookup_insert_ne; congruence| |reflexivity].
  destruct (setupDependencyEnvironment H range_order dep w1) as [serr w2].
  destruct (CheckDependency H m dep _) as [[updated [verr|]] w4]; cbn [fst snd];
    [reflexivity|].
  rewrite (IH _ _ Hrest). apply lookup_insert_ne. congruence.
Qed.

(** What the loop has put in the map when it has run to its end over
    entries of distinct names: a name it did not visit and an entry it
    skipped are as before, and an entry it did not skip holds the status
    of the check made right after its install, with no error. *)
Lemma ensure_each_done (deps : list Dependency)
    (entries : list (string * DependencyStatus))
    (statuses statuses1 : gmap string DependencyStatus) (w0 w1 : World) :
  ensure_each H range_order m deps entries statuses w0 = (LoopDone, statuses1, w1) ->
  NoDup entries.*1 ->
  (forall name, name ∉ entries.*1 -> statuses1 !! name = statuses !! name)
  /\ (forall name status, (name, status) ∈ entries -> up_to_date status = true ->
        statuses1 !! name = statuses !! name)
  /\ (forall before name status after,
        entries = before ++ (name, status) :: after ->
        up_to_date status = false ->
        exists dep,
          find_dep deps name = Some dep
          /\ let reached := (ensure_each H range_order m deps before statuses w0).2 in
             (installDependency H m dep reached).1 = Returned None
             /\ (CheckDependency H m dep
                   (installed_world H range_order m dep reached)).1.2 = None
             /\ statuses1 !! name
                = Some (CheckDependency H m dep
                          (installed_world H range_order m dep reached)).1.1).
Proof.
  intros Hdone Hnodup. split; [|split].
  - intros name Hfresh.
    pose proof (ensure_each_untouched deps entries statuses w0 name Hfresh) as Hsame.
    rewrite Hdone in Hsame. exact Hsame.
  - intros name status Hin Hskip.
    apply list_elem_of_split in Hin as (before & after & ->).
    rewrite fmap_app in Hnodup. cbn [fmap list_fmap fst] in Hnodup.
    apply NoDup_app in Hnodup as (_ & Hcross & Hafter).
    apply NoDup_cons in Hafter as [Hafter _].
    rewrite ensure_each_app in Hdone.
    pose proof (ensure_each_untouched deps before statuses w0 name) as Hbefore.
    destruct (ensure_each H range_order m deps before statuses w0)
      as [[[|lerr|msg] sb] wb]; try discriminate.
    cbn [fst snd] in Hbefore. cbn [ensure_each] in Hdone. rewrite Hskip in Hdone.
    pose proof (ensure_each_untouched deps after sb wb name Hafter) as Hlater.
    rewrite Hdone in Hlater. cbn [fst snd] in Hlater. rewrite Hlater.
    apply Hbefore. intros Hin. apply (Hcross name Hin). apply list_elem_of_here.
  - intros before name status after -> Hneeds.
    rewrite fmap_app in Hnodup. cbn [fmap list_fmap fst] in Hnodup.
    apply NoDup_app in Hnodup as (_ & _ & Hafter).
    apply NoDup_cons in Hafter as [Hafter _].
    rewrite ensure_each_app in Hdone.
    destruct (ensure_each H range_order m deps before statuses w0)
      as [[[|lerr|msg] sb] wb]; try discriminate.
    cbn [snd]. cbn [ensure_each] in Hdone. rewrite Hneeds in Hdone.
    destruct (find_dep deps name) as [dep|]; [|discriminate].
    exists dep. split; [reflexivity|]. unfold installed_world.
    destruct (installDependency H m dep wb) as [[[err|]|msg] wi]; try discriminate.
    split; [reflexivity|].
    destruct (setupDependencyEnvironment H range_order dep wi) as [serr ws].
    destruct (CheckDependency H m dep _) as [[updated [verr|]] wv];
      [discriminate|].
    pose proof (ensure_each_untouched deps after (<[name := updated]> sb) wv name Hafter)
      as Hlater.
    rewrite Hdone in Hlater. cbn [fst snd] in Hlater.
    rewrite lookup_insert_eq in Hlater. cbn [fst snd].
    split; [reflexivity|exact Hlater].
Qed.

(** C1 (amended): the install loop visits the entries of the status map
    in the order of the run.  When it has run to its end over the
    entries before a dependency whose install then fails,
    [EnsureDependencies] returns the error of that install with the map
    accumulated so far: what the loop had put in it for the entries
    before, and the status of the failed dependency with the error in it
    and marked not installed.  In the accumulated map an entry that was
    up to date is as the check left it, and an entry that was installed
    holds the status of the check made right after its install.
    Whenever [EnsureDependencies] returns an error the process
    environment is as it was: the changes are not applied.  When the
    loop runs to its end, the changes are applied, a failure to apply
    them is logged as a warning, and no error is returned. *)
Theorem EnsureDependencies_applies_only_on_completion :
  (forall cfg statuses w0 before name status after statuses1 w1 dep err w2,
      Config m = Some cfg ->
      CheckAllDependencies H m w = (Returned (Some statuses, None), w0) ->
      range_order _ statuses = before ++ (name, status) :: after ->
      ensure_each H range_order m (cfg_Dependencies cfg) before statuses w0
      = (LoopDone, statuses1, w1) ->
      up_to_date status = false ->
      find_dep (cfg_Dependencies cfg) name = Some dep ->
      installDependency H m dep w1 = (Returned (Some err), w2) ->
      EnsureDependencies H range_order m w
      = (Returned
           (Some (<[name := with_installed false (with_error (Some err) status)]>
                    statuses1),
            Some err), w2))
  /\ (forall deps entries statuses w0 statuses1 w1,
        ensure_each H range_order m deps entries statuses w0
        = (LoopDone, statuses1, w1) ->
        NoDup entries.*1 ->
        (forall name, name ∉ entries.*1 -> statuses1 !! name = statuses !! name)
        /\ (forall name status, (name, status) ∈ entries ->
              up_to_date status = true -> statuses1 !! name = statuses !! name)
        /\ (forall earlier name status later,
              entries = earlier ++ (name, status) :: later ->
              up_to_date status = false ->
              exists dep,
                find_dep deps name = Some dep
                /\ let reached :=
                     (ensure_each H range_order m deps earlier statuses w0).2 in
                   (installDependency H m dep reached).1 = Returned None
                   /\ (CheckDependency H m dep
                         (installed_world H range_order m dep reached)).1.2 = None
                   /\ statuses1 !! name
                      = Some (CheckDependency H m dep
                                (installed_world H range_order m dep reached)).1.1))
  /\ (forall statuses err w',
        EnsureDependencies H range_order m w = (Returned (statuses, Some err), w') ->
        w_env w' = w_env w)
  /\ (forall cfg statuses w0 statuses' w1,
        Config m = Some cfg ->
        CheckAllDependencies H m w = (Returned (Some statuses, None), w0) ->
        ensure_each H range_order m (cfg_Dependencies cfg)
          (range_order _ statuses) statuses w0
        = (LoopDone, statuses', w1) ->
        let applied := ApplyToCurrentProcess H range_order (w_envmgr w1) (w_env w1) in
        exists w',
          EnsureDependencies H range_order m w = (Returned (Some statuses', None), w')
          /\ w_env w' = applied.2
          /\ w_trace w'
             = w_trace w1
               ++ match applied.1 with
                  | Some err =>
                      [EvLog LevelWarn "Failed to apply environment changes: %v"
                         [ArgE err]]
                  | None => []
                  end).
Proof.
  split; [|split; [|split]].
  - intros cfg statuses w0 before name status after statuses1 w1 dep err w2
      Hcfg Hcheck Horder Hbefore Hneeds Hfind Hinstall.
    rewrite (EnsureDependencies_run cfg statuses w0 Hcfg Hcheck), Horder.
    rewrite ensure_each_app, Hbefore. cbn [ensure_each].
    rewrite Hneeds, Hfind, Hinstall. reflexivity.
  - intros deps entries statuses w0 statuses1 w1. apply ensure_each_done.
  - intros statuses err w' Hrun.
    unfold EnsureDependencies in Hrun.
    destruct (validateConfiguration H m) as [verr|] eqn:Hvalid.
    { inversion Hrun; subst. reflexivity. }
    unfold validateConfiguration in Hvalid.
    destruct (Config m) as [cfg|] eqn:Hcfg; [|discriminate].
    pose proof CheckAllDependencies_env as He0.
    destruct (CheckAllDependencies H m w) as [[[[st0|] [cerr|]]|msg] w0] eqn:Hcheck;
      cbn [snd] in He0.
    + inversion Hrun; subst. exact He0.
    + change (default [] (cfg_Dependencies <$> Some cfg))
        with (cfg_Dependencies cfg) in Hrun.
      pose proof (ensure_each_frame H range_order m (cfg_Dependencies cfg)
                    (range_order _ st0) st0 w0) as (He1 & _).
      destruct (ensure_each H range_order m (cfg_Dependencies cfg)
                  (range_order _ st0) st0 w0) as [[[|lerr|msg] st1] w1];
        inversion Hrun; subst. cbn [snd] in He1. congruence.
    + inversion Hrun; subst. exact He0.
    + discriminate.
    + discriminate.
  - intros cfg statuses w0 statuses' w1 Hcfg Hcheck Hloop applied.
    exists (apply_and_log H range_order w1).
    rewrite (EnsureDependencies_run cfg statuses w0 Hcfg Hcheck), Hloop.
    split; [reflexivity|].
    pose proof (apply_and_log_spec w1) as Hspec. cbv zeta in Hspec.
    destruct Hspec as (He & _ & Ht). split; assumption.
Qed.

(** C3 (amended): on a valid manifest, [CheckAllDependencies] runs the
    verify commands in the order of the manifest and installs nothing;
    [EnsureDependencies] announces its installations in the order in
    which the run visits the status map, starting with the first entry
    that is not up to date and leaving none out: all of them when it
    returns no error. *)
Theorem dependencies_processed_in_order (cfg : DependencyConfig) :
  Config m = Some cfg ->
  validate_list H m (cfg_Dependencies cfg) = [] ->
  exists statuses w0,
    CheckAllDependencies H m w = (Returned (Some statuses, None), w0)
    /\ verifications (w_trace w0)
       = verifications (w_trace w)
         ++ map Name (filter (fun d => verifiable m d = true) (cfg_Dependencies cfg))
    /\ installations (w_trace w0) = installations (w_trace w)
    /\ exists l,
         installations (w_trace (EnsureDependencies H range_order m w).2)
         = installations (w_trace w) ++ l
         /\ l `prefix_of` needing_install (range_order _ statuses)
         /\ (forall st, (EnsureDependencies H range_order m w).1 = Returned (st, None) ->
               l = needing_install (range_order _ statuses)).
Proof.
  intros Hcfg Hvalid.
  assert (Hcheck : CheckAllDependencies H m w
                   = (Returned (Some (check_each H m (cfg_Dependencies cfg) ∅ w).1, None),
                      (check_each H m (cfg_Dependencies cfg) ∅ w).2)).
  { unfold CheckAllDependencies, validateDependencies. rewrite Hcfg, Hvalid.
    cbn [length Nat.ltb Nat.leb].
    destruct (check_each H m (cfg_Dependencies cfg) ∅ w). reflexivity. }
  pose proof (check_each_frame H m (cfg_Dependencies cfg) ∅ w) as (_ & Hi0 & Hv0).
  destruct (check_each H m (cfg_Dependencies cfg) ∅ w) as [statuses w0].
  cbn [fst snd] in *.
  exists statuses, w0. split; [exact Hcheck|]. split; [exact Hv0|].
  split; [exact Hi0|].
  rewrite (EnsureDependencies_run cfg statuses w0 Hcfg Hcheck).
  pose proof (ensure_each_frame H range_order m (cfg_Dependencies cfg)
                (range_order _ statuses) statuses w0) as Hframe.
  cbv zeta in Hframe.
  destruct (ensure_each H range_order m (cfg_Dependencies cfg)
              (range_order _ statuses) statuses w0) as [[e st1] w1].
  cbn [fst snd] in *. destruct Hframe as (_ & l & Hi & Hpre & Hdone). exists l.
  destruct e as [|lerr|msg]; cbn [fst snd].
  - pose proof (apply_and_log_spec w1) as Hspec. cbv zeta in Hspec.
    destruct Hspec as (_ & _ & Ht).
    split; [|split; [exact Hpre|intros st _; apply Hdone; reflexivity]].
    rewrite Ht. unfold installations in *. rewrite omap_app.
    destruct (ApplyToCurrentProcess H range_order (w_envmgr w1) (w_env w1)).1;
      simpl; rewrite app_nil_r; congruence.
  - split; [congruence|]. split; [exact Hpre|intros st Hst; discriminate].
  - split; [congruence|]. split; [exact Hpre|intros st Hst; discriminate].
Qed.

End EngineFacts.

(** ** The properties on the sample machines *)

Lemma range_rev_visits_every_entry (V : Type) (m : gmap string V) :
  Sample.range_rev V m ≡ₚ map_to_list m.
Proof. unfold Sample.range_rev. symmetry. apply Permutation_rev. Qed.

Lemma VerifyDependency_records_version_failures_witness :
  exists status w',
    VerifyDependency Sample.dev_host (Sample.manager_of [Sample.tool_a])
      Sample.tool_a Sample.empty_world = (status, None, w')
    /\ Installed status = true
    /\ Error status
       = Some (ErrInvalidVersion "development build"
                 (ErrLib "Invalid Semantic Version")).
Proof.
  destruct (VerifyDependency_records_version_failures Sample.dev_host
              (Sample.manager_of [Sample.tool_a]) Sample.tool_a Sample.empty_world
              {| pc_Installer :=
                   {| InstallerType := "binary"; URL := EmptyString;
                      Checksum := EmptyString |};
                 pc_Commands :=
                   {| Install := ["install"; "a"]; Verify := ["a"; "--version"];
                      Uninstall := [] |} |}
              eq_refl ltac:(discriminate) eq_refl eq_refl)
    as (status & w' & Hrun & Hinst & _ & _ & Hcompat & _).
  exists status, w'. split; [exact Hrun|]. split; [exact Hinst|].
  apply (Hcompat false); [discriminate|]. vm_compute. reflexivity.
Defined.

(** C8, as stated, fails: when the output of the verify command is not a
    version, the classification and the compatibility check both fail,
    and the status returned holds the error of the compatibility check
    only: the failure of the classification is not recorded. *)
Lemma VerifyDependency_classification_error_overwritten :
  let unreadable := ErrLib "Invalid Semantic Version" in
  CheckVersionUpdate Sample.dev_host "development build" "1.0.0"
  = (NoUpdate, Some (ErrInvalidCurrentVersion "development build" unreadable))
  /\ exists status w',
       VerifyDependency Sample.dev_host (Sample.manager_of [Sample.tool_a])
         Sample.tool_a Sample.empty_world = (status, None, w')
       /\ CurrentVersion status = "development build"
       /\ Required (dep_Version Sample.tool_a) = "1.0.0"
       /\ Error status = Some (ErrInvalidVersion "development build" unreadable)
       /\ Error status <> Some (ErrInvalidCurrentVersion "development build" unreadable).
Proof.
  split; [vm_compute; reflexivity|].
  eexists. eexists. split; [vm_compute; reflexivity|].
  repeat split; try (vm_compute; reflexivity). vm_compute. discriminate.
Qed.

Lemma installDependency_empty_template_panics_witness :
  exists w',
    installDependency Sample.quiet_host (Sample.manager_of [Sample.tool_bare])
      Sample.tool_bare Sample.empty_world
    = (Panicked "index out of range [0] with length 0", w').
Proof.
  destruct (installDependency_empty_template_panics Sample.quiet_host
              (Sample.manager_of [Sample.tool_bare]) Sample.tool_bare
              Sample.empty_world
              {| pc_Installer :=
                   {| InstallerType := "binary"; URL := EmptyString;
                      Checksum := EmptyString |};
                 pc_Commands :=
                   {| Install := []; Verify := ["bare"; "--version"];
                      Uninstall := [] |} |}
              eq_refl eq_refl)
    as (_ & _ & Hpanic & _).
  apply (Hpanic "/tmp/depman-download-1"); [reflexivity|]. left. reflexivity.
Defined.

(** The manifest with the empty install template passes validation, and
    [EnsureDependencies] panics on it. *)
Example EnsureDependencies_empty_template_panics :
  validateConfiguration Sample.quiet_host (Sample.manager_of [Sample.tool_bare]) = None
  /\ (EnsureDependencies (Sample.tools_host []) Sample.range_fwd
        (Sample.manager_of [Sample.tool_bare]) Sample.empty_world).1
     = Panicked "index out of range [0] with length 0".
Proof. split; vm_compute; reflexivity. Qed.

Lemma CheckAllDependencies_isolates_failures_witness :
  exists results w',
    CheckAllDependencies (Sample.tools_host [])
      (Sample.manager_of [Sample.tool_a; Sample.tool_b]) Sample.world_with_b
    = (Returned (Some results, None), w')
    /\ (Error <$> results !! "a")
       = Some (Some (ErrVerifyFailed (ErrLib "exit status 1") "command not found"))
    /\ (Installed <$> results !! "a") = Some false
    /\ (Installed <$> results !! "b") = Some true
    /\ verifications (w_trace w') = ["a"; "b"].
Proof.
  destruct (CheckAllDependencies_isolates_failures (Sample.tools_host [])
              (Sample.manager_of [Sample.tool_a; Sample.tool_b])
              {| cfg_Version := "1.0"; cfg_Name := "app";
                 cfg_Description := EmptyString;
                 cfg_Dependencies := [Sample.tool_a; Sample.tool_b] |}
              Sample.world_with_b eq_refl)
    as (_ & _ & Hpass & Hout & _).
  destruct (Hpass ltac:(vm_compute; reflexivity))
    as (results & w' & Hrun & _ & _ & Hentry & Hv).
  assert (Ha := Hentry [] Sample.tool_a [Sample.tool_b] eq_refl).
  assert (Hb := Hentry [Sample.tool_a] Sample.tool_b [] eq_refl).
  change (Name Sample.tool_a) with "a" in Ha.
  change (Name Sample.tool_b) with "b" in Hb.
  assert (Ha' := Ha ltac:(intros later Hin; apply list_elem_of_singleton in Hin;
                          subst later; discriminate)).
  assert (Hb' := Hb ltac:(intros later Hin; inversion Hin)).
  clear Ha Hb.
  destruct (Hout Sample.tool_a
              (check_each (Sample.tools_host [])
                 (Sample.manager_of [Sample.tool_a; Sample.tool_b]) [] ∅
                 Sample.world_with_b).2
              (Sample.pc_of "a" ["install"; "a"]) eq_refl)
    as (_ & _ & Hfailed & _).
  destruct (Hfailed ltac:(discriminate) eq_refl (ErrLib "exit status 1") eq_refl)
    as [Hnot Herr].
  destruct (Hout Sample.tool_b
              (check_each (Sample.tools_host [])
                 (Sample.manager_of [Sample.tool_a; Sample.tool_b]) [Sample.tool_a] ∅
                 Sample.world_with_b).2
              (Sample.pc_of "b" ["install"; "b"]) eq_refl)
    as (_ & _ & _ & Hfound).
  exists results, w'. split; [exact Hrun|].
  rewrite Ha', Hb'. cbn [fmap option_fmap option_map].
  split; [f_equal; exact Herr|]. split; [f_equal; exact Hnot|].
  split; [f_equal; apply Hfound; first [discriminate|reflexivity]|].
  rewrite Hv. vm_compute. reflexivity.
Defined.

(** C1, as stated, fails: the install of [b] fails after [a] has been
    installed and has added its variable and its path; the error and the
    status map are returned, and the process environment is as before, not
    what applying the changes gives. *)
Lemma EnsureDependencies_abort_leaves_changes_unapplied :
  (exists statuses,
     Sample.run_aborted.1
     = Returned (Some statuses,
                 Some (ErrInstallFailed (ErrLib "exit status 1") "cannot install"))
     /\ (Installed <$> statuses !! "a") = Some true
     /\ (Installed <$> statuses !! "b") = Some false)
  /\ em_Variables (w_envmgr Sample.run_aborted.2) !! "A_HOME" = Some "/opt/a"
  /\ em_Paths (w_envmgr Sample.run_aborted.2) = ["/opt/a/bin"]
  /\ w_env Sample.run_aborted.2 = [("HOME", "/home/u"); ("PATH", "/usr/bin")]
  /\ (ApplyToCurrentProcess (Sample.tools_host ["b"]) Sample.range_fwd
        (w_envmgr Sample.run_aborted.2) (w_env Sample.run_aborted.2)).2
     = [("HOME", "/home/u"); ("PATH", "/opt/a/bin:/usr/bin"); ("A_HOME", "/opt/a")].
Proof.
  split; [|repeat split; vm_compute; reflexivity].
  eexists. split; [vm_compute; reflexivity|]. split; vm_compute; reflexivity.
Qed.

Lemma EnsureDependencies_applies_only_on_completion_witness :
  let failure := ErrInstallFailed (ErrLib "exit status 1") "cannot install" in
  exists accumulated status,
    Sample.run_aborted
    = (Returned
         (Some (<["b" := with_installed false (with_error (Some failure) status)]>
                  accumulated),
          Some failure),
       Sample.run_aborted.2)
    /\ (Installed <$> accumulated !! "a") = Some true
    /\ (CurrentVersion <$> accumulated !! "a") = Some "1.0.0"
    /\ w_env Sample.run_aborted.2 = w_env Sample.empty_world.
Proof.
  intros failure.
  destruct (EnsureDependencies_applies_only_on_completion (Sample.tools_host ["b"])
              Sample.range_fwd (Sample.manager_of [Sample.tool_a; Sample.tool_b])
              Sample.empty_world) as (Habort & Hdone & Henv & _).
  set (deps := [Sample.tool_a; Sample.tool_b]).
  set (checked := CheckAllDependencies (Sample.tools_host ["b"])
                    (Sample.manager_of deps) Sample.empty_world).
  set (statuses := default ∅ (match checked.1 with
                              | Returned (found, _) => found
                              | Panicked _ => None
                              end)).
  set (entry_a := ("a", default Sample.no_status (statuses !! "a"))).
  set (entry_b := ("b", default Sample.no_status (statuses !! "b"))).
  set (first := ensure_each (Sample.tools_host ["b"]) Sample.range_fwd
                  (Sample.manager_of deps) deps [entry_a] statuses checked.2).
  assert (Hfirst : first = (LoopDone, first.1.2, first.2))
    by (vm_compute; reflexivity).
  exists first.1.2, entry_b.2. split; [|split; [|split]].
  - unfold Sample.run_aborted at 1.
    rewrite (Habort (Sample.manifest_of deps) statuses checked.2 [entry_a]
               "b" entry_b.2 [] first.1.2 first.2 Sample.tool_b failure
               Sample.run_aborted.2);
      [reflexivity|..]; vm_compute; reflexivity.
  - destruct (Hdone deps [entry_a] statuses checked.2 first.1.2 first.2 Hfirst)
      as (_ & _ & Hstatus).
    { vm_compute. repeat constructor. intros Hin. inversion Hin. }
    destruct (Hstatus [] "a" entry_a.2 [] eq_refl ltac:(vm_compute; reflexivity))
      as (dep & Hfind & _ & _ & Hentry).
    rewrite Hentry. vm_compute in Hfind. inversion Hfind; subst dep.
    vm_compute. reflexivity.
  - destruct (Hdone deps [entry_a] statuses checked.2 first.1.2 first.2 Hfirst)
      as (_ & _ & Hstatus).
    { vm_compute. repeat constructor. intros Hin. inversion Hin. }
    destruct (Hstatus [] "a" entry_a.2 [] eq_refl ltac:(vm_compute; reflexivity))
      as (dep & Hfind & _ & _ & Hentry).
    rewrite Hentry. vm_compute in Hfind. inversion Hfind; subst dep.
    vm_compute. reflexivity.
  - apply (Henv (match Sample.run_aborted.1 with
                 | Returned (found, _) => found
                 | Panicked _ => None
                 end) failure).
    vm_compute. reflexivity.
Defined.

(** C3, as stated, fails: the manifest declares [a] before [b], and a run
    that visits the status map in the other order installs [b] before
    [a]. *)
Lemma EnsureDependencies_order_differs_from_manifest :
  map Name [Sample.tool_a; Sample.tool_b] = ["a"; "b"]
  /\ installations (w_trace Sample.run_reversed.2) = ["b"; "a"]
  /\ Sample.run_reversed.1 = Sample.run_in_order.1.
Proof. repeat split; vm_compute; reflexivity. Qed.

Lemma dependencies_processed_in_order_witness :
  exists statuses w0,
    CheckAllDependencies (Sample.tools_host [])
      (Sample.manager_of [Sample.tool_a; Sample.tool_b]) Sample.empty_world
    = (Returned (Some statuses, None), w0)
    /\ verifications (w_trace w0) = ["a"; "b"]
    /\ installations (w_trace Sample.run_reversed.2)
       = needing_install (Sample.range_rev _ statuses).
Proof.
  destruct (dependencies_processed_in_order (Sample.tools_host []) Sample.range_rev
              (Sample.manager_of [Sample.tool_a; Sample.tool_b]) Sample.empty_world
              {| cfg_Version := "1.0"; cfg_Name := "app";
                 cfg_Description := EmptyString;
                 cfg_Dependencies := [Sample.tool_a; Sample.tool_b] |}
              eq_refl ltac:(vm_compute; reflexivity))
    as (statuses & w0 & Hrun & Hv & _ & l & Hi & _ & Hall).
  exists statuses, w0. split; [exact Hrun|].
  split; [rewrite Hv; vm_compute; reflexivity|].
  fold Sample.run_reversed in Hi, Hall. rewrite Hi.
  rewrite (Hall (match Sample.run_reversed.1 with
                 | Returned (st, _) => st
                 | Panicked _ => None
                 end) ltac:(vm_compute; reflexivity)).
  reflexivity.
Defined.


(** * Further properties *)

(** ** The process environment *)

Section OsFacts.

Implicit Types (env : list (string * string)) (k v : string).

Lemma Getenv_absent env k : Os.has_key env k = false -> Os.Getenv env k = EmptyString.
Proof.
  induction env as [|[k0 v0] env IH]; simpl; [reflexivity|].
  destruct (String.eqb k0 k); simpl; [discriminate|exact IH].
Qed.

Lemma Getenv_replace_key env k v :
  Os.has_key env k = true -> Os.Getenv (Os.replace_key env k v) k = v.
Proof.
  induction env as [|[k0 v0] env IH]; simpl; [discriminate|].
  destruct (String.eqb k0 k) eqn:Hk; simpl; rewrite Hk; [reflexivity|exact IH].
Qed.

Lemma Getenv_replace_key_ne env k v k' :
  k <> k' -> Os.Getenv (Os.replace_key env k v) k' = Os.Getenv env k'.
Proof.
  intros Hne. induction env as [|[k0 v0] env IH]; simpl; [reflexivity|].
  destruct (String.eqb_spec k0 k) as [->|Hk0]; simpl.
  - destruct (String.eqb_spec k k'); [contradiction|reflexivity].
  - destruct (String.eqb k0 k'); [reflexivity|exact IH].
Qed.

Lemma Getenv_snoc env k v k' :
  Os.Getenv (env ++ [(k, v)]) k'
  = if Os.has_key env k' then Os.Getenv env k'
    else if String.eqb k k' then v else EmptyString.
Proof.
  induction env as [|[k0 v0] env IH]; simpl; [reflexivity|].
  destruct (String.eqb k0 k'); simpl; [reflexivity|exact IH].
Qed.

Lemma Getenv_put_eq env k v : Os.Getenv (Os.put env k v) k = v.
Proof.
  unfold Os.put. destruct (Os.has_key env k) eqn:Hk.
  - apply Getenv_replace_key, Hk.
  - rewrite Getenv_snoc, Hk, String.eqb_refl. reflexivity.
Qed.

Lemma Getenv_put_ne env k v k' :
  k <> k' -> Os.Getenv (Os.put env k v) k' = Os.Getenv env k'.
Proof.
  intros Hne. unfold Os.put. destruct (Os.has_key env k) eqn:Hk.
  - apply Getenv_replace_key_ne, Hne.
  - rewrite Getenv_snoc. destruct (Os.has_key env k') eqn:Hk'; [reflexivity|].
    destruct (String.eqb_spec k k'); [contradiction|].
    symmetry. apply Getenv_absent, Hk'.
Qed.

Lemma Setenv_inr env k v env' :
  Os.Setenv env k v = inr env' <-> Os.setenv_refused k v = false /\ env' = Os.put env k v.
Proof.
  unfold Os.Setenv. destruct (Os.setenv_refused k v); split.
  - discriminate.
  - intros [? _]. discriminate.
  - intros Heq. inversion Heq. auto.
  - intros [_ ->]. reflexivity.
Qed.

End OsFacts.

Section EnvironmentFacts.

Variable H : Host.
Variable range_order : forall V : Type, gmap string V -> list (string * V).

Implicit Types (env : list (string * string)) (vars : list (string * string)).

Lemma existsb_eqb_elem (l : list string) (x : string) :
  existsb (fun p => String.eqb p x) l = true <-> x ∈ l.
Proof.
  rewrite existsb_exists. split.
  - intros (y & Hin & Heq). apply String.eqb_eq in Heq. subst.
    apply list_elem_of_In, Hin.
  - intros Hin. exists x. split; [apply list_elem_of_In, Hin|apply String.eqb_refl].
Qed.

(** X1: [AddPath] keeps the paths it has, in their order, adds the cleaned
    path at most once, and adding the same path again changes nothing; a
    list without repetition stays so. *)
Theorem AddPath_idempotent (path : string) (m : EnvManager) :
  AddPath H path (AddPath H path m) = AddPath H path m
  /\ em_Paths m `prefix_of` em_Paths (AddPath H path m)
  /\ filepath_Clean H path ∈ em_Paths (AddPath H path m)
  /\ em_Variables (AddPath H path m) = em_Variables m
  /\ (NoDup (em_Paths m) -> NoDup (em_Paths (AddPath H path m))).
Proof.
  unfold AddPath.
  destruct (existsb _ (em_Paths m)) eqn:Hin.
  - rewrite Hin. split; [reflexivity|]. split; [reflexivity|].
    split; [apply existsb_eqb_elem, Hin|]. split; [reflexivity|auto].
  - cbn [em_Paths em_Variables].
    assert (Hnow : existsb (fun p => String.eqb p (filepath_Clean H path))
                     (em_Paths m ++ [filepath_Clean H path]) = true).
    { apply existsb_eqb_elem, elem_of_app. right. apply list_elem_of_here. }
    rewrite Hnow. split; [reflexivity|].
    split; [apply prefix_app_r; reflexivity|].
    split; [apply elem_of_app; right; apply list_elem_of_here|].
    split; [reflexivity|].
    intros Hnd. apply NoDup_app. split; [exact Hnd|].
    split; [|apply NoDup_singleton].
    intros x Hx Hx'. apply list_elem_of_singleton in Hx'. subst x.
    apply existsb_eqb_elem in Hx. congruence.
Qed.

(** X2: [AddVariable] is last write wins: the key reads back the value, a
    second write to the key replaces the first, other keys and the paths
    are as they were. *)
Theorem AddVariable_last_write_wins (key v1 v2 : string) (m : EnvManager) :
  em_Variables (AddVariable key v2 m) !! key = Some v2
  /\ AddVariable key v2 (AddVariable key v1 m) = AddVariable key v2 m
  /\ (forall other, other <> key ->
        em_Variables (AddVariable key v2 m) !! other = em_Variables m !! other)
  /\ em_Paths (AddVariable key v2 m) = em_Paths m.
Proof.
  unfold AddVariable. cbn [em_Variables em_Paths].
  split; [apply lookup_insert_eq|]. split; [rewrite insert_insert_eq; reflexivity|].
  split; [|reflexivity]. intros other Hne. apply lookup_insert_ne. congruence.
Qed.

Lemma replace_from_absent (c : ascii) (old' new s : string) :
  Os.has_byte (fun a => Ascii.eqb a c) s = false ->
  Str.replace_from (String c old') new O s = s.
Proof.
  induction s as [|a r IH]; intros Hno; [reflexivity|].
  cbn [Os.has_byte] in Hno. apply orb_false_iff in Hno as [Ha Hr].
  cbn [Str.replace_from String.prefix].
  destruct (ascii_dec c a) as [->|_].
  - rewrite Ascii.eqb_refl in Ha. discriminate.
  - rewrite (IH Hr). reflexivity.
Qed.

Lemma ReplaceAll_no_brace (s key value : string) :
  Text.no_brace s = true -> Str.ReplaceAll s (brace key) value = s.
Proof.
  intros Hno. unfold Text.no_brace in Hno. apply negb_true_iff in Hno.
  unfold brace. cbn [String.append Str.ReplaceAll].
  apply replace_from_absent, Hno.
Qed.

(** X3: a text with no opening brace has no placeholder, and
    [ExpandVariables] returns it unchanged, whatever the accumulated and
    the ambient variables are. *)
Theorem ExpandVariables_without_brace (m : EnvManager) env (text : string) :
  Text.no_brace text = true ->
  ExpandVariables range_order m env text = text.
Proof.
  intros Hno. unfold ExpandVariables.
  assert (Hfold : forall l : list (string * string),
             fold_left (fun result kv => Str.ReplaceAll result (brace kv.1) kv.2) l text
             = text).
  { induction l as [|[k v] l IH]; cbn [fold_left fst snd]; [reflexivity|].
    rewrite (ReplaceAll_no_brace text k v Hno). exact IH. }
  rewrite (Hfold (range_order _ (em_Variables m))). apply Hfold.
Qed.

(** *** Applying the changes *)

Lemma setenv_all_ok vars env :
  Forall (fun kv => ~ refused kv) vars ->
  exists env',
    setenv_all vars env = (None, env')
    /\ (forall k, k ∉ vars.*1 -> Os.Getenv env' k = Os.Getenv env k)
    /\ (NoDup vars.*1 -> forall k v, (k, v) ∈ vars -> Os.Getenv env' k = v).
Proof.
  revert env. induction vars as [|[k0 v0] vars IH]; intros env Hall.
  { exists env. split; [reflexivity|]. split; [reflexivity|].
    intros _ k v Hin. inversion Hin. }
  inversion Hall as [|? ? Hhead Htail]; subst.
  cbn [setenv_all]. unfold Os.Setenv. unfold refused in Hhead. cbn [fst snd] in Hhead.
  destruct (Os.setenv_refused k0 v0); [congruence|].
  destruct (IH (Os.put env k0 v0) Htail) as (env' & Hrun & Hother & Hset).
  exists env'. split; [exact Hrun|]. split.
  - intros k Hk. cbn [fmap list_fmap fst] in Hk. rewrite not_elem_of_cons in Hk.
    destruct Hk as [Hne Hk]. rewrite (Hother k Hk). apply Getenv_put_ne. congruence.
  - intros Hnd k v Hin. cbn [fmap list_fmap fst] in Hnd.
    apply NoDup_cons in Hnd as [Hfresh Hnd].
    apply elem_of_cons in Hin as [Heq|Hin].
    + inversion Heq; subst. rewrite (Hother k0 Hfresh). apply Getenv_put_eq.
    + apply (Hset Hnd k v Hin).
Qed.

Lemma setenv_all_error vars env (e : error) env' :
  setenv_all vars env = (Some e, env') ->
  exists k v, (k, v) ∈ vars /\ refused (k, v)
              /\ e = ErrSetenv k (ErrLib "invalid argument").
Proof.
  revert env. induction vars as [|[k0 v0] vars IH]; intros env; cbn [setenv_all].
  { discriminate. }
  unfold Os.Setenv. destruct (Os.setenv_refused k0 v0) eqn:Href.
  - intros Heq. inversion Heq; subst. exists k0, v0.
    split; [apply list_elem_of_here|]. split; [exact Href|reflexivity].
  - intros Hrun. destruct (IH _ Hrun) as (k & v & Hin & Hr & He).
    exists k, v. split; [apply list_elem_of_further, Hin|]. auto.
Qed.

Lemma setenv_all_refused vars env :
  Exists refused vars -> exists e env', setenv_all vars env = (Some e, env').
Proof.
  revert env. induction vars as [|[k0 v0] vars IH]; intros env Hex.
  { inversion Hex. }
  cbn [setenv_all]. unfold Os.Setenv.
  destruct (Os.setenv_refused k0 v0) eqn:Href; [eauto|].
  apply IH. inversion Hex as [? ? Hhead|? ? Htail]; subst; [|exact Htail].
  unfold refused in Hhead. cbn [fst snd] in Hhead. congruence.
Qed.

Hypothesis range_ok : visits_entries range_order.

Lemma range_lookup {V : Type} (m : gmap string V) (k : string) (v : V) :
  (k, v) ∈ range_order V m <-> m !! k = Some v.
Proof. rewrite (range_ok V m). apply elem_of_map_to_list. Qed.

Lemma range_keys_NoDup {V : Type} (m : gmap string V) : NoDup (range_order V m).*1.
Proof.
  rewrite (range_ok V m). apply NoDup_fst_map_to_list.
Qed.

Lemma range_key_absent {V : Type} (m : gmap string V) (k : string) :
  m !! k = None -> k ∉ (range_order V m).*1.
Proof.
  intros Hnone Hin. apply list_elem_of_fmap in Hin as ([k' v] & -> & Hin).
  apply range_lookup in Hin. cbn [fst] in Hnone. congruence.
Qed.

(** X4: on a host other than Windows, when [ApplyToCurrentProcess]
    succeeds, every accumulated variable
    reads back its value from the process environment, and a variable that
    was not accumulated keeps its value; the variable PATH is left out of
    both when paths were accumulated. *)
Theorem ApplyToCurrentProcess_sets_variables (m : EnvManager) env env' :
  unix_environment H ->
  ApplyToCurrentProcess H range_order m env = (None, env') ->
  (forall k v, em_Variables m !! k = Some v ->
     em_Paths m = [] \/ k <> "PATH" -> Os.Getenv env' k = v)
  /\ (forall k, em_Variables m !! k = None ->
        em_Paths m = [] \/ k <> "PATH" -> Os.Getenv env' k = Os.Getenv env k).
Proof.
  intros _. unfold ApplyToCurrentProcess.
  destruct (setenv_all (range_order _ (em_Variables m)) env) as [[e|] env1] eqn:Hvars;
    [discriminate|].
  assert (Hall : Forall (fun kv => ~ refused kv) (range_order _ (em_Variables m))).
  { apply Forall_forall. intros [k v] Hin Href.
    destruct (setenv_all_refused (range_order _ (em_Variables m)) env) as (e & env2 & Hbad).
    - apply Exists_exists. exists (k, v). split; [exact Hin|exact Href].
    - congruence. }
  destruct (setenv_all_ok _ env Hall) as (env1' & Hrun & Hother & Hset).
  rewrite Hvars in Hrun. inversion Hrun; subst env1'. clear Hrun.
  assert (Hsetv : forall k v, em_Variables m !! k = Some v -> Os.Getenv env1 k = v).
  { intros k v Hk. apply (Hset (range_keys_NoDup _)). apply range_lookup, Hk. }
  assert (Hkeep : forall k, em_Variables m !! k = None ->
                            Os.Getenv env1 k = Os.Getenv env k).
  { intros k Hk. apply Hother, range_key_absent, Hk. }
  destruct (em_Paths m) as [|p ps] eqn:Hpaths; cbn [length Nat.ltb Nat.leb].
  - intros Heq. inversion Heq; subst. split.
    + intros k v Hk _. apply Hsetv, Hk.
    + intros k Hk _. apply Hkeep, Hk.
  - unfold Os.Setenv. destruct (Os.setenv_refused "PATH" _); [discriminate|].
    intros Heq. inversion Heq; subst. split.
    + intros k v Hk [Hnil|Hne]; [discriminate|].
      rewrite Getenv_put_ne by congruence. apply Hsetv, Hk.
    + intros k Hk [Hnil|Hne]; [discriminate|].
      rewrite Getenv_put_ne by congruence. apply Hkeep, Hk.
Qed.

(** X5: on a host other than Windows, when paths were accumulated and
    [ApplyToCurrentProcess] succeeds, PATH is the accumulated paths joined by the list separator, followed
    by the separator and the previous PATH when that is not empty; the
    previous PATH is the accumulated variable of that name if there is
    one, since the variables are set first. *)
Theorem ApplyToCurrentProcess_prepends_paths (m : EnvManager) env env' :
  unix_environment H ->
  ApplyToCurrentProcess H range_order m env = (None, env') ->
  em_Paths m <> [] ->
  let previous := default (Os.Getenv env "PATH") (em_Variables m !! "PATH") in
  Os.Getenv env' "PATH"
  = if Str.is_empty previous then Str.Join (em_Paths m) (PathListSeparator H)
    else (Str.Join (em_Paths m) (PathListSeparator H)
          ++ PathListSeparator H ++ previous)%string.
Proof.
  intros _. unfold ApplyToCurrentProcess.
  destruct (setenv_all (range_order _ (em_Variables m)) env) as [[e|] env1] eqn:Hvars;
    [discriminate|].
  assert (Hall : Forall (fun kv => ~ refused kv) (range_order _ (em_Variables m))).
  { apply Forall_forall. intros [k v] Hin Href.
    destruct (setenv_all_refused (range_order _ (em_Variables m)) env) as (e & env2 & Hbad).
    - apply Exists_exists. exists (k, v). split; [exact Hin|exact Href].
    - congruence. }
  destruct (setenv_all_ok _ env Hall) as (env1' & Hrun & Hother & Hset).
  rewrite Hvars in Hrun. inversion Hrun; subst env1'. clear Hrun.
  assert (Hprev : Os.Getenv env1 "PATH"
                  = default (Os.Getenv env "PATH") (em_Variables m !! "PATH")).
  { destruct (em_Variables m !! "PATH") as [v|] eqn:Hp; cbn [default].
    - apply (Hset (range_keys_NoDup _)). apply range_lookup, Hp.
    - apply Hother, range_key_absent, Hp. }
  destruct (em_Paths m) as [|p ps] eqn:Hpaths; [congruence|].
  cbn [length Nat.ltb Nat.leb]. intros Hrun _.
  unfold Os.Setenv in Hrun. destruct (Os.setenv_refused "PATH" _); [discriminate|].
  inversion Hrun; subst env'. rewrite Getenv_put_eq, Hprev.
  destruct (Str.is_empty (default _ _)); reflexivity.
Qed.

(** X6: on a host other than Windows, [ApplyToCurrentProcess] fails on
    a variable exactly when the environment refuses one of the accumulated variables (an empty key, a
    key with an equals sign or a NUL byte, a value with a NUL byte), and
    the error names an accumulated variable that is refused. *)
Theorem ApplyToCurrentProcess_fails_on_refused_variable (m : EnvManager) env :
  unix_environment H ->
  ((exists k v, em_Variables m !! k = Some v /\ Os.setenv_refused k v = true)
   <-> (exists k cause,
          (ApplyToCurrentProcess H range_order m env).1 = Some (ErrSetenv k cause)))
  /\ (forall k cause,
        (ApplyToCurrentProcess H range_order m env).1 = Some (ErrSetenv k cause) ->
        exists v, em_Variables m !! k = Some v /\ Os.setenv_refused k v = true).
Proof.
  intros _.
  assert (Hnames : forall k cause,
             (ApplyToCurrentProcess H range_order m env).1 = Some (ErrSetenv k cause) ->
             exists v, em_Variables m !! k = Some v /\ Os.setenv_refused k v = true).
  { intros k cause. unfold ApplyToCurrentProcess.
    destruct (setenv_all (range_order _ (em_Variables m)) env) as [[e|] env1] eqn:Hrun.
    - cbn [fst]. intros Heq. inversion Heq; subst e.
      destruct (setenv_all_error _ _ _ _ Hrun) as (k1 & v1 & Hin & Hr & Heq1).
      inversion Heq1; subst. exists v1. split; [apply range_lookup, Hin|exact Hr].
    - destruct (0 <? length (em_Paths m))%nat; [|discriminate].
      destruct (Os.Setenv env1 "PATH" _); discriminate. }
  split; [|exact Hnames]. split.
  - intros (k & v & Hk & Href). unfold ApplyToCurrentProcess.
    destruct (setenv_all_refused (range_order _ (em_Variables m)) env) as (e & env1 & Hrun).
    { apply Exists_exists. exists (k, v).
      split; [apply range_lookup, Hk|exact Href]. }
    rewrite Hrun. cbn [fst].
    destruct (setenv_all_error _ _ _ _ Hrun) as (k1 & v1 & _ & _ & ->). eauto.
  - intros (k & cause & Herr). destruct (Hnames k cause Herr) as (v & Hk & Href). eauto.
Qed.

End EnvironmentFacts.

(** ** The merged environment *)

Section MergedEnvironmentFacts.

Variable H : Host.
Variable range_order : forall V : Type, gmap string V -> list (string * V).
Hypothesis range_ok : visits_entries range_order.

Lemma SplitN2_entry (k v : string) :
  Text.no_equals k -> Text.SplitN2 "="%char (k ++ "=" ++ v) = (k, Some v).
Proof.
  unfold Text.no_equals. induction k as [|c k IH]; intros Hk.
  - reflexivity.
  - cbn [Os.has_byte] in Hk. apply orb_false_iff in Hk as [Hc Hk].
    change (String c k ++ "=" ++ v)%string with (String c (k ++ "=" ++ v)%string).
    cbn [Text.SplitN2]. rewrite Hc, (IH Hk). reflexivity.
Qed.

Lemma updated_fold (vars : list (string * string)) (u : gset string) (k : string) :
  k ∈ fold_left (fun u kv => {[ kv.1 ]} ∪ u) vars u <-> k ∈ u \/ k ∈ vars.*1.
Proof.
  revert u. induction vars as [|[k0 v0] vars IH]; intros u; cbn [fold_left].
  - split; [auto|]. intros [?|Hin]; [assumption|inversion Hin].
  - rewrite IH. cbn [fmap list_fmap fst].
    rewrite elem_of_cons, elem_of_union, elem_of_singleton. tauto.
Qed.

Lemma remaining_keeps (updated : gset string) (env : list (string * string))
    (k v : string) :
  (k, v) ∈ env -> Text.no_equals k -> k ∉ updated ->
  (k ++ "=" ++ v)%string ∈ remaining updated (Environ env).
Proof.
  intros Hin Hk Hfresh. induction env as [|[k0 v0] env IH]; [inversion Hin|].
  cbn [Environ map remaining fst snd].
  apply elem_of_cons in Hin as [Heq|Hin].
  - inversion Heq; subst k0 v0. rewrite (SplitN2_entry k v Hk).
    rewrite bool_decide_eq_false_2 by exact Hfresh. apply list_elem_of_here.
  - specialize (IH Hin).
    destruct (Text.SplitN2 "="%char (k0 ++ "=" ++ v0)) as [key [rest|]]; [|exact IH].
    destruct (bool_decide (key ∈ updated)); [exact IH|].
    apply list_elem_of_further, IH.
Qed.

Lemma remaining_all (env : list (string * string)) :
  Forall (fun kv => Text.no_equals kv.1) env -> remaining ∅ (Environ env) = Environ env.
Proof.
  induction env as [|[k v] env IH]; intros Hall; [reflexivity|].
  inversion Hall as [|? ? Hk Hrest]; subst. cbn [fst] in Hk.
  cbn [Environ map remaining fst snd]. rewrite (SplitN2_entry k v Hk).
  rewrite bool_decide_eq_false_2 by set_solver.
  f_equal. apply IH, Hrest.
Qed.

(** X7: [GetUpdatedEnvironment] lists every accumulated variable with its
    value, passes on every ambient variable that is neither accumulated
    nor the PATH variable being rewritten, starts with the rewritten PATH
    when paths were accumulated, and with nothing accumulated returns the
    ambient environment as it is. *)
Theorem GetUpdatedEnvironment_merges (m : EnvManager) (env : list (string * string)) :
  let result := GetUpdatedEnvironment H range_order m env in
  (forall k v, em_Variables m !! k = Some v -> (k ++ "=" ++ v)%string ∈ result)
  /\ (forall k v, (k, v) ∈ env -> Text.no_equals k -> em_Variables m !! k = None ->
        em_Paths m = [] \/ k <> path_var H (Environ env) ->
        (k ++ "=" ++ v)%string ∈ result)
  /\ (em_Paths m <> [] ->
      exists rest,
        result
        = (path_var H (Environ env) ++ "="
           ++ (if negb (Str.is_empty (Os.Getenv env (path_var H (Environ env))))
               then Str.Join (em_Paths m) (PathListSeparator H)
                    ++ PathListSeparator H
                    ++ Os.Getenv env (path_var H (Environ env))
               else Str.Join (em_Paths m) (PathListSeparator H)))%string :: rest)
  /\ (em_Paths m = [] -> em_Variables m = ∅ ->
      Forall (fun kv => Text.no_equals kv.1) env -> result = Environ env).
Proof.
  intros result. subst result. unfold GetUpdatedEnvironment.
  set (vars := range_order _ (em_Variables m)).
  assert (Hvars : forall k v, em_Variables m !! k = Some v -> (k, v) ∈ vars).
  { intros k v Hk. unfold vars. rewrite (range_ok _ (em_Variables m)).
    apply elem_of_map_to_list, Hk. }
  assert (Hnovar : forall k, em_Variables m !! k = None -> k ∉ vars.*1).
  { intros k Hk Hin. apply list_elem_of_fmap in Hin as ([k' v'] & -> & Hin).
    unfold vars in Hin. rewrite (range_ok _ (em_Variables m)) in Hin.
    apply elem_of_map_to_list in Hin. cbn [fst] in Hk. congruence. }
  destruct (em_Paths m) as [|p ps] eqn:Hpaths; cbn [length Nat.ltb Nat.leb].
  - split; [|split; [|split]].
    + intros k v Hk. rewrite app_nil_l. apply elem_of_app. left.
      apply (list_elem_of_fmap_2 (fun kv : string * string => (kv.1 ++ "=" ++ kv.2)%string)
               vars (k, v)), Hvars, Hk.
    + intros k v Hin Hk Hnone _. apply elem_of_app. right.
      apply remaining_keeps; [exact Hin|exact Hk|].
      rewrite updated_fold. intros [Hu|Hu]; [set_solver|].
      exact (Hnovar k Hnone Hu).
    + congruence.
    + intros _ Hempty Hall. unfold vars. rewrite Hempty.
      assert (Hnil : range_order string ∅ = []).
      { apply Permutation_nil_r. rewrite (range_ok _ ∅), map_to_list_empty.
        reflexivity. }
      rewrite Hnil. cbn [map fold_left app]. apply remaining_all, Hall.
  - split; [|split; [|split]].
    + intros k v Hk. apply elem_of_app. left. apply elem_of_app. right.
      apply (list_elem_of_fmap_2 (fun kv : string * string => (kv.1 ++ "=" ++ kv.2)%string)
               vars (k, v)), Hvars, Hk.
    + intros k v Hin Hk Hnone [Hnil|Hne]; [discriminate|].
      apply elem_of_app. right. apply remaining_keeps; [exact Hin|exact Hk|].
      rewrite updated_fold. intros [Hu|Hu]; [set_solver|].
      exact (Hnovar k Hnone Hu).
    + intros _. eexists. cbn [app]. reflexivity.
    + discriminate.
Qed.

End MergedEnvironmentFacts.

(** ** The manifest file and the versions *)

Section ConfigFacts.

Variable H : Host.

Lemma first_existing_exists (w : World) (paths : list string) (p : string) :
  first_existing w paths = Some p -> p ∈ paths /\ path_exists w p = true.
Proof.
  induction paths as [|q paths IH]; simpl; [discriminate|].
  destruct (path_exists w q) eqn:Hq.
  - intros Heq. inversion Heq; subst. split; [apply list_elem_of_here|exact Hq].
  - intros Hp. destruct (IH Hp). split; [apply list_elem_of_further|]; assumption.
Qed.

Lemma first_existing_none (w : World) (paths : list string) :
  first_existing w paths = None -> forall p, p ∈ paths -> path_exists w p = false.
Proof.
  induction paths as [|q paths IH]; simpl; intros Hnone p Hin; [inversion Hin|].
  destruct (path_exists w q) eqn:Hq; [discriminate|].
  apply elem_of_cons in Hin as [->|Hin]; [exact Hq|apply IH; assumption].
Qed.

(** X8: a path [FindDependencyFile] returns without an error exists, and
    is the custom path, the custom path with [.yml] added, or a standard
    location; when it returns an error, the error is the not-found one,
    the path is empty, no standard location exists and neither does the
    custom path. *)
Theorem FindDependencyFile_returns_existing (w : World) (customPath : string) :
  (forall p, FindDependencyFile H w customPath = (p, None) ->
     path_exists w p = true
     /\ (p = customPath \/ p = (customPath ++ ".yml")%string \/ p ∈ searchPaths H w))
  /\ (forall p e, FindDependencyFile H w customPath = (p, Some e) ->
        e = ErrConfigNotFound /\ p = EmptyString
        /\ (forall q, q ∈ searchPaths H w -> path_exists w q = false)
        /\ (customPath <> EmptyString -> path_exists w customPath = false)).
Proof.
  unfold FindDependencyFile, custom_hit. split.
  - intros p.
    destruct customPath as [|c rest]; cbn [Str.is_empty negb].
    + destruct (first_existing w (searchPaths H w)) as [q|] eqn:Hstd; [|discriminate].
      intros Heq. inversion Heq; subst.
      destruct (first_existing_exists _ _ _ Hstd). auto.
    + destruct (path_exists w (String c rest)) eqn:Hc.
      { intros Heq. inversion Heq; subst. auto. }
      destruct (negb _ && negb _).
      * destruct (path_exists w (String c rest ++ ".yml")) eqn:Hext.
        { intros Heq. inversion Heq; subst. auto. }
        destruct (first_existing w (searchPaths H w)) as [q|] eqn:Hstd; [|discriminate].
        intros Heq. inversion Heq; subst.
        destruct (first_existing_exists _ _ _ Hstd). auto.
      * destruct (first_existing w (searchPaths H w)) as [q|] eqn:Hstd; [|discriminate].
        intros Heq. inversion Heq; subst.
        destruct (first_existing_exists _ _ _ Hstd). auto.
  - intros p e.
    destruct customPath as [|c rest]; cbn [Str.is_empty negb].
    + destruct (first_existing w (searchPaths H w)) as [q|] eqn:Hstd; [discriminate|].
      intros Heq. inversion Heq; subst.
      split; [reflexivity|]. split; [reflexivity|].
      split; [apply first_existing_none, Hstd|congruence].
    + destruct (path_exists w (String c rest)) eqn:Hc; [discriminate|].
      destruct (negb _ && negb _).
      * destruct (path_exists w (String c rest ++ ".yml")); [discriminate|].
        destruct (first_existing w (searchPaths H w)) as [q|] eqn:Hstd; [discriminate|].
        intros Heq. inversion Heq; subst.
        split; [reflexivity|]. split; [reflexivity|].
        split; [apply first_existing_none, Hstd|auto].
      * destruct (first_existing w (searchPaths H w)) as [q|] eqn:Hstd; [discriminate|].
        intros Heq. inversion Heq; subst.
        split; [reflexivity|]. split; [reflexivity|].
        split; [apply first_existing_none, Hstd|auto].
Qed.

(** X9: [LoadDependencyConfig] reads a given path as it is: when that file
    does not exist the call fails with the read error, also when the path
    with [.yml] added exists and [FindDependencyFile] would return it; a
    file that is read is handed to the parser, whose error is the cause of
    the parse error and whose result is the configuration. *)
Theorem LoadDependencyConfig_reads_given_path
    (yaml_Unmarshal : string -> error + DependencyConfig) (w : World) (path : string) :
  path <> EmptyString ->
  (w_fs w !! path = None ->
     LoadDependencyConfig H yaml_Unmarshal w path
     = (None, Some (LoadRead (ErrLib "no such file or directory"))))
  /\ (w_fs w !! path = None ->
      Str.HasSuffix path ".yml" = false -> Str.HasSuffix path ".yaml" = false ->
      path_exists w (path ++ ".yml")%string = true ->
      FindDependencyFile H w path = ((path ++ ".yml")%string, None))
  /\ (forall data, w_fs w !! path = Some data ->
        LoadDependencyConfig H yaml_Unmarshal w path
        = match yaml_Unmarshal data with
          | inl err => (None, Some (LoadParse err))
          | inr config => (Some config, None)
          end).
Proof.
  intros Hne. destruct path as [|c rest]; [congruence|].
  unfold LoadDependencyConfig, os_ReadFile. cbn [Str.is_empty].
  split; [|split].
  - intros Hmiss. rewrite Hmiss. reflexivity.
  - intros Hmiss Hyml Hyaml Hext.
    unfold FindDependencyFile, custom_hit, path_exists in *. cbn [Str.is_empty negb].
    rewrite Hmiss, Hyml, Hyaml.
    rewrite bool_decide_eq_false_2 by (intros [x Hx]; discriminate).
    cbn [negb andb]. rewrite Hext. reflexivity.
  - intros data Hdata. rewrite Hdata. reflexivity.
Qed.

Lemma compareSegment_lt (a b : N) : (a < b)%N -> Semver.compareSegment a b = (-1)%Z.
Proof.
  intros Hlt. unfold Semver.compareSegment.
  destruct (N.ltb_spec a b); [reflexivity|lia].
Qed.

Lemma compareSegment_refl (a : N) : Semver.compareSegment a a = 0%Z.
Proof. unfold Semver.compareSegment. rewrite N.ltb_irrefl. reflexivity. Qed.

(** X10: for two versions that parse, with the current one smaller in its
    first differing number, [CheckVersionUpdate] answers the class of that
    number: major, then minor, then patch. *)
Theorem CheckVersionUpdate_first_smaller_segment
    (cur req : string) (c r : Semver.Version) :
  NewVersion H cur = inr c ->
  NewVersion H req = inr r ->
  ((Semver.Major c < Semver.Major r)%N ->
     CheckVersionUpdate H cur req = (MajorUpdate, None))
  /\ (Semver.Major c = Semver.Major r -> (Semver.Minor c < Semver.Minor r)%N ->
        CheckVersionUpdate H cur req = (MinorUpdate, None))
  /\ (Semver.Major c = Semver.Major r -> Semver.Minor c = Semver.Minor r ->
        (Semver.Patch c < Semver.Patch r)%N ->
        CheckVersionUpdate H cur req = (PatchUpdate, None)).
Proof.
  intros Hc Hr. unfold CheckVersionUpdate, Semver.Equal, Semver.Compare.
  rewrite Hc, Hr. split; [|split].
  - intros Hlt. rewrite (compareSegment_lt _ _ Hlt). cbn.
    destruct (N.ltb_spec (Semver.Major c) (Semver.Major r)); [reflexivity|lia].
  - intros Hmaj Hlt. rewrite Hmaj, compareSegment_refl, (compareSegment_lt _ _ Hlt).
    cbn. rewrite N.ltb_irrefl.
    destruct (N.ltb_spec (Semver.Minor c) (Semver.Minor r)); [reflexivity|lia].
  - intros Hmaj Hmin Hlt.
    rewrite Hmaj, Hmin, !compareSegment_refl, (compareSegment_lt _ _ Hlt).
    cbn. rewrite !N.ltb_irrefl.
    destruct (N.ltb_spec (Semver.Patch c) (Semver.Patch r)); [reflexivity|lia].
Qed.

(** X11: two versions with the same three numbers are never classified as
    an update, whatever their prerelease tags and build metadata, so also
    when the current one is the older prerelease of the required one. *)
Theorem CheckVersionUpdate_same_numbers (cur req : string) (c r : Semver.Version) :
  NewVersion H cur = inr c ->
  NewVersion H req = inr r ->
  Semver.Major c = Semver.Major r ->
  Semver.Minor c = Semver.Minor r ->
  Semver.Patch c = Semver.Patch r ->
  CheckVersionUpdate H cur req = (NoUpdate, None).
Proof.
  intros Hc Hr Hmaj Hmin Hpat. unfold CheckVersionUpdate. rewrite Hc, Hr.
  rewrite Hmaj, Hmin, Hpat, !N.ltb_irrefl.
  destruct (Semver.Equal _ c r); reflexivity.
Qed.

(** X12: a constraint that validation has accepted is never the reason
    [IsVersionCompatible] fails: for a dependency without validation
    errors and with a constraint, the call fails only on a current version
    that does not parse, and otherwise returns what the constraint says of
    the version. *)
Theorem IsVersionCompatible_after_validation
    (m : Manager) (dep : Dependency) (cur : string) :
  validate_dep H m dep = [] ->
  Constraint (dep_Version dep) <> EmptyString ->
  exists check,
    NewConstraint H (Constraint (dep_Version dep)) = inr check
    /\ IsVersionCompatible H cur (Constraint (dep_Version dep))
       = match NewVersion H cur with
         | inl err => (false, Some (ErrInvalidVersion cur err))
         | inr v => (check v, None)
         end.
Proof.
  intros Hvalid Hcon. unfold validate_dep, version_errors in Hvalid.
  destruct (Platforms dep !! Platform m); [|discriminate].
  apply app_eq_nil in Hvalid as [_ Hc].
  destruct (Constraint (dep_Version dep)) as [|c0 cs] eqn:Hstr; [congruence|].
  cbn [Str.is_empty negb] in Hc. unfold IsVersionCompatible.
  destruct (NewConstraint H (String c0 cs)) as [e|check]; [discriminate|].
  exists check. split; [reflexivity|].
  destruct (NewVersion H cur); reflexivity.
Qed.

End ConfigFacts.

(** ** More on the downloader *)

Section DownloadMore.

Variable H : Host.
Variables (opts : DownloadOptions) (w : World).

(** X13: [Download] returns a result or an error, never both and never
    neither.  A result means that the response had status 200 and its body
    came through; the result names the destination path, the file there
    holds the body, the size is its length, and the checksum is empty when
    none was asked for and otherwise the digest of the body, equal to the
    expected one up to letter case. *)
Theorem Download_result_or_error (r : option Result) (e : option error) (w' : World) :
  Download H opts w = (r, e, w') ->
  (r = None <-> e <> None)
  /\ (forall result, r = Some result ->
        exists resp,
          http_Get H (opt_URL opts) (created H opts w) = inr resp
          /\ StatusCode resp = StatusOK /\ BodyErr resp = None
          /\ FilePath result = destPath H opts
          /\ w_fs w' !! destPath H opts = Some (Body resp)
          /\ Size result = Z.of_nat (String.length (Body resp))
          /\ res_Checksum result
             = (if Str.is_empty (opt_Checksum opts) then EmptyString
                else sha256_hex H (Body resp))
          /\ (opt_Checksum opts <> EmptyString ->
              Str.EqualFold (sha256_hex H (Body resp))
                (nth 1 (Str.Split ":"%char (opt_Checksum opts)) EmptyString) = true)).
Proof.
  destruct (os_MkdirAll H (DestDir opts) w) as [e0|] eqn:Hmk.
  { unfold Download. rewrite Hmk. intros Heq. inversion Heq; subst.
    split; [split; [discriminate|reflexivity]|discriminate]. }
  destruct (os_Create H (destPath H opts) w) as [e0|] eqn:Hcr.
  { unfold destPath in Hcr. unfold Download. rewrite Hmk, Hcr.
    intros Heq. inversion Heq; subst.
    split; [split; [discriminate|reflexivity]|discriminate]. }
  destruct (http_Get H (opt_URL opts) (created H opts w)) as [e0|resp] eqn:Hget.
  { rewrite (Download_request_error H opts w Hmk Hcr e0 Hget).
    intros Heq. inversion Heq; subst.
    split; [split; [discriminate|reflexivity]|discriminate]. }
  destruct (Z.eq_dec (StatusCode resp) StatusOK) as [Hcode|Hcode].
  2:{ rewrite (Download_status_rejected H opts w Hmk Hcr resp Hget Hcode).
      intros Heq. inversion Heq; subst.
      split; [split; [discriminate|reflexivity]|discriminate]. }
  rewrite (Download_status_ok H opts w Hmk Hcr resp Hget Hcode). cbv zeta.
  destruct (opt_Checksum opts) as [|c0 cs] eqn:Hsum; cbn [Str.is_empty negb andb].
  - destruct (BodyErr resp) as [be|] eqn:Hbody; intros Heq; inversion Heq; subst.
    + split; [split; [discriminate|reflexivity]|discriminate].
    + split; [split; [discriminate|congruence]|].
      intros result Hres. inversion Hres; subst. exists resp.
      unfold streamed. cbn.
      rewrite lookup_insert_eq. repeat split; congruence.
  - destruct (negb (length _ =? 2)%nat).
    { intros Heq. inversion Heq; subst.
      split; [split; [discriminate|reflexivity]|discriminate]. }
    destruct (negb (String.eqb _ "sha256")).
    { intros Heq. inversion Heq; subst.
      split; [split; [discriminate|reflexivity]|discriminate]. }
    destruct (BodyErr resp) as [be|] eqn:Hbody.
    { intros Heq. inversion Heq; subst.
      split; [split; [discriminate|reflexivity]|discriminate]. }
    destruct (Str.EqualFold _ _) eqn:Hfold; cbn [negb];
      intros Heq; inversion Heq; subst.
    + split; [split; [discriminate|congruence]|].
      intros result Hres. inversion Hres; subst. exists resp.
      unfold streamed.
      cbn [FilePath Size res_Checksum w_fs set_fs Str.is_empty].
      rewrite lookup_insert_eq. repeat split; congruence.
    + split; [split; [discriminate|reflexivity]|discriminate].
Qed.

(** X14: [Download] sends one request, after the directory and the file
    have been made, and none when one of the two fails, in which case it
    leaves the world as it found it; it never touches the process
    environment or the accumulated changes. *)
Theorem Download_one_request :
  let w' := (Download H opts w).2 in
  w_env w' = w_env w /\ w_envmgr w' = w_envmgr w
  /\ (os_MkdirAll H (DestDir opts) w = None ->
      os_Create H (destPath H opts) w = None ->
      w_trace w' = w_trace w ++ [EvHttpGet (opt_URL opts)])
  /\ (os_MkdirAll H (DestDir opts) w <> None
      \/ os_Create H (destPath H opts) w <> None -> w' = w).
Proof.
  unfold destPath, Download.
  destruct (os_MkdirAll H (DestDir opts) w) as [e0|].
  { cbn. repeat split; auto. intros; congruence. }
  destruct (os_Create H _ w) as [e0|].
  { cbn. repeat split; auto. intros; congruence. }
  assert (Hlast : forall x : option Result * option error * World,
             (w_env x.2 = w_env w /\ w_envmgr x.2 = w_envmgr w
              /\ w_trace x.2 = w_trace w ++ [EvHttpGet (opt_URL opts)]) ->
             w_env x.2 = w_env w /\ w_envmgr x.2 = w_envmgr w
             /\ (@None error = None -> @None error = None ->
                 w_trace x.2 = w_trace w ++ [EvHttpGet (opt_URL opts)])
             /\ (@None error <> None \/ @None error <> None -> x.2 = w)).
  { intros x (He & Hm & Ht). repeat split; auto. intros [Hn|Hn]; congruence. }
  cbv zeta. apply Hlast.
  repeat match goal with
         | |- context [match ?x with _ => _ end] => destruct x
         end; cbn; repeat split.
Qed.

Hypothesis mkdir_ok : os_MkdirAll H (DestDir opts) w = None.
Hypothesis create_ok : os_Create H (destPath H opts) w = None.

(** X15: the checksum option is looked at only once the response is
    there.  A checksum that is not two fields around one colon, or whose
    algorithm is not [sha256] in any letter case, fails the call after the
    request has been sent, with nothing written: the file is left empty. *)
Theorem Download_checks_checksum_late (resp : Response) :
  opt_Checksum opts <> EmptyString ->
  http_Get H (opt_URL opts) (created H opts w) = inr resp ->
  StatusCode resp = StatusOK ->
  let parts := Str.Split ":"%char (opt_Checksum opts) in
  let algorithm := Str.ToLower (nth 0 parts EmptyString) in
  let requested := emit (EvHttpGet (opt_URL opts)) (created H opts w) in
  w_fs requested !! destPath H opts = Some EmptyString
  /\ (length parts <> 2%nat ->
      Download H opts w = (None, Some ErrChecksumFormat, requested))
  /\ (length parts = 2%nat -> algorithm <> "sha256" ->
      Download H opts w = (None, Some (ErrUnsupportedAlgorithm algorithm), requested)).
Proof.
  intros Hsum Hget Hcode parts algorithm requested.
  split; [apply lookup_insert_eq|].
  pose proof (Download_status_ok H opts w mkdir_ok create_ok resp Hget Hcode) as Hrun.
  cbv zeta in Hrun. fold parts algorithm requested in Hrun.
  destruct (opt_Checksum opts) as [|c0 cs] eqn:Hstr; [congruence|].
  cbn [Str.is_empty negb andb] in Hrun. split.
  - intros Hlen. apply Nat.eqb_neq in Hlen. rewrite Hlen in Hrun. exact Hrun.
  - intros Hlen Halg. apply Nat.eqb_eq in Hlen. apply String.eqb_neq in Halg.
    rewrite Hlen, Halg in Hrun. exact Hrun.
Qed.

(** X16: when the body breaks off, with no checksum asked for or with a
    well-formed one, the call fails with the write error, and the file is
    not removed: it holds what was delivered. *)
Theorem Download_broken_stream_keeps_file (resp : Response) (cause : error) :
  http_Get H (opt_URL opts) (created H opts w) = inr resp ->
  StatusCode resp = StatusOK ->
  BodyErr resp = Some cause ->
  opt_Checksum opts = EmptyString
  \/ (exists expected, Str.Split ":"%char (opt_Checksum opts) = ["sha256"; expected]) ->
  exists w',
    Download H opts w = (None, Some (ErrWriteFile cause), w')
    /\ w_fs w' !! destPath H opts = Some (Body resp).
Proof.
  intros Hget Hcode Hbody Hsum.
  pose proof (Download_status_ok H opts w mkdir_ok create_ok resp Hget Hcode) as Hrun.
  cbv zeta in Hrun. rewrite Hbody in Hrun.
  destruct Hsum as [Hnone|[expected Hparts]].
  - rewrite Hnone in Hrun. cbn [Str.is_empty negb andb] in Hrun.
    eexists. split; [exact Hrun|]. unfold streamed. cbn. apply lookup_insert_eq.
  - rewrite Hparts in Hrun. cbn [length Nat.eqb nth negb] in Hrun.
    change (Str.ToLower "sha256") with "sha256" in Hrun.
    rewrite String.eqb_refl, !andb_false_r in Hrun.
    eexists. split; [exact Hrun|]. unfold streamed. cbn. apply lookup_insert_eq.
Qed.

End DownloadMore.


(** ** More on verification and installation *)

Section ManagerFacts.

Variable H : Host.
Variable range_order : forall V : Type, gmap string V -> list (string * V).

Lemma only_traced_refl (w : World) : only_traced w w.
Proof. unfold only_traced. auto. Qed.

Lemma only_traced_trans (w1 w2 w3 : World) :
  only_traced w1 w2 -> only_traced w2 w3 -> only_traced w1 w3.
Proof.
  intros (?&?&?&?) (?&?&?&?). unfold only_traced.
  split; [congruence|]. split; [congruence|]. split; [congruence|].
  etransitivity; eassumption.
Qed.

Lemma only_traced_emit (e : Event) (w : World) : only_traced w (emit e w).
Proof.
  unfold only_traced. split; [reflexivity|]. split; [reflexivity|].
  split; [reflexivity|]. cbn. apply prefix_app_r. reflexivity.
Qed.

Ltac traced_steps :=
  repeat (first [ apply only_traced_refl
                | eapply only_traced_trans; [|apply only_traced_emit] ]).

Lemma commands_emit (e : Event) (w : World) :
  commands (w_trace (emit e w))
  = commands (w_trace w)
    ++ match e with EvExec argv => [argv] | _ => [] end.
Proof.
  unfold commands. cbn. rewrite omap_app. cbn. destruct e; reflexivity.
Qed.

Lemma classify_only_traced (dep : Dependency) (outputStr : string)
    (status : DependencyStatus) (w : World) :
  only_traced w (classify H dep outputStr status w).2
  /\ commands (w_trace (classify H dep outputStr status w).2) = commands (w_trace w).
Proof.
  unfold classify, logf.
  match goal with
  | |- context [match ?p with _ => _ end] =>
      assert (Hmid : only_traced w p.2 /\ commands (w_trace p.2) = commands (w_trace w));
      [|destruct p as [status1 w1]; cbn [snd] in Hmid; destruct Hmid as [Hm Hc]]
  end.
  - repeat match goal with
           | |- context [match ?x with _ => _ end] => destruct x
           end; cbn [snd];
      (split; [traced_steps|rewrite ?commands_emit, ?app_nil_r; reflexivity]).
  - repeat match goal with
           | |- context [match ?x with _ => _ end] => destruct x
           end; cbn [snd];
      (split; [eapply only_traced_trans; [exact Hm|]; traced_steps
              |rewrite ?commands_emit, ?app_nil_r; exact Hc]).
Qed.

Lemma classify_name (dep : Dependency) (outputStr : string)
    (status : DependencyStatus) (w : World) :
  st_Name (classify H dep outputStr status w).1 = st_Name status.
Proof.
  unfold classify.
  match goal with
  | |- context [match ?p with _ => _ end] =>
      assert (Hmid : st_Name p.1 = st_Name status);
      [|destruct p as [status1 w1]; cbn [fst] in Hmid]
  end.
  - repeat match goal with
           | |- context [match ?x with _ => _ end] => destruct x
           end; reflexivity.
  - repeat match goal with
           | |- context [match ?x with _ => _ end] => destruct x
           end; cbn; exact Hmid.
Qed.

(** The state [VerifyDependency] leaves and the command it runs. *)
Lemma VerifyDependency_only_traced (m : Manager) (dep : Dependency) (w : World) :
  let w' := (VerifyDependency H m dep w).2 in
  only_traced w w'
  /\ commands (w_trace w') = commands (w_trace w) ++ verify_command m dep.
Proof.
  unfold VerifyDependency, GetPlatformConfig, verify_command.
  destruct (Platforms dep !! Platform m) as [pc|]; cbn [snd];
    [|rewrite app_nil_r; split; [apply only_traced_refl|reflexivity]].
  destruct (length (Verify (pc_Commands pc)) =? 0)%nat; cbn [snd];
    [rewrite app_nil_r; split; [apply only_traced_refl|reflexivity]|].
  set (w1 := emit (EvExec _) (logf _ _ _ w)).
  assert (Hw1 : only_traced w w1
                /\ commands (w_trace w1)
                   = commands (w_trace w) ++ [Verify (pc_Commands pc)]).
  { subst w1. unfold logf. split; [traced_steps|].
    rewrite !commands_emit, app_nil_r. reflexivity. }
  destruct Hw1 as [Ht Hc].
  destruct (DeadlineExceeded _); cbn [snd]; [split; assumption|].
  destruct (CmdErr _); cbn [snd]; [split; assumption|].
  match goal with
  | |- context [classify H dep ?o ?s w1] =>
      pose proof (classify_only_traced dep o s w1) as [Ht2 Hc2];
      destruct (classify H dep o s w1) as [status w2]
  end.
  cbn [snd] in *. split; [eapply only_traced_trans; eassumption|congruence].
Qed.

(** X17: the status [VerifyDependency] returns carries the name of the
    dependency, is installed exactly when no error is returned, carries
    the returned error, and is not up to date when there is one; a
    deadline that has passed gives the timeout error whether or not the
    command also reports an error. *)
Theorem VerifyDependency_status_matches_error (m : Manager) (dep : Dependency) (w : World) :
  let status := (VerifyDependency H m dep w).1.1 in
  let err := (VerifyDependency H m dep w).1.2 in
  st_Name status = Name dep
  /\ (Installed status = true <-> err = None)
  /\ (forall e, err = Some e -> Error status = Some e /\ up_to_date status = false)
  /\ (forall pc, Platforms dep !! Platform m = Some pc ->
        Verify (pc_Commands pc) <> [] ->
        DeadlineExceeded
          (exec_Run H (Verify (pc_Commands pc))
             (logf LevelInfo "Verifying dependency: %s" [ArgS (Name dep)] w)) = true ->
        err = Some ErrVerifyTimeout).
Proof.
  unfold VerifyDependency, GetPlatformConfig.
  destruct (Platforms dep !! Platform m) as [pc|]; cbn [fst snd].
  2:{ split; [reflexivity|]. split; [split; discriminate|].
      split; [|discriminate]. intros e Heq. inversion Heq; subst. auto. }
  destruct (Verify (pc_Commands pc)) as [|v0 vs] eqn:Hv; cbn [length Nat.eqb fst snd].
  { split; [reflexivity|]. split; [split; discriminate|].
    split; [intros e Heq; inversion Heq; subst; auto|].
    intros pc' Heq. inversion Heq; subst. congruence. }
  destruct (DeadlineExceeded _) eqn:Hdl; cbn [fst snd].
  { split; [reflexivity|]. split; [split; discriminate|].
    split; [intros e Heq; inversion Heq; subst; auto|]. reflexivity. }
  destruct (CmdErr _) as [ce|]; cbn [fst snd].
  { split; [reflexivity|]. split; [split; discriminate|].
    split; [intros e Heq; inversion Heq; subst; auto|].
    intros pc' Heq. inversion Heq; subst pc'. rewrite Hv, Hdl. discriminate. }
  match goal with
  | |- context [classify H dep ?o ?s ?w1] =>
      pose proof (classify_spec H dep o s w1) as Hspec;
      pose proof (classify_name dep o s w1) as Hname;
      destruct (classify H dep o s w1) as [status w2]
  end.
  cbv zeta in Hspec. cbn [fst snd] in *. destruct Hspec as (Hinst & _).
  split; [exact Hname|]. split; [split; [reflexivity|intros _; exact Hinst]|].
  split; [discriminate|].
  intros pc' Heq. inversion Heq; subst pc'. rewrite Hv, Hdl. discriminate.
Qed.

(** X18: a required version that does not parse does not make a
    dependency need installing.  When the verify command succeeds, there
    is no constraint, and the classification fails, the status carries the
    error and is nevertheless up to date, which is what the install loop
    skips. *)
Theorem VerifyDependency_unclassified_is_up_to_date
    (m : Manager) (dep : Dependency) (w : World) (pc : PlatformConfig)
    (u : UpdateType) (e : error) :
  Platforms dep !! Platform m = Some pc ->
  Verify (pc_Commands pc) <> [] ->
  let r := exec_Run H (Verify (pc_Commands pc))
             (logf LevelInfo "Verifying dependency: %s" [ArgS (Name dep)] w) in
  DeadlineExceeded r = false ->
  CmdErr r = None ->
  Required (dep_Version dep) <> EmptyString ->
  Constraint (dep_Version dep) = EmptyString ->
  CheckVersionUpdate H (current_of H (Str.TrimSpace (Output r)))
    (Required (dep_Version dep)) = (u, Some e) ->
  let status := (VerifyDependency H m dep w).1.1 in
  (VerifyDependency H m dep w).1.2 = None
  /\ Error status = Some e
  /\ up_to_date status = true.
Proof.
  intros Hpc Hverify r Hdl Hcmd Hreq Hcon Hupd.
  unfold VerifyDependency, GetPlatformConfig. rewrite Hpc.
  destruct (Verify (pc_Commands pc)) as [|v0 vs] eqn:Hv; [congruence|].
  cbn [length Nat.eqb]. fold r. rewrite Hdl, Hcmd.
  unfold classify. fold (current_of H (Str.TrimSpace (Output r))).
  set (s1 := if negb (Str.is_empty (extractVersion H (Str.TrimSpace (Output r))))
             then _ else _).
  assert (Hcur : CurrentVersion s1 = current_of H (Str.TrimSpace (Output r))).
  { subst s1. unfold current_of.
    destruct (negb (Str.is_empty (extractVersion H (Str.TrimSpace (Output r)))));
      reflexivity. }
  assert (Hfields : Installed s1 = true /\ RequiredUpdate s1 = NoUpdate).
  { subst s1.
    destruct (negb (Str.is_empty (extractVersion H (Str.TrimSpace (Output r)))));
      split; reflexivity. }
  destruct Hfields as [Hinst Hnone].
  rewrite Hcur, Hupd, Hcon.
  destruct (Required (dep_Version dep)) as [|rc rr]; [congruence|].
  cbn [Str.is_empty negb fst snd].
  split; [reflexivity|]. split; [reflexivity|].
  unfold up_to_date. cbn [Installed Compatible RequiredUpdate with_compatible with_error].
  rewrite Hinst, Hnone. reflexivity.
Qed.

Lemma check_each_only_traced (m : Manager) (deps : list Dependency)
    (results : gmap string DependencyStatus) (w : World) :
  let w' := (check_each H m deps results w).2 in
  only_traced w w'
  /\ commands (w_trace w')
     = commands (w_trace w) ++ concat (map (verify_command m) deps).
Proof.
  revert results w. induction deps as [|dep deps IH]; intros results w; cbn.
  - rewrite app_nil_r. split; [apply only_traced_refl|reflexivity].
  - unfold CheckDependency.
    pose proof (VerifyDependency_only_traced m dep w) as [Ht Hc].
    destruct (VerifyDependency H m dep w) as [[status err] w1]. cbn [snd] in *.
    destruct (IH (<[Name dep := status]> results) w1) as [Ht' Hc'].
    split; [eapply only_traced_trans; eassumption|].
    rewrite Hc', Hc, app_assoc. reflexivity.
Qed.

(** X19: [CheckAllDependencies] is read-only: files, process environment
    and accumulated changes are as before and the trace has only grown;
    on a valid manifest the commands it runs are the verify commands of
    the manifest, in its order, and nothing else; on an invalid one it
    runs none. *)
Theorem CheckAllDependencies_read_only (m : Manager) (cfg : DependencyConfig) (w : World) :
  Config m = Some cfg ->
  let w' := (CheckAllDependencies H m w).2 in
  only_traced w w'
  /\ commands (w_trace w')
     = commands (w_trace w)
       ++ (if (0 <? length (validate_list H m (cfg_Dependencies cfg)))%nat then []
           else concat (map (verify_command m) (cfg_Dependencies cfg))).
Proof.
  intros Hcfg. unfold CheckAllDependencies, validateDependencies. rewrite Hcfg.
  destruct (0 <? length (validate_list H m (cfg_Dependencies cfg)))%nat; cbn [snd].
  - rewrite app_nil_r. split; [apply only_traced_refl|reflexivity].
  - pose proof (check_each_only_traced m (cfg_Dependencies cfg) ∅ w) as Hrun.
    cbv zeta in Hrun.
    destruct (check_each H m (cfg_Dependencies cfg) ∅ w) as [results w1].
    exact Hrun.
Qed.

End ManagerFacts.

Section InstallMore.

Variable H : Host.
Variables (m : Manager) (dep : Dependency) (w : World) (pc : PlatformConfig).
Hypothesis platform_ok : Platforms dep !! Platform m = Some pc.


Lemma Download_commands (opts : DownloadOptions) (w0 : World) :
  commands (w_trace (Download H opts w0).2) = commands (w_trace w0).
Proof.
  unfold Download.
  repeat match goal with
         | |- context [match ?x with _ => _ end] => destruct x
         end; cbn [snd w_trace set_fs];
    rewrite ?commands_emit, ?app_nil_r; reflexivity.
Qed.

(** The world in which [installDependency] starts a download. *)
Let downloading : World :=
  logf LevelInfo "Downloading %s from %s"
    [ArgS (Name dep); ArgS (URL (pc_Installer pc))] w.

(** X21: when the download fails, [installDependency] returns the
    download error wrapped, and the install command is neither announced
    nor run. *)
Theorem installDependency_download_failure (tempDir : string)
    (r : option Result) (e : error) (w1 : World) :
  os_MkdirTemp H "depman-download-*" w = inr tempDir ->
  URL (pc_Installer pc) <> EmptyString ->
  Download H (download_options pc tempDir) downloading = (r, Some e, w1) ->
  (installDependency H m dep w).1 = Returned (Some (ErrDownloadDependency e))
  /\ commands (w_trace (installDependency H m dep w).2) = commands (w_trace w)
  /\ installations (w_trace (installDependency H m dep w).2)
     = installations (w_trace w).
Proof.
  intros Htemp Hurl Hdl. unfold installDependency, GetPlatformConfig.
  rewrite platform_ok, Htemp. unfold install_in.
  assert (Hne : negb (Str.is_empty (URL (pc_Installer pc))) = true).
  { destruct (URL (pc_Installer pc)); [congruence|reflexivity]. }
  cbv zeta. rewrite Hne. fold downloading. rewrite Hdl.
  pose proof (Download_commands (download_options pc tempDir) downloading) as Hc.
  pose proof (quiet_Download H (download_options pc tempDir) downloading) as (_ & _ & Hi).
  rewrite Hdl in Hc, Hi. cbn [snd] in Hc, Hi.
  destruct r; cbn [fst snd RemoveAll w_trace set_fs];
    (split; [reflexivity|]); rewrite Hc, Hi; unfold downloading, logf;
    rewrite commands_emit, installations_emit, !app_nil_r; split; reflexivity.
Qed.

(** X22: an install template with no opening brace is run as it is
    written.  [installDependency] runs at most one command, the template
    itself, and has run it whenever it returns success. *)
Theorem installDependency_runs_template_verbatim :
  Forall (fun arg => Text.no_brace arg = true) (Install (pc_Commands pc)) ->
  exists l,
    commands (w_trace (installDependency H m dep w).2) = commands (w_trace w) ++ l
    /\ (l = [] \/ l = [Install (pc_Commands pc)])
    /\ ((installDependency H m dep w).1 = Returned None ->
        l = [Install (pc_Commands pc)]).
Proof.
  intros Hplain. unfold installDependency, GetPlatformConfig. rewrite platform_ok.
  destruct (os_MkdirTemp H _ w) as [e|tempDir]; cbn [fst snd].
  { exists []. rewrite app_nil_r. split; [reflexivity|]. split; [auto|discriminate]. }
  unfold install_in.
  set (dl := if negb (Str.is_empty (URL (pc_Installer pc))) then _ else _).
  assert (Hdl : commands (w_trace dl.2) = commands (w_trace w)).
  { subst dl. destruct (negb _); cbn [snd]; [|reflexivity].
    pose proof (Download_commands (download_options pc tempDir) downloading) as Hc.
    fold downloading.
    destruct (Download H _ downloading) as [[[result|] [e|]] w1]; cbn [snd] in *;
      unfold logf; rewrite ?commands_emit, ?app_nil_r, Hc;
      unfold downloading, logf; rewrite commands_emit, app_nil_r; reflexivity. }
  destruct dl as [[downloadPath failed] w1]. cbn [snd] in Hdl.
  destruct failed as [e|]; cbn [fst snd RemoveAll w_trace set_fs].
  { exists []. rewrite app_nil_r. split; [exact Hdl|]. split; [auto|discriminate]. }
  assert (Hsame : map (fun arg => Str.ReplaceAll arg "{download_path}" downloadPath)
                    (Install (pc_Commands pc)) = Install (pc_Commands pc)).
  { induction Hplain as [|arg args Harg _ IH]; [reflexivity|].
    cbn [map]. rewrite IH.
    pose proof (ReplaceAll_no_brace arg "download_path" downloadPath Harg) as Hr.
    change (brace "download_path") with "{download_path}" in Hr.
    rewrite Hr. reflexivity. }
  rewrite Hsame.
  destruct (Install (pc_Commands pc)) as [|c0 cs] eqn:Hcmd; cbn [fst snd].
  { exists []. unfold logf. cbn [RemoveAll w_trace set_fs].
    rewrite commands_emit, !app_nil_r. split; [exact Hdl|]. split; [auto|discriminate]. }
  exists [c0 :: cs].
  destruct (CmdErr _); cbn [fst snd RemoveAll w_trace set_fs]; unfold logf;
    rewrite ?commands_emit, ?app_nil_r, Hdl; split; auto.
Qed.

End InstallMore.

(** ** More on the engine *)

Section EngineMore.

Variable H : Host.
Variable range_order : forall V : Type, gmap string V -> list (string * V).

Lemma ensure_each_skips (m : Manager) (deps : list Dependency)
    (entries : list (string * DependencyStatus))
    (statuses : gmap string DependencyStatus) (w : World) :
  Forall (fun kv => up_to_date kv.2 = true) entries ->
  ensure_each H range_order m deps entries statuses w = (LoopDone, statuses, w).
Proof.
  induction 1 as [|[name status] entries Hhead _ IH]; [reflexivity|].
  cbn [ensure_each]. cbn [snd] in Hhead. rewrite Hhead. exact IH.
Qed.

Lemma apply_and_log_commands (w : World) :
  commands (w_trace (apply_and_log H range_order w)) = commands (w_trace w)
  /\ installations (w_trace (apply_and_log H range_order w))
     = installations (w_trace w).
Proof.
  unfold apply_and_log.
  destruct (ApplyToCurrentProcess H range_order (w_envmgr w) (w_env w)) as [[e|] env];
    unfold logf; rewrite ?commands_emit, ?installations_emit, ?app_nil_r;
    split; reflexivity.
Qed.

Lemma find_dep_is_Some (deps : list Dependency) (name : string) :
  name ∈ Name <$> deps -> is_Some (find_dep deps name).
Proof.
  induction deps as [|d deps IH]; cbn [fmap list_fmap find_dep]; intros Hin.
  - inversion Hin.
  - destruct (String.eqb_spec (Name d) name) as [_|Hne]; [eauto|].
    apply elem_of_cons in Hin as [Heq|Hin]; [congruence|]. apply IH, Hin.
Qed.

Lemma install_in_error_kind (dep : Dependency) (pc : PlatformConfig)
    (tempDir : string) (w : World) (e : error) :
  (install_in H dep pc tempDir w).1 = Returned (Some e) ->
  forall name, e <> ErrDepNotFound name.
Proof.
  unfold install_in.
  set (dl := if negb (Str.is_empty (URL (pc_Installer pc))) then _ else _).
  assert (Hdl : forall e0, dl.1.2 = Some e0 -> forall name, e0 <> ErrDepNotFound name).
  { subst dl. destruct (negb _); cbn [fst snd]; [|discriminate].
    destruct (Download H _ _) as [[[result|] [de|]] w1]; cbn [fst snd];
      intros e0 Heq name; inversion Heq; subst; discriminate. }
  destruct dl as [[downloadPath [de|]] w1]; cbn [fst snd] in *.
  { intros Heq. inversion Heq; subst. apply (Hdl _ eq_refl). }
  destruct (map _ (Install (pc_Commands pc))) as [|c0 cs]; cbn [fst]; [discriminate|].
  destruct (CmdErr _); cbn [fst]; intros Heq name; inversion Heq; subst; discriminate.
Qed.

Lemma installDependency_error_kind (m : Manager) (dep : Dependency) (w : World)
    (e : error) :
  (installDependency H m dep w).1 = Returned (Some e) ->
  forall name, e <> ErrDepNotFound name.
Proof.
  unfold installDependency, GetPlatformConfig.
  destruct (Platforms dep !! Platform m) as [pc|]; cbn [fst].
  2:{ intros Heq name. inversion Heq; subst. discriminate. }
  destruct (os_MkdirTemp H _ w) as [e0|tempDir]; cbn [fst].
  { intros Heq name. inversion Heq; subst. discriminate. }
  pose proof (install_in_error_kind dep pc tempDir w e) as Hkind.
  destruct (install_in H dep pc tempDir w) as [r w1]. exact Hkind.
Qed.

Lemma VerifyDependency_error_kind (m : Manager) (dep : Dependency) (w : World)
    (e : error) :
  (VerifyDependency H m dep w).1.2 = Some e -> forall name, e <> ErrDepNotFound name.
Proof.
  unfold VerifyDependency, GetPlatformConfig.
  destruct (Platforms dep !! Platform m) as [pc|]; cbn [fst snd].
  2:{ intros Heq name. inversion Heq; subst. discriminate. }
  destruct (length (Verify (pc_Commands pc)) =? 0)%nat; cbn [fst snd].
  { intros Heq name. inversion Heq; subst. discriminate. }
  destruct (DeadlineExceeded _); cbn [fst snd].
  { intros Heq name. inversion Heq; subst. discriminate. }
  destruct (CmdErr _); cbn [fst snd].
  { intros Heq name. inversion Heq; subst. discriminate. }
  destruct (classify H dep _ _ _). discriminate.
Qed.

(** The install loop on entries that are keys of the map and names of the
    manifest: it keeps the keys of the map, and does not end with the
    not-found error. *)
Lemma ensure_each_keys (m : Manager) (deps : list Dependency)
    (entries : list (string * DependencyStatus))
    (statuses : gmap string DependencyStatus) (w : World) :
  Forall (fun kv => is_Some (statuses !! kv.1) /\ is_Some (find_dep deps kv.1)) entries ->
  let e := (ensure_each H range_order m deps entries statuses w).1.1 in
  let statuses' := (ensure_each H range_order m deps entries statuses w).1.2 in
  (forall name, is_Some (statuses' !! name) <-> is_Some (statuses !! name))
  /\ (forall name, e <> LoopReturn (ErrDepNotFound name)).
Proof.
  revert statuses w.
  induction entries as [|[name status] entries IH]; intros statuses w Hall.
  { cbn. split; [reflexivity|discriminate]. }
  inversion Hall as [|? ? [Hkey Hfound] Hrest]; subst. cbn [fst] in Hkey, Hfound.
  cbn [ensure_each].
  destruct (up_to_date status); [apply IH, Hrest|].
  destruct Hfound as [dep Hfind]. rewrite Hfind.
  assert (Hins : forall v name', is_Some (<[name := v]> statuses !! name')
                                 <-> is_Some (statuses !! name')).
  { intros v name'. destruct (decide (name = name')) as [->|Hne].
    - rewrite lookup_insert_eq. split; [intros _; exact Hkey|eauto].
    - rewrite lookup_insert_ne by assumption. reflexivity. }
  pose proof (installDependency_error_kind m dep w) as Hkind.
  destruct (installDependency H m dep w) as [[[err|]|msg] w1]; cbn [fst snd] in *.
  - split; [apply Hins|]. intros name' Heq. inversion Heq; subst.
    exact (Hkind _ eq_refl name' eq_refl).
  - destruct (setupDependencyEnvironment H range_order dep w1) as [serr w2].
    set (w3 := match serr with Some _ => _ | None => w2 end).
    unfold CheckDependency.
    pose proof (VerifyDependency_error_kind m dep w3) as Hvkind.
    destruct (VerifyDependency H m dep w3) as [[updated [verr|]] w4]; cbn [fst snd] in *.
    + split; [reflexivity|]. intros name' Heq. inversion Heq; subst.
      exact (Hvkind _ eq_refl name' eq_refl).
    + destruct (IH (<[name := updated]> statuses) w4) as [Hdom Hnot].
      { apply Forall_forall. intros [k s] Hin.
        rewrite Forall_forall in Hrest. destruct (Hrest _ Hin) as [Hk Hf].
        split; [apply Hins, Hk|exact Hf]. }
      split; [|exact Hnot]. intros name'. rewrite Hdom. apply Hins.
  - split; [reflexivity|discriminate].
Qed.

Lemma check_each_names (m : Manager) (deps : list Dependency) (w : World) (name : string) :
  is_Some ((check_each H m deps ∅ w).1 !! name) <-> name ∈ Name <$> deps.
Proof.
  pose proof (check_each_results H m deps ∅ w) as (_ & Hall & Hfrom). split.
  - intros [status Hlook]. destruct (Hfrom name status Hlook) as [Hold|Hnew].
    + rewrite lookup_empty in Hold. discriminate.
    + destruct Hnew as (d & _ & Hin & <- & _).
      apply list_elem_of_fmap_2, Hin.
  - intros Hin. apply list_elem_of_fmap in Hin as (d & -> & Hin). apply Hall, Hin.
Qed.

Hypothesis range_ok : visits_entries range_order.

Variables (m : Manager) (w : World).

Lemma entries_of_check (cfg : DependencyConfig)
    (statuses : gmap string DependencyStatus) (w0 : World) :
  Config m = Some cfg ->
  CheckAllDependencies H m w = (Returned (Some statuses, None), w0) ->
  (forall name, is_Some (statuses !! name) <-> name ∈ Name <$> cfg_Dependencies cfg)
  /\ Forall (fun kv => is_Some (statuses !! kv.1)
                       /\ is_Some (find_dep (cfg_Dependencies cfg) kv.1))
       (range_order _ statuses).
Proof.
  intros Hcfg Hcheck.
  destruct (CheckAllDependencies_run H m w cfg statuses w0 Hcfg Hcheck) as [_ Heach].
  assert (Hnames : forall name, is_Some (statuses !! name)
                                <-> name ∈ Name <$> cfg_Dependencies cfg).
  { intros name. rewrite <- (check_each_names m (cfg_Dependencies cfg) w name).
    rewrite Heach. reflexivity. }
  split; [exact Hnames|]. apply Forall_forall. intros [k s] Hin.
  rewrite (range_ok _ statuses) in Hin. apply elem_of_map_to_list in Hin.
  cbn [fst]. assert (Hk : is_Some (statuses !! k)) by eauto.
  split; [exact Hk|]. apply find_dep_is_Some, Hnames, Hk.
Qed.

(** X23: when every status of the check is installed, compatible and
    without update, [EnsureDependencies] installs nothing: it returns the
    statuses of the check with no error, runs no command and announces no
    installation after the check, and applies the accumulated changes. *)
Theorem EnsureDependencies_up_to_date_installs_nothing (cfg : DependencyConfig)
    (statuses : gmap string DependencyStatus) (w0 : World) :
  Config m = Some cfg ->
  CheckAllDependencies H m w = (Returned (Some statuses, None), w0) ->
  (forall name status, statuses !! name = Some status -> up_to_date status = true) ->
  EnsureDependencies H range_order m w
  = (Returned (Some statuses, None), apply_and_log H range_order w0)
  /\ commands (w_trace (EnsureDependencies H range_order m w).2) = commands (w_trace w0)
  /\ installations (w_trace (EnsureDependencies H range_order m w).2)
     = installations (w_trace w).
Proof.
  intros Hcfg Hcheck Hall.
  assert (Hrun : EnsureDependencies H range_order m w
                 = (Returned (Some statuses, None), apply_and_log H range_order w0)).
  { rewrite (EnsureDependencies_run H range_order m w cfg statuses w0 Hcfg Hcheck).
    rewrite ensure_each_skips; [reflexivity|].
    apply Forall_forall. intros [k s] Hin. cbn [snd].
    rewrite (range_ok _ statuses) in Hin. apply elem_of_map_to_list in Hin. eauto. }
  rewrite Hrun. cbn [snd]. split; [reflexivity|].
  destruct (apply_and_log_commands w0) as [Hc Hi]. split; [exact Hc|].
  rewrite Hi.
  destruct (CheckAllDependencies_run H m w cfg statuses w0 Hcfg Hcheck) as [_ Heach].
  pose proof (check_each_frame H m (cfg_Dependencies cfg) ∅ w) as (_ & Hinst & _).
  rewrite Heach in Hinst. exact Hinst.
Qed.

(** X24: on a configuration that is missing or does not validate,
    [EnsureDependencies] returns no statuses and the configuration error,
    and leaves the world as it found it; [CheckAllDependencies], which has
    no nil check, panics on a missing configuration. *)
Theorem EnsureDependencies_invalid_configuration :
  (Config m = None ->
     EnsureDependencies H range_order m w
     = (Returned (None, Some (ErrInvalidConfiguration ErrNoConfigLoaded)), w)
     /\ exists msg, CheckAllDependencies H m w = (Panicked msg, w))
  /\ (forall cfg, Config m = Some cfg ->
        validate_list H m (cfg_Dependencies cfg) <> [] ->
        EnsureDependencies H range_order m w
        = (Returned (None,
                     Some (ErrInvalidConfiguration
                             (ErrValidationErrors
                                (validate_list H m (cfg_Dependencies cfg))))), w)).
Proof.
  split.
  - intros Hnil.
    unfold EnsureDependencies, validateConfiguration, CheckAllDependencies,
      validateDependencies.
    rewrite Hnil. split; [reflexivity|eauto].
  - intros cfg Hcfg Herr. unfold EnsureDependencies, validateConfiguration.
    rewrite Hcfg.
    destruct (validate_list H m (cfg_Dependencies cfg)) as [|e0 es]; [congruence|].
    reflexivity.
Qed.

(** X25: the install loop always finds the definition it looks up: the
    keys of the status map are names of the manifest, so
    [EnsureDependencies] never returns the dependency-not-found error. *)
Theorem EnsureDependencies_never_not_found
    (statuses : option (gmap string DependencyStatus)) (name : string) (w' : World) :
  EnsureDependencies H range_order m w
  <> (Returned (statuses, Some (ErrDepNotFound name)), w').
Proof.
  intros Hrun. unfold EnsureDependencies in Hrun.
  destruct (validateConfiguration H m) as [verr|] eqn:Hvalid; [discriminate|].
  unfold validateConfiguration in Hvalid.
  destruct (Config m) as [cfg|] eqn:Hcfg; [|discriminate].
  destruct (CheckAllDependencies H m w) as [[[[st0|] [cerr|]]|msg] w0] eqn:Hcheck.
  - unfold CheckAllDependencies, validateDependencies in Hcheck. rewrite Hcfg in Hcheck.
    destruct (0 <? length (validate_list H m (cfg_Dependencies cfg)))%nat;
      [discriminate|].
    destruct (check_each H m (cfg_Dependencies cfg) ∅ w). discriminate.
  - change (default [] (cfg_Dependencies <$> Some cfg))
      with (cfg_Dependencies cfg) in Hrun.
    destruct (entries_of_check cfg st0 w0 Hcfg Hcheck) as [_ Hentries].
    pose proof (ensure_each_keys m (cfg_Dependencies cfg) (range_order _ st0) st0 w0
                  Hentries) as Hkeys.
    cbv zeta in Hkeys.
    destruct (ensure_each H range_order m (cfg_Dependencies cfg)
                (range_order _ st0) st0 w0) as [[[|lerr|msg] st1] w1];
      cbn [fst snd] in Hkeys; try discriminate.
    destruct Hkeys as [_ Hnot]. inversion Hrun; subst.
    exact (Hnot name eq_refl).
  - unfold CheckAllDependencies, validateDependencies in Hcheck. rewrite Hcfg in Hcheck.
    destruct (0 <? length (validate_list H m (cfg_Dependencies cfg)))%nat.
    + inversion Hcheck; subst. discriminate.
    + destruct (check_each H m (cfg_Dependencies cfg) ∅ w). discriminate.
  - discriminate.
  - discriminate.
Qed.

(** X26: a status map returned by [EnsureDependencies], with or without an
    error, has an entry for exactly the names the manifest declares. *)
Theorem EnsureDependencies_keeps_names (cfg : DependencyConfig)
    (statuses : gmap string DependencyStatus) (e : option error) (w' : World) :
  Config m = Some cfg ->
  EnsureDependencies H range_order m w = (Returned (Some statuses, e), w') ->
  forall name, is_Some (statuses !! name) <-> name ∈ Name <$> cfg_Dependencies cfg.
Proof.
  intros Hcfg Hrun name. unfold EnsureDependencies in Hrun.
  destruct (validateConfiguration H m) as [verr|] eqn:Hvalid; [discriminate|].
  destruct (CheckAllDependencies H m w) as [[[[st0|] [cerr|]]|msg] w0] eqn:Hcheck;
    try discriminate.
  - unfold CheckAllDependencies, validateDependencies in Hcheck. rewrite Hcfg in Hcheck.
    destruct (0 <? length (validate_list H m (cfg_Dependencies cfg)))%nat;
      [discriminate|].
    destruct (check_each H m (cfg_Dependencies cfg) ∅ w). discriminate.
  - rewrite Hcfg in Hrun.
    change (default [] (cfg_Dependencies <$> Some cfg))
      with (cfg_Dependencies cfg) in Hrun.
    destruct (entries_of_check cfg st0 w0 Hcfg Hcheck) as [Hnames Hentries].
    pose proof (ensure_each_keys m (cfg_Dependencies cfg) (range_order _ st0) st0 w0
                  Hentries) as Hkeys.
    cbv zeta in Hkeys.
    destruct (ensure_each H range_order m (cfg_Dependencies cfg)
                (range_order _ st0) st0 w0) as [[[|lerr|msg] st1] w1];
      cbn [fst snd] in Hkeys; inversion Hrun; subst;
      destruct Hkeys as [Hdom _]; rewrite Hdom; apply Hnames.
Qed.

End EngineMore.


(** ** Duplicate names, the accumulator, the registry *)

Section DuplicatesAndSetup.

Variable H : Host.
Variable range_order : forall V : Type, gmap string V -> list (string * V).

Lemma find_dep_first (pre post : list Dependency) (d : Dependency) :
  (forall x, x ∈ pre -> Name x <> Name d) ->
  find_dep (pre ++ d :: post) (Name d) = Some d.
Proof.
  induction pre as [|x pre IH]; intros Hfresh; cbn [app find_dep].
  - rewrite String.eqb_refl. reflexivity.
  - destruct (String.eqb_spec (Name x) (Name d)) as [Heq|_].
    + exfalso. exact (Hfresh x (list_elem_of_here _ _) Heq).
    + apply IH. intros y Hin. apply Hfresh, list_elem_of_further, Hin.
Qed.

(** X27: when the manifest declares a name twice, the status map holds the
    status of the last dependency of that name, while the install loop
    looks the name up and gets the first one. *)
Theorem duplicate_name_last_status_first_definition
    (m : Manager) (cfg : DependencyConfig) (w : World)
    (pre mid post : list Dependency) (first last : Dependency) :
  Config m = Some cfg ->
  cfg_Dependencies cfg = pre ++ first :: mid ++ last :: post ->
  validate_list H m (cfg_Dependencies cfg) = [] ->
  Name first = Name last ->
  (forall x, x ∈ pre -> Name x <> Name first) ->
  (forall x, x ∈ post -> Name x <> Name last) ->
  exists results w',
    CheckAllDependencies H m w = (Returned (Some results, None), w')
    /\ results !! Name last
       = Some (CheckDependency H m last
                 (check_each H m (pre ++ first :: mid) ∅ w).2).1.1
    /\ find_dep (cfg_Dependencies cfg) (Name last) = Some first.
Proof.
  intros Hcfg Hdeps Hvalid Hsame Hpre Hpost.
  unfold CheckAllDependencies, validateDependencies. rewrite Hcfg, Hvalid.
  cbn [length Nat.ltb Nat.leb]. rewrite Hdeps.
  replace (pre ++ first :: mid ++ last :: post)
    with ((pre ++ first :: mid) ++ last :: post)
    by (rewrite <- app_assoc; reflexivity).
  rewrite check_each_app.
  destruct (check_each H m (pre ++ first :: mid) ∅ w) as [r1 w1]. cbn [fst snd].
  cbn [check_each].
  destruct (CheckDependency H m last w1) as [[status err] w2] eqn:Hlast.
  pose proof (check_each_untouched H m post (<[Name last := status]> r1) w2 (Name last) Hpost)
    as Hkeep.
  destruct (check_each H m post (<[Name last := status]> r1) w2) as [results w3].
  cbn [fst] in Hkeep. exists results, w3. split; [reflexivity|].
  split; [rewrite Hkeep; apply lookup_insert_eq|].
  rewrite <- app_assoc. cbn [app]. rewrite <- Hsame. apply find_dep_first, Hpre.
Qed.

Lemma accumulated_refl (w : World) : accumulated w w.
Proof. unfold accumulated. repeat (split; [reflexivity|]). auto. Qed.

Lemma accumulated_trans (w1 w2 w3 : World) :
  accumulated w1 w2 -> accumulated w2 w3 -> accumulated w1 w3.
Proof.
  intros (?&?&?&?&?&?) (?&?&?&?&?&?). unfold accumulated.
  split; [congruence|]. split; [congruence|]. split; [congruence|].
  split; [etransitivity; eassumption|]. auto.
Qed.

Lemma accumulated_fold {A : Type} (f : World -> A -> World) (l : list A) :
  (forall w a, accumulated w (f w a)) -> forall w, accumulated w (fold_left f l w).
Proof.
  intros Hf. induction l as [|a l IH]; intros w; cbn [fold_left].
  - apply accumulated_refl.
  - eapply accumulated_trans; [apply Hf|apply IH].
Qed.

Lemma accumulated_log (l : Level) (format : string) (args : list LogArg) (w : World) :
  accumulated w (logf l format args w).
Proof.
  unfold accumulated, logf. rewrite commands_emit, app_nil_r.
  repeat (split; [reflexivity|]). auto.
Qed.

Lemma accumulated_AddPath (path : string) (w : World) :
  accumulated w (set_envmgr (AddPath H path (w_envmgr w)) w).
Proof.
  unfold accumulated, AddPath. cbn [w_fs w_env w_trace w_envmgr set_envmgr].
  repeat (split; [reflexivity|]).
  destruct (existsb _ (em_Paths (w_envmgr w))) eqn:Hin; cbn [em_Paths em_Variables].
  - split; [reflexivity|]. auto.
  - split; [apply prefix_app_r; reflexivity|]. split; [|auto].
    intros Hnd. apply NoDup_app. split; [exact Hnd|]. split; [|apply NoDup_singleton].
    intros x Hx Hx'. apply list_elem_of_singleton in Hx'. subst x.
    apply existsb_eqb_elem in Hx. congruence.
Qed.

Lemma accumulated_AddVariable (key value : string) (w : World) :
  accumulated w (set_envmgr (AddVariable key value (w_envmgr w)) w).
Proof.
  unfold accumulated, AddVariable. cbn [w_fs w_env w_trace w_envmgr set_envmgr
                                         em_Paths em_Variables].
  repeat (split; [reflexivity|]). split; [auto|].
  intros k Hk. destruct (decide (key = k)) as [->|Hne].
  - rewrite lookup_insert_eq. eauto.
  - rewrite lookup_insert_ne by assumption. exact Hk.
Qed.

(** The second loop of [setupDependencyEnvironment] over a list of
    entries: every key of the list is accumulated afterwards. *)
Lemma variables_fold_keys (name : string) (vars : list (string * string)) (w : World)
    (k : string) :
  k ∈ vars.*1 ->
  is_Some (em_Variables
             (w_envmgr
                (fold_left
                   (fun w kv =>
                      let expandedValue :=
                        ExpandVariables range_order (w_envmgr w) (w_env w) kv.2 in
                      let w := set_envmgr (AddVariable kv.1 expandedValue (w_envmgr w)) w in
                      logf LevelDebug "Set environment variable %s=%s for dependency %s"
                        [ArgS kv.1; ArgS expandedValue; ArgS name] w)
                   vars w)) !! k).
Proof.
  revert w. induction vars as [|[k0 v0] vars IH]; intros w Hin; [inversion Hin|].
  cbn [fold_left fst snd]. cbn [fmap list_fmap fst] in Hin.
  apply elem_of_cons in Hin as [->|Hin]; [|apply IH, Hin].
  match goal with
  | |- context [fold_left ?f vars ?w1] =>
      pose proof (accumulated_fold f vars) as Hfold; specialize (Hfold
        ltac:(intros w2 a; eapply accumulated_trans;
              [apply accumulated_AddVariable|apply accumulated_log]) w1);
      destruct Hfold as (_ & _ & _ & _ & _ & Hkeys); apply Hkeys
  end.
  unfold logf, AddVariable. cbn [w_envmgr emit set_envmgr em_Variables].
  rewrite lookup_insert_eq. eauto.
Qed.

(** X28: [setupDependencyEnvironment] never fails and only adds to the
    accumulator: files, process environment and commands run are as
    before, the paths accumulated so far stay first and in order, a path
    list without repetition stays so, no variable is lost, and every
    variable the dependency declares is accumulated; with a nil path list
    and no variables the world is left as it is. *)
Theorem setupDependencyEnvironment_accumulates (dep : Dependency) (w : World) :
  visits_entries range_order ->
  (setupDependencyEnvironment H range_order dep w).1 = None
  /\ accumulated w (setupDependencyEnvironment H range_order dep w).2
  /\ (forall k, is_Some (Variables (dep_Environment dep) !! k) ->
        is_Some (em_Variables
                   (w_envmgr (setupDependencyEnvironment H range_order dep w).2) !! k))
  /\ (Path (dep_Environment dep) = None -> Variables (dep_Environment dep) = ∅ ->
      (setupDependencyEnvironment H range_order dep w).2 = w).
Proof.
  intros Hrange. unfold setupDependencyEnvironment.
  destruct (bool_decide (Path (dep_Environment dep) = None)
            && (size (Variables (dep_Environment dep)) =? 0)%nat) eqn:Hnone;
    cbn [fst snd].
  - split; [reflexivity|]. split; [apply accumulated_refl|]. split; [|reflexivity].
    apply andb_true_iff in Hnone as [_ Hsize]. apply Nat.eqb_eq in Hsize.
    apply map_size_empty_iff in Hsize. rewrite Hsize. intros k [v Hk].
    rewrite lookup_empty in Hk. discriminate.
  - split; [reflexivity|]. split; [|split].
    + eapply accumulated_trans;
        [|apply accumulated_fold; intros w0 a;
          eapply accumulated_trans;
          [apply accumulated_AddVariable|apply accumulated_log]].
      apply accumulated_fold. intros w0 a.
      eapply accumulated_trans; [apply accumulated_AddPath|apply accumulated_log].
    + intros k [v Hk]. apply variables_fold_keys.
      apply (list_elem_of_fmap_2 fst _ (k, v)).
      rewrite (Hrange _ (Variables (dep_Environment dep))).
      apply elem_of_map_to_list, Hk.
    + intros Hpath Hvars. rewrite Hpath, Hvars in Hnone.
      rewrite bool_decide_eq_true_2 in Hnone by reflexivity.
      rewrite map_size_empty in Hnone. discriminate.
Qed.

End DuplicatesAndSetup.

Section RegistryFacts.

Implicit Types (deps : gmap string Registry.Dependency) (dep : Registry.Dependency).

(** X29: in the registry, adding a dependency whose name is free succeeds
    and removing that name afterwards gives the registry back; adding a
    name that is taken and removing a name that is absent fail and change
    nothing. *)
Theorem Registry_add_remove deps dep :
  (deps !! Registry.Name dep = None ->
     exists deps',
       Registry.Add dep deps = (None, deps')
       /\ deps' !! Registry.Name dep = Some dep
       /\ Registry.Remove (Registry.Name dep) deps' = (None, deps))
  /\ (is_Some (deps !! Registry.Name dep) ->
        Registry.Add dep deps = (Some (ErrLib "dependency already exists"), deps))
  /\ (forall name, deps !! name = None ->
        Registry.Remove name deps = (Some (ErrLib "dependency not found"), deps)).
Proof.
  unfold Registry.Add, Registry.Remove. split; [|split].
  - intros Hfree. rewrite Hfree. eexists. split; [reflexivity|].
    rewrite lookup_insert_eq. split; [reflexivity|].
    rewrite delete_insert_eq, delete_id by exact Hfree. reflexivity.
  - intros [d Hd]. rewrite Hd. reflexivity.
  - intros name Hnone. rewrite Hnone. reflexivity.
Qed.

(** X30: [Add] and [Remove] keep every dependency stored under its own
    name, and for such a registry [List] returns each stored dependency
    once: as many as the registry holds, with names that do not repeat. *)
Theorem Registry_list_distinct
    (range_order : forall V : Type, gmap string V -> list (string * V)) deps :
  visits_entries range_order ->
  Registry.keyed_by_name deps ->
  (forall dep, Registry.keyed_by_name (Registry.Add dep deps).2)
  /\ (forall name, Registry.keyed_by_name (Registry.Remove name deps).2)
  /\ length (Registry.List range_order deps) = size deps
  /\ NoDup (Registry.Name <$> Registry.List range_order deps)
  /\ (forall dep, dep ∈ Registry.List range_order deps
                  <-> deps !! Registry.Name dep = Some dep).
Proof.
  intros Hrange Hkeyed. split; [|split; [|split; [|split]]].
  - intros dep. unfold Registry.Add.
    destruct (deps !! Registry.Name dep) eqn:Hd; cbn [snd]; [exact Hkeyed|].
    intros key d' Hlook. destruct (decide (Registry.Name dep = key)) as [<-|Hne].
    + rewrite lookup_insert_eq in Hlook. inversion Hlook; subst. reflexivity.
    + rewrite lookup_insert_ne in Hlook by assumption. apply Hkeyed, Hlook.
  - intros name. unfold Registry.Remove.
    destruct (deps !! name) eqn:Hd; cbn [snd]; [|exact Hkeyed].
    intros key d' Hlook. apply lookup_delete_Some in Hlook as [_ Hlook].
    apply Hkeyed, Hlook.
  - unfold Registry.List. rewrite length_map, (Hrange _ deps).
    apply length_map_to_list.
  - unfold Registry.List.
    assert (Hkeys : forall l : list (string * Registry.Dependency),
               Forall (fun kv => Registry.Name kv.2 = kv.1) l ->
               Registry.Name <$> map snd l = l.*1).
    { induction 1 as [|[k d] l Hhead _ IH]; [reflexivity|].
      cbn [map fmap list_fmap fst snd] in *. rewrite Hhead. f_equal. exact IH. }
    rewrite Hkeys.
    + rewrite (Hrange _ deps). apply NoDup_fst_map_to_list.
    + apply Forall_forall. intros [k d] Hin. rewrite (Hrange _ deps) in Hin.
      apply elem_of_map_to_list in Hin. apply Hkeyed, Hin.
  - intros dep. unfold Registry.List. split.
    + intros Hin. apply list_elem_of_In, in_map_iff in Hin as ([k d] & Heq & Hin).
      cbn [snd] in Heq. subst d. apply list_elem_of_In in Hin.
      rewrite (Hrange _ deps) in Hin. apply elem_of_map_to_list in Hin.
      rewrite (Hkeyed k dep Hin). exact Hin.
    + intros Hlook. apply list_elem_of_In, in_map_iff.
      exists (Registry.Name dep, dep). split; [reflexivity|].
      apply list_elem_of_In. rewrite (Hrange _ deps).
      apply elem_of_map_to_list, Hlook.
Qed.

End RegistryFacts.

(** ** The further properties on the sample machines *)

Lemma range_fwd_visits : visits_entries Sample.range_fwd.
Proof. intros V m. reflexivity. Qed.

Lemma ExpandVariables_without_brace_witness :
  ExpandVariables Sample.range_fwd Sample.acc_a (w_env Sample.empty_world)
    "/usr/local/bin" = "/usr/local/bin".
Proof.
  apply (ExpandVariables_without_brace Sample.range_fwd Sample.acc_a
           (w_env Sample.empty_world) "/usr/local/bin").
  reflexivity.
Defined.

Lemma ApplyToCurrentProcess_sets_variables_witness :
  Os.Getenv Sample.applied_env "A_HOME" = "/opt/a"
  /\ Os.Getenv Sample.applied_env "HOME" = "/home/u".
Proof.
  destruct (ApplyToCurrentProcess_sets_variables Sample.quiet_host Sample.range_fwd
              range_fwd_visits Sample.acc_a (w_env Sample.empty_world)
              Sample.applied_env ltac:(discriminate)
              ltac:(vm_compute; reflexivity)) as [Hset Hkeep].
  split.
  - apply Hset; [vm_compute; reflexivity|right; discriminate].
  - rewrite (Hkeep "HOME"); [reflexivity|vm_compute; reflexivity|right; discriminate].
Defined.

Lemma ApplyToCurrentProcess_prepends_paths_witness :
  Os.Getenv Sample.applied_env "PATH" = "/opt/a/bin:/usr/bin".
Proof.
  rewrite (ApplyToCurrentProcess_prepends_paths Sample.quiet_host Sample.range_fwd
             range_fwd_visits Sample.acc_a (w_env Sample.empty_world)
             Sample.applied_env ltac:(discriminate)
             ltac:(vm_compute; reflexivity) ltac:(discriminate)).
  vm_compute. reflexivity.
Defined.

Lemma ApplyToCurrentProcess_fails_on_refused_variable_witness :
  exists k cause,
    (ApplyToCurrentProcess Sample.quiet_host Sample.range_fwd Sample.acc_bad
       (w_env Sample.empty_world)).1 = Some (ErrSetenv k cause).
Proof.
  destruct (ApplyToCurrentProcess_fails_on_refused_variable Sample.quiet_host
              Sample.range_fwd range_fwd_visits Sample.acc_bad
              (w_env Sample.empty_world) ltac:(discriminate)) as [[Hfail _] _].
  apply Hfail. exists "A=B", "x". split; vm_compute; reflexivity.
Defined.

Lemma GetUpdatedEnvironment_merges_witness :
  "A_HOME=/opt/a" ∈ GetUpdatedEnvironment Sample.quiet_host Sample.range_fwd
                      Sample.acc_a (w_env Sample.empty_world)
  /\ "HOME=/home/u" ∈ GetUpdatedEnvironment Sample.quiet_host Sample.range_fwd
                        Sample.acc_a (w_env Sample.empty_world).
Proof.
  destruct (GetUpdatedEnvironment_merges Sample.quiet_host Sample.range_fwd
              range_fwd_visits Sample.acc_a (w_env Sample.empty_world))
    as (Hvars & Hpass & _).
  split.
  - apply (Hvars "A_HOME" "/opt/a"). vm_compute. reflexivity.
  - apply (Hpass "HOME" "/home/u");
      [apply list_elem_of_here|reflexivity|vm_compute; reflexivity
      |right; vm_compute; discriminate].
Defined.

Lemma LoadDependencyConfig_reads_given_path_witness :
  LoadDependencyConfig Sample.quiet_host Sample.no_yaml Sample.world_with_manifest
    "config/app-dependencies"
  = (None, Some (LoadRead (ErrLib "no such file or directory")))
  /\ FindDependencyFile Sample.quiet_host Sample.world_with_manifest
       "config/app-dependencies"
     = ("config/app-dependencies.yml", None).
Proof.
  destruct (LoadDependencyConfig_reads_given_path Sample.quiet_host Sample.no_yaml
              Sample.world_with_manifest "config/app-dependencies"
              ltac:(discriminate)) as (Hread & Hfind & _).
  split.
  - apply Hread. vm_compute. reflexivity.
  - apply Hfind; vm_compute; reflexivity.
Defined.

Lemma CheckVersionUpdate_first_smaller_segment_witness :
  CheckVersionUpdate Sample.quiet_host "1.2.3" "1.3.0" = (MinorUpdate, None).
Proof.
  destruct (CheckVersionUpdate_first_smaller_segment Sample.quiet_host "1.2.3" "1.3.0"
              (Semver.mkVersion 1 2 3 "" "") (Semver.mkVersion 1 3 0 "" "")
              eq_refl eq_refl) as (_ & Hminor & _).
  apply Hminor; [reflexivity|simpl; lia].
Defined.

Lemma CheckVersionUpdate_same_numbers_witness :
  CheckVersionUpdate Sample.quiet_host "1.0.0-alpha" "1.0.0" = (NoUpdate, None)
  /\ Semver.Compare Sample.compare_tags (Semver.mkVersion 1 0 0 "alpha" "")
       (Semver.mkVersion 1 0 0 "" "") = (-1)%Z.
Proof.
  split; [|reflexivity].
  apply (CheckVersionUpdate_same_numbers Sample.quiet_host "1.0.0-alpha" "1.0.0"
           (Semver.mkVersion 1 0 0 "alpha" "") (Semver.mkVersion 1 0 0 "" ""));
    reflexivity.
Defined.

Lemma IsVersionCompatible_after_validation_witness :
  exists check,
    NewConstraint Sample.quiet_host "^1.0.0" = inr check
    /\ IsVersionCompatible Sample.quiet_host "not-a-version" "^1.0.0"
       = (false, Some (ErrInvalidVersion "not-a-version"
                         (ErrLib "Invalid Semantic Version"))).
Proof.
  destruct (IsVersionCompatible_after_validation Sample.quiet_host
              (Sample.manager_of [Sample.tool_a]) Sample.tool_a "not-a-version"
              ltac:(vm_compute; reflexivity) ltac:(discriminate))
    as (check & Hparse & Hrun).
  exists check. split; [exact Hparse|exact Hrun].
Defined.

Lemma Download_result_or_error_witness :
  (Download (Sample.web_host 200 "200 OK" "hello") Sample.dl_opts
     Sample.empty_world).1.2 = None
  /\ w_fs (Download (Sample.web_host 200 "200 OK" "hello") Sample.dl_opts
             Sample.empty_world).2 !! "/tmp/dl/tool.tar.gz" = Some "hello".
Proof.
  destruct (Download (Sample.web_host 200 "200 OK" "hello") Sample.dl_opts
              Sample.empty_world) as [[r e] w'] eqn:Hrun.
  destruct (Download_result_or_error (Sample.web_host 200 "200 OK" "hello")
              Sample.dl_opts Sample.empty_world r e w' Hrun) as [Hxor Hpost].
  assert (Hr : r = Some {| FilePath := "/tmp/dl/tool.tar.gz"; Size := 5;
                           res_Checksum :=
                             "2cf24dba5fb0a30e26e83b2ac5b9e29e1b161e5c1fa7425e73043362938b9824" |}).
  { vm_compute in Hrun. inversion Hrun. reflexivity. }
  destruct (Hpost _ Hr) as (resp & Hget & _ & _ & _ & Hfile & _).
  vm_compute in Hget. inversion Hget; subst resp. cbn [fst snd]. split.
  - destruct e as [e|]; [|reflexivity]. destruct Hxor as [_ Hnone].
    rewrite Hnone in Hr by discriminate. discriminate.
  - exact Hfile.
Defined.

Lemma Download_checks_checksum_late_witness :
  Download (Sample.web_host 200 "200 OK" "hello") Sample.dl_opts_md5 Sample.empty_world
  = (None, Some (ErrUnsupportedAlgorithm "md5"),
     emit (EvHttpGet "https://example.com/tool.tar.gz")
       (created (Sample.web_host 200 "200 OK" "hello") Sample.dl_opts_md5
          Sample.empty_world)).
Proof.
  destruct (Download_checks_checksum_late (Sample.web_host 200 "200 OK" "hello")
              Sample.dl_opts_md5 Sample.empty_world eq_refl eq_refl
              {| StatusCode := 200; Status := "200 OK"; Body := "hello";
                 BodyErr := None |}
              ltac:(discriminate) eq_refl eq_refl) as (_ & _ & Halg).
  apply Halg; [reflexivity|vm_compute; discriminate].
Defined.

Lemma Download_broken_stream_keeps_file_witness :
  exists w',
    Download Sample.broken_host Sample.dl_opts_plain Sample.empty_world
    = (None, Some (ErrWriteFile (ErrLib "unexpected EOF")), w')
    /\ w_fs w' !! "/tmp/dl/tool.tar.gz" = Some "hel".
Proof.
  apply (Download_broken_stream_keeps_file Sample.broken_host Sample.dl_opts_plain
           Sample.empty_world eq_refl eq_refl Sample.broken_response
           (ErrLib "unexpected EOF") eq_refl eq_refl eq_refl).
  left. reflexivity.
Defined.

Lemma VerifyDependency_unclassified_is_up_to_date_witness :
  (VerifyDependency Sample.ready_host (Sample.manager_of [Sample.tool_latest])
     Sample.tool_latest Sample.empty_world).1.2 = None
  /\ Error (VerifyDependency Sample.ready_host (Sample.manager_of [Sample.tool_latest])
              Sample.tool_latest Sample.empty_world).1.1
     = Some (ErrInvalidRequiredVersion "latest" (ErrLib "Invalid Semantic Version"))
  /\ up_to_date (VerifyDependency Sample.ready_host
                   (Sample.manager_of [Sample.tool_latest])
                   Sample.tool_latest Sample.empty_world).1.1 = true.
Proof.
  apply (VerifyDependency_unclassified_is_up_to_date Sample.ready_host
           (Sample.manager_of [Sample.tool_latest]) Sample.tool_latest
           Sample.empty_world (Sample.pc_of "latest" ["install"; "latest"]) NoUpdate
           (ErrInvalidRequiredVersion "latest" (ErrLib "Invalid Semantic Version")));
    [reflexivity|discriminate|reflexivity|reflexivity|discriminate|reflexivity
    |vm_compute; reflexivity].
Defined.

Lemma CheckAllDependencies_read_only_witness :
  only_traced Sample.empty_world
    (CheckAllDependencies (Sample.tools_host [])
       (Sample.manager_of [Sample.tool_a; Sample.tool_b]) Sample.empty_world).2
  /\ commands
       (w_trace (CheckAllDependencies (Sample.tools_host [])
                   (Sample.manager_of [Sample.tool_a; Sample.tool_b])
                   Sample.empty_world).2)
     = [["a"; "--version"]; ["b"; "--version"]].
Proof.
  destruct (CheckAllDependencies_read_only (Sample.tools_host [])
              (Sample.manager_of [Sample.tool_a; Sample.tool_b])
              (Sample.manifest_of [Sample.tool_a; Sample.tool_b])
              Sample.empty_world eq_refl) as [Honly Hcmds].
  split; [exact Honly|]. rewrite Hcmds. vm_compute. reflexivity.
Defined.


Lemma installDependency_download_failure_witness :
  (installDependency Sample.quiet_host (Sample.manager_of [Sample.tool_net])
     Sample.tool_net Sample.empty_world).1
  = Returned (Some (ErrDownloadDependency
                      (ErrDownloadFile (ErrLib "dial tcp: connection refused"))))
  /\ commands (w_trace (installDependency Sample.quiet_host
                          (Sample.manager_of [Sample.tool_net])
                          Sample.tool_net Sample.empty_world).2) = [].
Proof.
  destruct (installDependency_download_failure Sample.quiet_host
              (Sample.manager_of [Sample.tool_net]) Sample.tool_net Sample.empty_world
              Sample.pc_net eq_refl "/tmp/depman-download-1" None
              (ErrDownloadFile (ErrLib "dial tcp: connection refused"))
              (Download Sample.quiet_host
                 (download_options Sample.pc_net "/tmp/depman-download-1")
                 (logf LevelInfo "Downloading %s from %s"
                    [ArgS "net"; ArgS "https://example.com/net.tar.gz"]
                    Sample.empty_world)).2
              eq_refl ltac:(discriminate) ltac:(vm_compute; reflexivity))
    as (Herr & Hcmds & _).
  split; [exact Herr|exact Hcmds].
Defined.

Lemma installDependency_runs_template_verbatim_witness :
  commands (w_trace (installDependency (Sample.tools_host [])
                       (Sample.manager_of [Sample.tool_a])
                       Sample.tool_a Sample.empty_world).2)
  = [["install"; "a"]].
Proof.
  destruct (installDependency_runs_template_verbatim (Sample.tools_host [])
              (Sample.manager_of [Sample.tool_a]) Sample.tool_a Sample.empty_world
              (Sample.pc_of "a" ["install"; "a"]) eq_refl
              ltac:(repeat constructor)) as (l & Hcmds & _ & Hran).
  rewrite Hcmds, (Hran ltac:(vm_compute; reflexivity)). reflexivity.
Defined.

Lemma EnsureDependencies_up_to_date_installs_nothing_witness :
  installations
    (w_trace (EnsureDependencies Sample.ready_host Sample.range_fwd
                (Sample.manager_of [Sample.tool_a; Sample.tool_b])
                Sample.empty_world).2) = []
  /\ commands
       (w_trace (EnsureDependencies Sample.ready_host Sample.range_fwd
                   (Sample.manager_of [Sample.tool_a; Sample.tool_b])
                   Sample.empty_world).2)
     = [["a"; "--version"]; ["b"; "--version"]].
Proof.
  assert (Hall : forall name status,
             Sample.ready_statuses !! name = Some status -> up_to_date status = true).
  { intros name status Hlook. apply elem_of_map_to_list in Hlook.
    vm_compute in Hlook.
    repeat (apply elem_of_cons in Hlook as [Heq|Hlook];
            [inversion Heq; subst; reflexivity|]).
    inversion Hlook. }
  destruct (EnsureDependencies_up_to_date_installs_nothing Sample.ready_host
              Sample.range_fwd range_fwd_visits
              (Sample.manager_of [Sample.tool_a; Sample.tool_b]) Sample.empty_world
              (Sample.manifest_of [Sample.tool_a; Sample.tool_b])
              Sample.ready_statuses Sample.ready_check.2 eq_refl
              ltac:(vm_compute; reflexivity) Hall) as (_ & Hcmds & Hinst).
  split; [exact Hinst|]. rewrite Hcmds. vm_compute. reflexivity.
Defined.

Lemma EnsureDependencies_never_not_found_witness :
  Sample.run_aborted
  <> (Returned (Some ∅, Some (ErrDepNotFound "b")), Sample.empty_world).
Proof.
  apply (EnsureDependencies_never_not_found (Sample.tools_host ["b"]) Sample.range_fwd
           range_fwd_visits (Sample.manager_of [Sample.tool_a; Sample.tool_b])
           Sample.empty_world).
Defined.

Lemma EnsureDependencies_keeps_names_witness :
  is_Some (Sample.aborted_statuses !! "b")
  /\ Sample.aborted_statuses !! "c" = None.
Proof.
  pose proof (EnsureDependencies_keeps_names (Sample.tools_host ["b"]) Sample.range_fwd
                range_fwd_visits (Sample.manager_of [Sample.tool_a; Sample.tool_b])
                Sample.empty_world (Sample.manifest_of [Sample.tool_a; Sample.tool_b])
                Sample.aborted_statuses
                (Some (ErrInstallFailed (ErrLib "exit status 1") "cannot install"))
                Sample.run_aborted.2 eq_refl ltac:(vm_compute; reflexivity))
    as Hnames.
  split.
  - apply Hnames. apply list_elem_of_further, list_elem_of_here.
  - apply eq_None_not_Some. intros Hsome. apply Hnames in Hsome.
    vm_compute in Hsome.
    repeat (apply elem_of_cons in Hsome as [Heq|Hsome]; [discriminate|]).
    inversion Hsome.
Defined.

Lemma duplicate_name_last_status_first_definition_witness :
  exists results w',
    CheckAllDependencies (Sample.tools_host [])
      (Sample.manager_of [Sample.tool_a; Sample.tool_a_again]) Sample.empty_world
    = (Returned (Some results, None), w')
    /\ is_Some (results !! "a")
    /\ find_dep [Sample.tool_a; Sample.tool_a_again] "a" = Some Sample.tool_a.
Proof.
  destruct (duplicate_name_last_status_first_definition (Sample.tools_host [])
              (Sample.manager_of [Sample.tool_a; Sample.tool_a_again])
              (Sample.manifest_of [Sample.tool_a; Sample.tool_a_again])
              Sample.empty_world [] [] [] Sample.tool_a Sample.tool_a_again
              eq_refl eq_refl ltac:(vm_compute; reflexivity) eq_refl
              ltac:(intros x Hx; inversion Hx) ltac:(intros x Hx; inversion Hx))
    as (results & w' & Hrun & Hlast & Hfirst).
  exists results, w'. split; [exact Hrun|]. split; [|exact Hfirst].
  change (Name Sample.tool_a_again) with "a" in Hlast. rewrite Hlast. eauto.
Defined.

Lemma setupDependencyEnvironment_accumulates_witness :
  is_Some (em_Variables
             (w_envmgr (setupDependencyEnvironment Sample.quiet_host Sample.range_fwd
                          Sample.tool_a Sample.empty_world).2) !! "A_HOME")
  /\ w_env (setupDependencyEnvironment Sample.quiet_host Sample.range_fwd
              Sample.tool_a Sample.empty_world).2 = w_env Sample.empty_world.
Proof.
  destruct (setupDependencyEnvironment_accumulates Sample.quiet_host Sample.range_fwd
              Sample.tool_a Sample.empty_world range_fwd_visits)
    as (_ & (_ & Henv & _) & Hkeys & _).
  split; [|exact Henv]. apply Hkeys. vm_compute. eauto.
Defined.

Lemma Registry_list_distinct_witness :
  length (Registry.List Sample.range_fwd Sample.one_registry) = 1%nat
  /\ Sample.git ∈ Registry.List Sample.range_fwd Sample.one_registry.
Proof.
  assert (Hkeyed : Registry.keyed_by_name Sample.one_registry).
  { intros key dep Hlook. unfold Sample.one_registry in Hlook.
    apply lookup_singleton_Some in Hlook as [<- <-]. reflexivity. }
  destruct (Registry_list_distinct Sample.range_fwd Sample.one_registry
              range_fwd_visits Hkeyed) as (_ & _ & Hlen & _ & Hin).
  split; [rewrite Hlen; vm_compute; reflexivity|].
  apply Hin. vm_compute. reflexivity.
Defined.
